(** * Aletheia: a shallow embedding of the evaluation and belief engine

    The development follows the Python sources:
    - [aletheia/core.py]: [derive_seed], [rule_of_three_upper_bound],
      the plugin registries, [parallel_trials], [make_certificate],
      [certificate_hash];
    - [aletheia/anchoring.py]: [certificate_hash_json],
      [certificate_hash_bytes];
    - [aletheia/certificate.py]: [sha256_hex];
    - [aletheia/plugins.py], [aletheia/oracles.py]: [quicksort_3way],
      [buggy_quicksort], [is_sorted], [is_permutation],
      [sort_correctness_oracle];
    - [aletheia_epicompiler.py]: [BetaBernoulliClaim], and in the module
      [Epi] the instrumented sorts [mergesort_with_counts] and
      [quicksort3_with_counts], [compare_counts], [falsify_sort] and the
      file's own [rule_of_three_upper_bound].

    Conventions.  A Python [int] is a [Z].  A Python [str] is a Rocq [string]
    holding its UTF-8 bytes, so that [s.encode()] is the list of its bytes.
    A Python [float] is an IEEE-754 binary64 value, given by the Standard
    Library's executable specification [spec_float] at precision 53 and
    maximal exponent 1024.  A raised exception is the [Raise] case of
    [result]. *)

From Stdlib Require Import ZArith List Lia Bool String Ascii.
From Stdlib Require Import DecimalString Sorting.Permutation OrderedTypeEx.
From Stdlib Require Import Floats.SpecFloat.
From stdpp Require Import gmap strings list fin_maps sorting.
From Equations Require Import Equations.

Local Open Scope Z_scope.

(** ** Exceptions *)

Inductive exn : Type :=
| KeyError (key : string)
| OverflowError
| ZeroDivisionError
| Exception (msg : string).

Inductive result (A : Type) : Type :=
| Ok (a : A)
| Raise (e : exn).
Arguments Ok {A} a.
Arguments Raise {A} e.

Definition bind {A B : Type} (r : result A) (k : A -> result B) : result B :=
  match r with
  | Ok a => k a
  | Raise e => Raise e
  end.

Notation "'let*' x ':=' r 'in' k" := (bind r (fun x => k))
  (at level 10, x name, r at level 100, k at level 200).

Definition raises {A : Type} (r : result A) : bool :=
  match r with Ok _ => false | Raise _ => true end.

(** ** Python floats (IEEE-754 binary64) *)

Module PyFloat.

Definition float : Type := spec_float.

Definition prec : Z := 53.
Definition emax : Z := 1024.

(** The double nearest to [m * 2^e], ties to even; an infinity when the
    rounded value is out of range. *)
Definition round (m e : Z) : float := binary_normalize prec emax m e false.

Definition is_zero (x : float) : bool :=
  match x with S754_zero _ => true | _ => false end.

Definition is_finite (x : float) : bool :=
  match x with S754_zero _ | S754_finite _ _ _ => true | _ => false end.

(** [float(n)] for an [int]: correctly rounded, and [OverflowError]
    ("int too large to convert to float") when the result is not finite. *)
Definition of_int (n : Z) : result float :=
  let x := round n 0 in
  if is_finite x then Ok x else Raise OverflowError.

(** [a / b] on floats: [ZeroDivisionError] for a zero divisor. *)
Definition truediv (a b : float) : result float :=
  if is_zero b then Raise ZeroDivisionError else Ok (SFdiv prec emax a b).

Definition add (a b : float) : float := SFadd prec emax a b.

(** Float literals of the sources. *)
Definition one : float := round 1 0.
Definition three : float := round 3 0.

End PyFloat.

(** ** core.py: rule of three *)

(** [def rule_of_three_upper_bound(failures, n)]:
    [if failures == 0 and n > 0: return 3.0 / float(n)], else [None]. *)
Definition rule_of_three_upper_bound (failures n : Z)
  : result (option PyFloat.float) :=
  if (failures =? 0) && (0 <? n) then
    let* d := PyFloat.of_int n in
    let* q := PyFloat.truediv PyFloat.three d in
    Ok (Some q)
  else Ok None.

(** ** hashlib.sha256 (FIPS 180-4) *)

Module Sha256.

Definition w32 (x : Z) : Z := x mod 2 ^ 32.
Definition add32 (x y : Z) : Z := w32 (x + y).
Definition rotr (n x : Z) : Z :=
  Z.lor (Z.shiftr x n) (w32 (Z.shiftl x (32 - n))).
Definition lnot32 (x : Z) : Z := Z.lxor x (2 ^ 32 - 1).

Definition Ch (x y z : Z) : Z := Z.lxor (Z.land x y) (Z.land (lnot32 x) z).
Definition Maj (x y z : Z) : Z :=
  Z.lxor (Z.lxor (Z.land x y) (Z.land x z)) (Z.land y z).
Definition bsig0 (x : Z) : Z := Z.lxor (Z.lxor (rotr 2 x) (rotr 13 x)) (rotr 22 x).
Definition bsig1 (x : Z) : Z := Z.lxor (Z.lxor (rotr 6 x) (rotr 11 x)) (rotr 25 x).
Definition ssig0 (x : Z) : Z := Z.lxor (Z.lxor (rotr 7 x) (rotr 18 x)) (Z.shiftr x 3).
Definition ssig1 (x : Z) : Z := Z.lxor (Z.lxor (rotr 17 x) (rotr 19 x)) (Z.shiftr x 10).

(** The round constants are the first 32 bits of the fractional parts of
    the cube roots of the first 64 primes; the initial state, of the square
    roots of the first 8.  Both are computed rather than tabulated. *)
Fixpoint cbrt_bits (fuel : nat) (n r : Z) : Z :=
  match fuel with
  | O => r
  | S f =>
      let c := r + 2 ^ Z.of_nat f in
      cbrt_bits f n (if c * c * c <=? n then c else r)
  end.
Definition icbrt (n : Z) : Z := cbrt_bits 40 n 0.

Definition primes64 : list Z :=
  [2; 3; 5; 7; 11; 13; 17; 19; 23; 29; 31; 37; 41; 43; 47; 53;
   59; 61; 67; 71; 73; 79; 83; 89; 97; 101; 103; 107; 109; 113; 127; 131;
   137; 139; 149; 151; 157; 163; 167; 173; 179; 181; 191; 193; 197; 199;
   211; 223; 227; 229; 233; 239; 241; 251; 257; 263; 269; 271; 277; 281;
   283; 293; 307; 311].

Definition K : list Z :=
  Eval vm_compute in List.map (fun p => w32 (icbrt (p * 2 ^ 96))) primes64.
Definition H0 : list Z :=
  Eval vm_compute in
    List.map (fun p => w32 (Z.sqrt (p * 2 ^ 64))) (firstn 8 primes64).

(** Padding: a 1 bit, zeros up to 56 mod 64 bytes, the bit length on 8 bytes. *)
Fixpoint be_bytes (k : nat) (x : Z) : list Z :=
  match k with
  | O => []
  | S k' => (Z.shiftr x (8 * Z.of_nat k')) mod 256 :: be_bytes k' x
  end.

Fixpoint from_be (bs : list Z) (acc : Z) : Z :=
  match bs with
  | [] => acc
  | b :: bs' => from_be bs' (acc * 256 + b)
  end.

Definition pad (msg : list Z) : list Z :=
  let len := Z.of_nat (length msg) in
  let k := (55 - len) mod 64 in
  msg ++ 128 :: repeat 0 (Z.to_nat k) ++ be_bytes 8 (8 * len).

(** Message schedule of one 64-byte block: the 16 block words, then 48
    derived words.  The list is kept newest first. *)
Fixpoint block_words (k : nat) (bs : list Z) : list Z :=
  match k with
  | O => []
  | S k' => from_be (firstn 4 bs) 0 :: block_words k' (skipn 4 bs)
  end.

Fixpoint extend (k : nat) (rev_w : list Z) : list Z :=
  match k with
  | O => rev_w
  | S k' =>
      let g i := nth i rev_w 0 in
      extend k'
        (add32 (add32 (ssig1 (g 1%nat)) (g 6%nat))
               (add32 (ssig0 (g 14%nat)) (g 15%nat)) :: rev_w)
  end.

Definition schedule (block : list Z) : list Z :=
  rev (extend 48 (rev (block_words 16 block))).

Record state : Type := State {
  sa : Z; sb : Z; sc : Z; sd : Z; se : Z; sf : Z; sg : Z; sh : Z }.

Definition step (s : state) (kw : Z * Z) : state :=
  let '(k, w) := kw in
  let t1 := add32 (add32 (add32 (sh s) (bsig1 (se s)))
                         (add32 (Ch (se s) (sf s) (sg s)) k)) w in
  let t2 := add32 (bsig0 (sa s)) (Maj (sa s) (sb s) (sc s)) in
  State (add32 t1 t2) (sa s) (sb s) (sc s) (add32 (sd s) t1) (se s) (sf s) (sg s).

Definition compress (h : state) (block : list Z) : state :=
  let s := fold_left step (combine K (schedule block)) h in
  State (add32 (sa h) (sa s)) (add32 (sb h) (sb s))
        (add32 (sc h) (sc s)) (add32 (sd h) (sd s))
        (add32 (se h) (se s)) (add32 (sf h) (sf s))
        (add32 (sg h) (sg s)) (add32 (sh h) (sh s)).

Fixpoint blocks (n : nat) (h : state) (bs : list Z) : state :=
  match n with
  | O => h
  | S n' => blocks n' (compress h (firstn 64 bs)) (skipn 64 bs)
  end.

Definition init : state :=
  State (nth 0 H0 0) (nth 1 H0 0) (nth 2 H0 0) (nth 3 H0 0)
        (nth 4 H0 0) (nth 5 H0 0) (nth 6 H0 0) (nth 7 H0 0).

Definition state_bytes (s : state) : list Z :=
  be_bytes 4 (sa s) ++ be_bytes 4 (sb s) ++ be_bytes 4 (sc s) ++
  be_bytes 4 (sd s) ++ be_bytes 4 (se s) ++ be_bytes 4 (sf s) ++
  be_bytes 4 (sg s) ++ be_bytes 4 (sh s).

(** The 32-byte digest of a byte string. *)
Definition digest_of (msg : list Z) : list Z :=
  let p := pad msg in
  state_bytes (blocks (length p / 64) init p).

(** A [hashlib.sha256()] object: the bytes fed so far. *)
Definition hasher : Type := list Z.
Definition new : hasher := [].
Definition update (m : hasher) (data : list Z) : hasher := m ++ data.
Definition digest (m : hasher) : list Z := digest_of m.

Definition hex_digit (d : Z) : ascii :=
  ascii_of_N (Z.to_N (if d <? 10 then 48 + d else 87 + d)).

Fixpoint hex (bs : list Z) : string :=
  match bs with
  | [] => EmptyString
  | b :: bs' => String (hex_digit (b / 16)) (String (hex_digit (b mod 16)) (hex bs'))
  end.

Definition hexdigest (m : hasher) : string := hex (digest m).

End Sha256.

(** ** Strings and bytes *)

(** [s.encode()]: the UTF-8 bytes of a string. *)
Fixpoint encode (s : string) : list Z :=
  match s with
  | EmptyString => []
  | String c s' => Z.of_N (N_of_ascii c) :: encode s'
  end.

(** [str(i)] for an [int]: decimal digits, with a leading minus sign. *)
Definition str_of_int (i : Z) : string := NilZero.string_of_int (Z.to_int i).

(** ** core.py: deterministic seed derivation *)

(** [m = hashlib.sha256(); m.update(master_seed.encode()); m.update(b"|");
    m.update(namespace.encode()); m.update(b"|"); m.update(str(idx).encode());
    return int.from_bytes(m.digest()[:8], "big")]. *)
Definition derive_seed (master_seed namespace : string) (idx : Z) : Z :=
  let m := Sha256.new in
  let m := Sha256.update m (encode master_seed) in
  let m := Sha256.update m (encode "|") in
  let m := Sha256.update m (encode namespace) in
  let m := Sha256.update m (encode "|") in
  let m := Sha256.update m (encode (str_of_int idx)) in
  Sha256.from_be (firstn 8 (Sha256.digest m)) 0.

(** ** Python values and json.dumps *)

#[local] Set Warnings "-register-all".

(** The values that reach [json.dumps] in this program.  A [dict] keeps its
    insertion order, so it is an association list; its keys are strings.
    Tuples serialise as lists and are not told apart here. *)
Inductive pyval : Type :=
| VNone
| VBool (b : bool)
| VInt (n : Z)
| VFloat (x : PyFloat.float)
| VStr (s : string)
| VList (l : list pyval)
| VDict (d : list (string * pyval)).

Module Json.

(** Code points of a UTF-8 byte sequence: [pending] continuation bytes
    are still expected for the code point accumulated in [acc]. *)
Fixpoint utf8_points (bs : list Z) (pending : nat) (acc : Z) : list Z :=
  match bs with
  | [] => []
  | b :: bs' =>
      match pending with
      | O =>
          if b <? 128 then b :: utf8_points bs' 0 0
          else if b <? 224 then utf8_points bs' 1 (Z.land b 31)
          else if b <? 240 then utf8_points bs' 2 (Z.land b 15)
          else utf8_points bs' 3 (Z.land b 7)
      | S O => (acc * 64 + Z.land b 63) :: utf8_points bs' 0 0
      | S p => utf8_points bs' p (acc * 64 + Z.land b 63)
      end
  end.

Definition chr (c : Z) : string := String (ascii_of_N (Z.to_N c)) EmptyString.

(** ['\\u{0:04x}'.format(n)] *)
Definition u_escape (n : Z) : string :=
  String "\" (String "u" (Sha256.hex (Sha256.be_bytes 2 n))).

(** One code point under [ensure_ascii=True]: the short escapes, the
    printable ASCII range as it is, [\uXXXX] otherwise, with a surrogate
    pair above the basic plane. *)
Definition escape_point (c : Z) : string :=
  if c =? 34 then String "\" (chr 34)
  else if c =? 92 then String "\" (chr 92)
  else if c =? 10 then String "\" "n"
  else if c =? 13 then String "\" "r"
  else if c =? 9 then String "\" "t"
  else if c =? 8 then String "\" "b"
  else if c =? 12 then String "\" "f"
  else if (32 <=? c) && (c <=? 126) then chr c
  else if c <? 65536 then u_escape c
  else
    let n := c - 65536 in
    u_escape (Z.lor 55296 (Z.land (Z.shiftr n 10) 1023)) ++
    u_escape (Z.lor 56320 (Z.land n 1023)).

(** [py_encode_basestring_ascii]: the quoted, escaped string. *)
Definition encode_str (s : string) : string :=
  chr 34 ++ String.concat EmptyString (List.map escape_point (utf8_points (encode s) 0 0))
         ++ chr 34.

(** Order of [sorted(dct.items())]: the items compare by key, and the keys
    of a dict are distinct. *)
Definition key_le {A : Type} (x y : string * A) : Prop :=
  String.leb (fst x) (fst y) = true.

#[global] Instance key_le_dec {A : Type} (x y : string * A) :
  Decision (key_le x y).
Proof. unfold key_le. apply _. Defined.

Definition sorted_items {A : Type} (d : list (string * A)) : list (string * A) :=
  merge_sort key_le d.

Section Dumps.

(** [float.__repr__] on finite floats: the shortest decimal string that
    reads back as the same double.  It is left as a parameter. *)
Variable float_repr : PyFloat.float -> string.

Definition floatstr (x : PyFloat.float) : string :=
  match x with
  | S754_nan => "NaN"
  | S754_infinity false => "Infinity"
  | S754_infinity true => "-Infinity"
  | _ => float_repr x
  end.

Definition item_str (kv : string * string) : string :=
  encode_str (fst kv) ++ ":" ++ snd kv.

(** [json.dumps(v, sort_keys=True, separators=(",", ":"))].  The values
    of a dict are rendered first and the rendered items are then put in
    key order; the order looks at keys only, so this is the text that
    rendering the sorted items gives. *)
Fixpoint dumps (v : pyval) : string :=
  match v with
  | VNone => "null"
  | VBool true => "true"
  | VBool false => "false"
  | VInt n => str_of_int n
  | VFloat x => floatstr x
  | VStr s => encode_str s
  | VList l =>
      "[" ++ String.concat "," (List.map dumps l) ++ "]"
  | VDict d =>
      "{" ++ String.concat ","
               (List.map item_str
                  (sorted_items (List.map (fun kv => (fst kv, dumps (snd kv))) d)))
          ++ "}"
  end.

End Dumps.

End Json.

(** ** core.py: certificates *)

(** [@dataclass class BeliefCertificate]; a claim or proof summary is a
    [Dict[str, Any]]. *)
Record BeliefCertificate : Type := {
  certVersion : string;
  programHash : string;
  machine : string;
  createdAt : PyFloat.float;
  cert_claims : list (list (string * pyval));
  cert_proofs : list (list (string * pyval))
}.

(** [dataclasses.asdict]: the fields in declaration order. *)
Definition asdict (cert : BeliefCertificate) : pyval :=
  VDict [("certVersion", VStr (certVersion cert));
         ("programHash", VStr (programHash cert));
         ("machine", VStr (machine cert));
         ("createdAt", VFloat (createdAt cert));
         ("claims", VList (List.map VDict (cert_claims cert)));
         ("proofs", VList (List.map VDict (cert_proofs cert)))].

Section Hashing.

Variable float_repr : PyFloat.float -> string.

(** anchoring.py: [blob = json.dumps(cert_obj, sort_keys=True,
    separators=(",",":")).encode(); return "0x"+hashlib.sha256(blob).hexdigest()]. *)
Definition certificate_hash_json (cert_obj : pyval) : string :=
  let blob := encode (Json.dumps float_repr cert_obj) in
  "0x" ++ Sha256.hexdigest (Sha256.update Sha256.new blob).

(** core.py: the same over [asdict(cert)]. *)
Definition certificate_hash (cert : BeliefCertificate) : string :=
  let blob := encode (Json.dumps float_repr (asdict cert)) in
  "0x" ++ Sha256.hexdigest (Sha256.update Sha256.new blob).

End Hashing.

(** ** plugins.py and oracles.py: sorting *)

(** [a[i]], with the default 0 standing for an index that the callers below
    never use. *)
Definition item (a : list Z) (i : nat) : Z := nth i a 0.

(** A comprehension that rejects one element of the list is shorter than
    the list: this is why the recursive calls below terminate. *)
Lemma filter_rejecting_shorter (f : Z -> bool) (a : list Z) (x : Z) :
  In x a -> f x = false -> (length (List.filter f a) < length a)%nat.
Proof.
  induction a as [|y a IH]; simpl; [tauto|].
  intros [->|Hin] Hf.
  - rewrite Hf. pose proof (List.filter_length_le f a). lia.
  - specialize (IH Hin Hf). destruct (f y); simpl; lia.
Qed.

(** [def quicksort_3way(a, rng)]: [if len(a) <= 1: return a[:]], then the
    three comprehensions around [pivot = a[len(a)//2]]. *)
Equations? quicksort_3way {Rng : Type} (a : list Z) (rng : Rng) : list Z
  by wf (length a) lt :=
  quicksort_3way a rng with le_dec (length a) 1 := {
    | left _ => a
    | right _ =>
        let pivot := item a (length a / 2) in
        let lt_ := List.filter (fun x => x <? pivot) a in
        let eq_ := List.filter (fun x => x =? pivot) a in
        let gt_ := List.filter (fun x => pivot <? x) a in
        quicksort_3way lt_ rng ++ eq_ ++ quicksort_3way gt_ rng }.
Proof.
  all: assert (Hin : In (item a (length a / 2)) a)
         by (apply nth_In, Nat.div_lt; lia).
  all: apply (filter_rejecting_shorter _ _ _ Hin), Z.ltb_irrefl.
Qed.

(** [def buggy_quicksort(a, rng)]: the pivot is emitted once and its
    duplicates are dropped. *)
Equations? buggy_quicksort {Rng : Type} (a : list Z) (rng : Rng) : list Z
  by wf (length a) lt :=
  buggy_quicksort a rng with le_dec (length a) 1 := {
    | left _ => a
    | right _ =>
        let pivot := item a (length a / 2) in
        let left_ := List.filter (fun x => x <? pivot) a in
        let right_ := List.filter (fun x => pivot <? x) a in
        buggy_quicksort left_ rng ++ [pivot] ++ buggy_quicksort right_ rng }.
Proof.
  all: assert (Hin : In (item a (length a / 2)) a)
         by (apply nth_In, Nat.div_lt; lia).
  all: apply (filter_rejecting_shorter _ _ _ Hin), Z.ltb_irrefl.
Qed.

(** [all(a[i] <= a[i+1] for i in range(len(a)-1))] *)
Definition is_sorted (a : list Z) : bool :=
  forallb (fun i => item a i <=? item a (i + 1)) (seq 0 (length a - 1)).

(** [collections.Counter(a)]: a dict from the elements to their counts. *)
Definition Counter (a : list Z) : gmap Z nat :=
  fold_left (fun c x => <[x := S (default O (c !! x))]> c) a ∅.

(** [Counter(a) == Counter(b)] *)
Definition is_permutation (a b : list Z) : bool :=
  bool_decide (Counter a = Counter b).

(** [def sort_correctness_oracle(inp, out)]: the output is a list by its
    type here, so [isinstance(out, list)] holds. *)
Definition sort_correctness_oracle (inp out : list Z)
  : bool * list (string * pyval) :=
  let ok := true && is_sorted out && is_permutation inp out in
  let details := [] in
  let details :=
    if negb ok then details ++ [("reason", VStr "not_sorted_or_not_permutation")]
    else details in
  (ok, details).

(** ** core.py: the epistemic IR *)

Record Domain : Type := {
  name : string;
  params : list (string * pyval)
}.

Record ProofArtifact : Type := {
  kind : string;
  uri : string;
  hash : option string
}.

(** [@dataclass class Claim]; the field [id] is [claim_id] here. *)
Record Claim : Type := {
  claim_id : string;
  proposition : string;
  domain : Domain;
  adversary : string;
  oracle : string;
  power_alpha : PyFloat.float;
  trials : Z;
  stop_on_first_failure : bool;
  prior : list (string * pyval);
  proofs : list ProofArtifact
}.

(** What the run depends on outside the program: the processor count, the
    order in which the futures of a batch complete (given the pool size and
    the submitted trial indices), and the two clock readings. *)
Record World : Type := {
  cpu_count : option Z;
  as_completed : Z -> list Z -> list Z;
  time_start : PyFloat.float;
  time_end : PyFloat.float
}.

(** [as_completed] yields every submitted future once. *)
Definition fair (w : World) : Prop :=
  forall workers idxs, Permutation (as_completed w workers idxs) idxs.

(** [sys.maxsize]: no Python list is longer, so no larger budget can be
    completed. *)
Definition sys_maxsize : Z := 2 ^ 63 - 1.

(** [list(range(lo, hi))] *)
Definition range (lo hi : Z) : list Z := seqZ lo (hi - lo).

(** [d[key]] on a dict: [KeyError(key)] when the key is missing. *)
Definition getitem {V : Type} (d : gmap string V) (key : string) : result V :=
  match d !! key with
  | Some v => Ok v
  | None => Raise (KeyError key)
  end.

Section Engine.

(** The state of a [random.Random], the inputs and the outputs. *)
Variables Rng Inp Out : Type.

(** [random.Random(seed)] *)
Variable Random : Z -> Rng.

Record TrialResult : Type := {
  idx : Z;
  input_data : Inp;
  output_data : Out;
  passed : bool;
  details : list (string * pyval)
}.

Record ClaimResult : Type := {
  claim : Claim;
  failures : Z;
  trials_run : Z;
  sample_failures : list TrialResult;
  upper95_failure_prob : option PyFloat.float;
  rng_commit : string;
  duration_sec : PyFloat.float
}.

(** The three kinds of plugins.  A generator draws from the random source,
    which the implementation then receives in the state the generator
    left it.  Each of them may raise. *)
Definition generator : Type :=
  Rng -> list (string * pyval) -> result (Inp * Rng).
Definition implementation : Type := Inp -> Rng -> result Out.
Definition oracle_fn : Type :=
  Inp -> Out -> result (bool * list (string * pyval)).

(** The module-level registries. *)
Record registries : Type := {
  GEN_REGISTRY : gmap string generator;
  ORACLE_REGISTRY : gmap string oracle_fn;
  IMPL_REGISTRY : gmap string implementation
}.

(** [register_generator(name)(fn)] and its two siblings. *)
Definition register_generator (key : string) (fn : generator) (r : registries) :=
  {| GEN_REGISTRY := <[key := fn]> (GEN_REGISTRY r);
     ORACLE_REGISTRY := ORACLE_REGISTRY r;
     IMPL_REGISTRY := IMPL_REGISTRY r |}.
Definition register_oracle (key : string) (fn : oracle_fn) (r : registries) :=
  {| GEN_REGISTRY := GEN_REGISTRY r;
     ORACLE_REGISTRY := <[key := fn]> (ORACLE_REGISTRY r);
     IMPL_REGISTRY := IMPL_REGISTRY r |}.
Definition register_impl (key : string) (fn : implementation) (r : registries) :=
  {| GEN_REGISTRY := GEN_REGISTRY r;
     ORACLE_REGISTRY := ORACLE_REGISTRY r;
     IMPL_REGISTRY := <[key := fn]> (IMPL_REGISTRY r) |}.

Definition no_plugins : registries :=
  {| GEN_REGISTRY := ∅; ORACLE_REGISTRY := ∅; IMPL_REGISTRY := ∅ |}.

(** The locals of [parallel_trials] that the loops update. *)
Record locals : Type := {
  st_failures : Z;
  st_sample_failures : list TrialResult;
  st_results : list TrialResult
}.

Definition batch : Z := 128.

Section Trials.

Variables (gen : generator) (orc : oracle_fn) (impl : implementation).
Variables (c : Claim) (master_seed : string).

(** [def run_one(i)] *)
Definition run_one (i : Z) : result TrialResult :=
  let seed := derive_seed master_seed (claim_id c) i in
  let rng := Random seed in
  let* g := gen rng (params (domain c)) in
  let* out := impl (fst g) (snd g) in
  let* v := orc (fst g) out in
  Ok {| idx := i; input_data := fst g; output_data := out;
        passed := fst v; details := snd v |}.

(** [for fut in cf.as_completed(futs)]: the futures in completion order.
    [fut.result()] re-raises what the trial raised.  The flag tells that
    the loop was left by [break], after [i = claim.trials]. *)
Fixpoint consume (stop : bool) (futs : list (result TrialResult))
    (st : locals) : result (locals * bool) :=
  match futs with
  | [] => Ok (st, false)
  | fut :: rest =>
      let* tr := fut in
      let st :=
        {| st_failures := st_failures st;
           st_sample_failures := st_sample_failures st;
           st_results := st_results st ++ [tr] |} in
      if negb (passed tr) then
        let st :=
          {| st_failures := st_failures st + 1;
             st_sample_failures :=
               if (length (st_sample_failures st) <? 5)%nat
               then st_sample_failures st ++ [tr]
               else st_sample_failures st;
             st_results := st_results st |} in
        if stop then Ok (st, true) else consume stop rest st
      else consume stop rest st
  end.

Variables (w : World) (workers : Z).

(** [while i < claim.trials]: one batch per turn.  [ran] collects the
    indices submitted to the executor: the pool runs each submitted
    trial to completion, since leaving the [with] block waits for the
    pending futures and cancels none, also after a [break] or when an
    exception passes through. *)
Equations? batches (i : Z) (ran : list Z) (st : locals)
  : list Z * result locals by wf (Z.to_nat (trials c - i)) lt :=
  batches i ran st with Z_lt_dec i (trials c) := {
    | right _ => (ran, Ok st)
    | left _ =>
        let idxs := range i (Z.min (i + batch) (trials c)) in
        let futs := List.map run_one (as_completed w workers idxs) in
        match consume (stop_on_first_failure c) futs st with
        | Raise e => (ran ++ idxs, Raise e)
        | Ok (st', broke) =>
            let i1 := if broke : bool then trials c else i in
            let i2 := i1 + batch in
            if negb (st_failures st' =? 0) && stop_on_first_failure c
            then (ran ++ idxs, Ok st')
            else batches i2 (ran ++ idxs) st'
        end }.
Proof. subst i1 i2. unfold batch. destruct broke; lia. Qed.

End Trials.

(** What a call leaves behind: the trial indices that the pool ran, and
    the value returned or the exception raised. *)
Record run : Type := {
  pool_ran : list Z;
  returned : result ClaimResult
}.

Definition no_locals : locals :=
  {| st_failures := 0; st_sample_failures := []; st_results := [] |}.

(** [gen = GEN_REGISTRY[claim.adversary]; oracle = ORACLE_REGISTRY[claim.oracle];
    impl = IMPL_REGISTRY[impl_name]], in this order. *)
Definition lookup_plugins (r : registries) (c : Claim) (impl_name : string)
  : result (generator * oracle_fn * implementation) :=
  let* gen := getitem (GEN_REGISTRY r) (adversary c) in
  let* orc := getitem (ORACLE_REGISTRY r) (oracle c) in
  let* impl := getitem (IMPL_REGISTRY r) impl_name in
  Ok (gen, orc, impl).

(** [if max_workers <= 0: max_workers = min(32, (os.cpu_count() or 2))] *)
Definition pool_size (w : World) (max_workers : Z) : Z :=
  if max_workers <=? 0 then
    Z.min 32 (match cpu_count w with
              | Some n => if n =? 0 then 2 else n
              | None => 2
              end)
  else max_workers.

(** The two loops of [parallel_trials], from [i = 0] and empty locals. *)
Definition trial_loop (w : World) (c : Claim) (master_seed : string)
    (max_workers : Z) (p : generator * oracle_fn * implementation)
  : list Z * result locals :=
  batches (fst (fst p)) (snd (fst p)) (snd p) c master_seed w
    (pool_size w max_workers) 0 [] no_locals.

(** [def parallel_trials(claim, impl_name, master_seed, max_workers=0)] *)
Definition parallel_trials (r : registries) (w : World)
    (c : Claim) (impl_name master_seed : string) (max_workers : Z) : run :=
  match lookup_plugins r c impl_name with
  | Raise e => {| pool_ran := []; returned := Raise e |}
  | Ok p =>
      let commit :=
        Sha256.hexdigest
          (Sha256.update Sha256.new
             (encode (master_seed ++ "|" ++ claim_id c ++ "|" ++ impl_name))) in
      let '(ran, looped) := trial_loop w c master_seed max_workers p in
      {| pool_ran := ran;
         returned :=
           let* st := looped in
           let n := Z.of_nat (length (st_results st)) in
           let* upper := rule_of_three_upper_bound (st_failures st) n in
           let dur := SFsub PyFloat.prec PyFloat.emax (time_end w) (time_start w) in
           Ok {| claim := c; failures := st_failures st; trials_run := n;
                 sample_failures := st_sample_failures st;
                 upper95_failure_prob := upper;
                 rng_commit := commit; duration_sec := dur |} |}
  end.

(** The outcomes of the trials that the pool ran and that returned one. *)
Definition completed_outcomes (r : registries) (c : Claim)
    (impl_name master_seed : string) (ran : list Z) : list TrialResult :=
  match lookup_plugins r c impl_name with
  | Ok p =>
      omap (fun j =>
              match run_one (fst (fst p)) (snd (fst p)) (snd p) c master_seed j with
              | Ok tr => Some tr
              | Raise _ => None
              end) ran
  | Raise _ => []
  end.

(** The list [results] when the loops are left, of which [trials_run] is
    the length: the outcomes that [fut.result()] handed over. *)
Definition consumed_outcomes (r : registries) (w : World) (c : Claim)
    (impl_name master_seed : string) (max_workers : Z) : list TrialResult :=
  match lookup_plugins r c impl_name with
  | Ok p =>
      match snd (trial_loop w c master_seed max_workers p) with
      | Ok st => st_results st
      | Raise _ => []
      end
  | Raise _ => []
  end.

Definition failing (tr : TrialResult) : bool := negb (passed tr).

End Engine.

(** ** aletheia_epicompiler.py: the Beta-Bernoulli belief state *)

(** [@dataclass class BetaBernoulliClaim]; the field [name] is [bb_name]. *)
Record BetaBernoulliClaim : Type := {
  bb_name : string;
  alpha : PyFloat.float;
  beta : PyFloat.float;
  history : list Z
}.

(** [def update(self, outcome)] *)
Definition update (self : BetaBernoulliClaim) (outcome : Z) : BetaBernoulliClaim :=
  let self :=
    {| bb_name := bb_name self; alpha := alpha self; beta := beta self;
       history := history self ++ [outcome] |} in
  if outcome =? 1 then
    {| bb_name := bb_name self; alpha := PyFloat.add (alpha self) PyFloat.one;
       beta := beta self; history := history self |}
  else
    {| bb_name := bb_name self; alpha := alpha self;
       beta := PyFloat.add (beta self) PyFloat.one; history := history self |}.

(** [def posterior_mean(self)] *)
Definition posterior_mean (self : BetaBernoulliClaim) : result PyFloat.float :=
  PyFloat.truediv (alpha self) (PyFloat.add (alpha self) (beta self)).

(** A fresh claim: [alpha] and [beta] default to 1.0, the history is empty. *)
Definition new_claim (n : string) : BetaBernoulliClaim :=
  {| bb_name := n; alpha := PyFloat.one; beta := PyFloat.one; history := [] |}.

(** A positive double, as a Beta parameter is: finite with an exponent in
    range, or the positive infinity. *)
Definition positive_float (x : PyFloat.float) : Prop :=
  match x with
  | S754_infinity false => True
  | S754_finite false _ e => -1074 <= e
  | _ => False
  end.

Definition proper_beta (self : BetaBernoulliClaim) : Prop :=
  positive_float (alpha self) /\ positive_float (beta self).

(** [k] times [x += 1.0]. *)
Definition increments (k : nat) (x : PyFloat.float) : PyFloat.float :=
  Nat.iter k (fun a => PyFloat.add a PyFloat.one) x.

(** The number of outcomes equal to [v]. *)
Definition occurrences (v : Z) (outcomes : list Z) : nat :=
  count_occ Z.eq_dec outcomes v.

Definition binary (outcomes : list Z) : Prop :=
  Forall (fun o => o = 0 \/ o = 1) outcomes.

(** [for o in outcomes: self.update(o)] *)
Definition updates (self : BetaBernoulliClaim) (outcomes : list Z)
  : BetaBernoulliClaim :=
  fold_left update outcomes self.

(** The plugins as the decorators [@register_impl("quicksort3")] and
    [@register_oracle("sort_correctness")] put them in the registries:
    neither raises on lists of integers. *)
Definition quicksort3_plugin {Rng : Type} : implementation Rng (list Z) (list Z) :=
  fun a rng => Ok (quicksort_3way a rng).

Definition sort_correctness_plugin : oracle_fn (list Z) (list Z) :=
  fun inp out => Ok (sort_correctness_oracle inp out).

(** ** A small instance *)

(** The random source is its seed; the generators ignore it.  The pool
    completes the trials of a batch in index order. *)
Module Demo.

Definition Random (seed : Z) : Z := seed.

Definition constant (a : list Z) : generator Z (list Z) :=
  fun rng _ => Ok (a, rng).

Definition broken : generator Z (list Z) :=
  fun _ _ => Raise (Exception "boom").

Definition plugins : registries Z (list Z) (list Z) :=
  register_impl _ _ _ "buggy_quicksort" (fun a rng => Ok (buggy_quicksort a rng))
    (register_impl _ _ _ "quicksort3" quicksort3_plugin
       (register_oracle _ _ _ "sort_correctness" sort_correctness_plugin
          (register_generator _ _ _ "broken" broken
             (register_generator _ _ _ "ones" (constant [1; 1])
                (no_plugins _ _ _))))).

Definition world : World :=
  {| cpu_count := Some 4; as_completed := fun _ idxs => idxs;
     time_start := PyFloat.one; time_end := PyFloat.three |}.

Definition sorting_claim (adv orc : string) (n : Z) (stop : bool) : Claim :=
  {| claim_id := "SortsCorrect"; proposition := "sorts correctly";
     domain := {| name := "int_array"; params := [] |};
     adversary := adv; oracle := orc; power_alpha := PyFloat.one;
     trials := n; stop_on_first_failure := stop;
     prior := []; proofs := [] |}.

Definition evaluate (adv orc impl_name : string) (n : Z) (stop : bool)
  : run (list Z) (list Z) :=
  parallel_trials Z (list Z) (list Z) Random plugins world
    (sorting_claim adv orc n stop) impl_name "seed" 0.

End Demo.

(** The three kinds of capabilities. *)
Inductive capability : Type := Generator | Oracle | Implementation.

(** ** Logical content of values and certificates *)

(** The keys of every dict inside a value are distinct, as in Python. *)
Fixpoint keys_distinct (v : pyval) : Prop :=
  match v with
  | VList l =>
      (fix all (l : list pyval) : Prop :=
         match l with
         | [] => True
         | x :: l' => keys_distinct x /\ all l'
         end) l
  | VDict d =>
      NoDup (List.map fst d) /\
      (fix all (d : list (string * pyval)) : Prop :=
         match d with
         | [] => True
         | kv :: d' => keys_distinct (snd kv) /\ all d'
         end) d
  | _ => True
  end.

(** Two values with the same logical content: equal, up to the order in
    which the items of their dicts were inserted. *)
Inductive same_content : pyval -> pyval -> Prop :=
| same_none : same_content VNone VNone
| same_bool b : same_content (VBool b) (VBool b)
| same_int n : same_content (VInt n) (VInt n)
| same_float x : same_content (VFloat x) (VFloat x)
| same_str s : same_content (VStr s) (VStr s)
| same_list l1 l2 :
    Forall2 same_content l1 l2 -> same_content (VList l1) (VList l2)
| same_dict d1 d d2 :
    Permutation d1 d ->
    Forall2 (fun x y => fst x = fst y /\ same_content (snd x) (snd y)) d d2 ->
    same_content (VDict d1) (VDict d2).

Definition same_certificate (c1 c2 : BeliefCertificate) : Prop :=
  certVersion c1 = certVersion c2 /\ programHash c1 = programHash c2 /\
  machine c1 = machine c2 /\ createdAt c1 = createdAt c2 /\
  Forall2 (fun d1 d2 => same_content (VDict d1) (VDict d2))
    (cert_claims c1) (cert_claims c2) /\
  Forall2 (fun d1 d2 => same_content (VDict d1) (VDict d2))
    (cert_proofs c1) (cert_proofs c2).

Definition certificate_keys_distinct (c : BeliefCertificate) : Prop :=
  Forall (fun d => keys_distinct (VDict d)) (cert_claims c) /\
  Forall (fun d => keys_distinct (VDict d)) (cert_proofs c).

(** A lowercase hexadecimal digest of 32 bytes after the marker [0x]. *)
Definition is_hex_digit (c : ascii) : bool :=
  let n := Z.of_N (N_of_ascii c) in
  ((48 <=? n) && (n <=? 57)) || ((97 <=? n) && (n <=? 102)).

Definition is_0x_digest (s : string) : bool :=
  match s with
  | String a (String b h) =>
      Ascii.eqb a "0" && Ascii.eqb b "x" && (String.length h =? 64)%nat &&
      forallb is_hex_digit (list_ascii_of_string h)
  | _ => false
  end.

(** A certificate with the given claim summaries. *)
Definition demo_certificate (claims : list (list (string * pyval))) : BeliefCertificate :=
  {| certVersion := "1.0"; programHash := "0xabc"; machine := "host";
     createdAt := PyFloat.one; cert_claims := claims; cert_proofs := [] |}.

(** ** core.py: making a certificate *)

Section Certificates.

Context {Inp Out : Type}.

(** The dict that [make_certificate] appends to [claims_out] for one
    claim result. *)
Definition claim_summary (cr : ClaimResult Inp Out) : list (string * pyval) :=
  let c := claim _ _ cr in
  [("id", VStr (claim_id c));
   ("proposition", VStr (proposition c));
   ("domain", VDict [("name", VStr (name (domain c)));
                     ("params", VDict (params (domain c)))]);
   ("adversary", VStr (adversary c));
   ("oracle", VStr (oracle c));
   ("power", VDict [("alpha", VFloat (power_alpha c)); ("trials", VInt (trials c))]);
   ("results",
    VDict [("failures", VInt (failures _ _ cr));
           ("trialsRun", VInt (trials_run _ _ cr));
           ("upper95FailureProb",
            match upper95_failure_prob _ _ cr with
            | Some u => VFloat u
            | None => VNone
            end);
           ("rngCommit", VStr (rng_commit _ _ cr));
           ("durationSec", VFloat (duration_sec _ _ cr))])].

(** The dict appended to [proofs_out] for one proof artifact. *)
Definition proof_summary (p : ProofArtifact) : list (string * pyval) :=
  [("kind", VStr (kind p)); ("uri", VStr (uri p));
   ("hash", match hash p with Some h => VStr h | None => VNone end)].

(** [def make_certificate(program_hash, machine, claim_results)]; [now] is
    the reading of [time.time()]. *)
Definition make_certificate (now : PyFloat.float) (program_hash machine : string)
    (claim_results : list (ClaimResult Inp Out)) : BeliefCertificate :=
  let claims_out := [] in
  let proofs_out := [] in
  let '(claims_out, proofs_out) :=
    fold_left
      (fun '(claims_out, proofs_out) cr =>
         let c := claim _ _ cr in
         let claims_out := claims_out ++ [claim_summary cr] in
         let proofs_out :=
           fold_left (fun proofs_out p => proofs_out ++ [proof_summary p])
             (proofs c) proofs_out in
         (claims_out, proofs_out))
      claim_results (claims_out, proofs_out) in
  {| certVersion := "1.0"; programHash := program_hash; machine := machine;
     createdAt := now; cert_claims := claims_out; cert_proofs := proofs_out |}.

End Certificates.

(** ** anchoring.py and certificate.py: hashing a file *)

(** The files that [open(path, "rb")] finds, with their bytes. *)
Definition filesystem : Type := gmap string (list Z).

(** [for chunk in iter(lambda: f.read(size), b"")]: the chunks read from a
    file whose unread part is [data], up to the first empty read.  Every
    turn but the last consumes a byte, so [S (length data)] turns are
    enough. *)
Fixpoint read_chunks (turns size : nat) (data : list Z) : list (list Z) :=
  match turns with
  | O => []
  | S turns' =>
      match firstn size data with
      | [] => []
      | chunk => chunk :: read_chunks turns' size (skipn size data)
      end
  end.

Definition chunk_size : nat := Z.to_nat 8192.

(** certificate.py, [def sha256_hex(path)]; [None] stands for the [OSError]
    that [open] raises when there is no such file. *)
Definition sha256_hex (fs : filesystem) (path : string) : option string :=
  match fs !! path with
  | None => None
  | Some data =>
      let h := Sha256.new in
      let h :=
        fold_left Sha256.update (read_chunks (S (length data)) chunk_size data) h in
      Some ("0x" ++ Sha256.hexdigest h)%string
  end.

(** anchoring.py, [def certificate_hash_bytes(cert_path)] *)
Definition certificate_hash_bytes (fs : filesystem) (cert_path : string)
  : option string :=
  match fs !! cert_path with
  | None => None
  | Some data =>
      Some ("0x" ++ Sha256.hexdigest (Sha256.update Sha256.new data))%string
  end.

(** ** aletheia_epicompiler.py: instrumented sorts and falsification *)

Module Epi.

(** The state of the merge loop of [mergesort_with_counts]. *)
Record merge_state : Type := {
  m_i : nat;
  m_j : nat;
  m_out : list Z;
  m_count : Z
}.

(** [while i < len(left) and j < len(right)]: one comparison per turn. *)
Equations? merge_loop (left_ right_ : list Z) (s : merge_state) : merge_state
  by wf ((length left_ - m_i s) + (length right_ - m_j s))%nat lt :=
  merge_loop left_ right_ s
    with lt_dec (m_i s) (length left_), lt_dec (m_j s) (length right_) := {
    | left _, left _ =>
        let count := m_count s + 1 in
        if item left_ (m_i s) <=? item right_ (m_j s) then
          merge_loop left_ right_
            {| m_i := S (m_i s); m_j := m_j s;
               m_out := m_out s ++ [item left_ (m_i s)]; m_count := count |}
        else
          merge_loop left_ right_
            {| m_i := m_i s; m_j := S (m_j s);
               m_out := m_out s ++ [item right_ (m_j s)]; m_count := count |}
    | _, _ => s }.
Proof. all: simpl; lia. Qed.

(** The part of [mergesort_with_counts] after the recursive calls: the
    loop, then the rest of the list that is not exhausted. *)
Definition merge (left_ right_ : list Z) (cmp_counter : Z) : list Z * Z :=
  let s := merge_loop left_ right_
             {| m_i := 0; m_j := 0; m_out := []; m_count := cmp_counter |} in
  let out := m_out s in
  let out := if (m_i s <? length left_)%nat then out ++ skipn (m_i s) left_ else out in
  let out := if (m_j s <? length right_)%nat then out ++ skipn (m_j s) right_ else out in
  (out, m_count s).

(** [def mergesort_with_counts(a, cmp_counter)]; the cell [cmp_counter[0]]
    is passed in and returned. *)
Equations? mergesort_with_counts (a : list Z) (cmp_counter : Z) : list Z * Z
  by wf (length a) lt :=
  mergesort_with_counts a cmp_counter with le_dec (length a) 1 := {
    | left _ => (a, cmp_counter)
    | right _ =>
        let mid := (length a / 2)%nat in
        let l := mergesort_with_counts (firstn mid a) cmp_counter in
        let r := mergesort_with_counts (skipn mid a) (snd l) in
        merge (fst l) (fst r) (snd r) }.
Proof.
  - change (length (firstn (length a / 2) a) < length a)%nat.
    rewrite length_firstn.
    assert (length a / 2 < length a)%nat by (apply Nat.div_lt; lia). lia.
  - change (length (skipn (length a / 2) a) < length a)%nat.
    rewrite length_skipn.
    assert (0 < length a / 2)%nat by (apply Nat.div_str_pos; lia). lia.
Qed.

(** The locals of the [for x in a] loop of [quicksort3_with_counts]. *)
Record partition_state : Type := {
  p_lt : list Z;
  p_eq : list Z;
  p_gt : list Z;
  p_count : Z
}.

(** One turn of the loop. *)
Definition partition3_step (pivot : Z) (s : partition_state) (x : Z)
  : partition_state :=
  let count := p_count s + 1 in
  if x <? pivot then
    {| p_lt := p_lt s ++ [x]; p_eq := p_eq s; p_gt := p_gt s; p_count := count |}
  else
    let count := count + 1 in
    if x =? pivot then
      {| p_lt := p_lt s; p_eq := p_eq s ++ [x]; p_gt := p_gt s; p_count := count |}
    else
      {| p_lt := p_lt s; p_eq := p_eq s; p_gt := p_gt s ++ [x]; p_count := count |}.

Definition partition3 (pivot : Z) (a : list Z) (cmp_counter : Z) : partition_state :=
  fold_left (partition3_step pivot) a
    {| p_lt := []; p_eq := []; p_gt := []; p_count := cmp_counter |}.

(** The loop files every element in one of the three lists, in order. *)
Lemma partition3_from (pivot : Z) (a : list Z) :
  forall s : partition_state,
  p_lt (fold_left (partition3_step pivot) a s) =
    p_lt s ++ List.filter (fun x => x <? pivot) a /\
  p_eq (fold_left (partition3_step pivot) a s) =
    p_eq s ++ List.filter (fun x => x =? pivot) a /\
  p_gt (fold_left (partition3_step pivot) a s) =
    p_gt s ++ List.filter (fun x => pivot <? x) a.
Proof.
  induction a as [|x a IH]; intros s; cbn [fold_left List.filter].
  - now rewrite !app_nil_r.
  - destruct (IH (partition3_step pivot s x)) as (-> & -> & ->).
    unfold partition3_step.
    destruct (Z.ltb_spec x pivot); [|destruct (Z.eqb_spec x pivot)];
      destruct (Z.ltb_spec pivot x); try lia; cbn [p_lt p_eq p_gt];
      try (destruct (Z.eqb_spec x pivot); try lia);
      rewrite <- ?app_assoc; auto.
Qed.

Lemma partition3_lists (pivot : Z) (a : list Z) (cmp_counter : Z) :
  p_lt (partition3 pivot a cmp_counter) = List.filter (fun x => x <? pivot) a /\
  p_eq (partition3 pivot a cmp_counter) = List.filter (fun x => x =? pivot) a /\
  p_gt (partition3 pivot a cmp_counter) = List.filter (fun x => pivot <? x) a.
Proof. apply partition3_from. Qed.

(** [def quicksort3_with_counts(a, cmp_counter)] *)
Equations? quicksort3_with_counts (a : list Z) (cmp_counter : Z) : list Z * Z
  by wf (length a) lt :=
  quicksort3_with_counts a cmp_counter with le_dec (length a) 1 := {
    | left _ => (a, cmp_counter)
    | right _ =>
        let pivot := item a (length a / 2) in
        let parts := partition3 pivot a cmp_counter in
        let l := quicksort3_with_counts (p_lt parts) (p_count parts) in
        let g := quicksort3_with_counts (p_gt parts) (snd l) in
        (fst l ++ p_eq parts ++ fst g, snd g) }.
Proof.
  all: assert (Hin : In (item a (length a / 2)) a)
         by (apply nth_In, Nat.div_lt; lia).
  all: destruct (partition3_lists pivot a cmp_counter) as (Hlt & _ & Hgt).
  all: subst parts; rewrite ?Hlt, ?Hgt.
  all: apply (filter_rejecting_shorter _ _ _ Hin), Z.ltb_irrefl.
Qed.

(** [def compare_counts(a)]: both counters start at 0. *)
Definition compare_counts (a : list Z) : Z * Z :=
  let ms_count := 0 in
  let qs_count := 0 in
  let ms_count := snd (mergesort_with_counts a ms_count) in
  let qs_count := snd (quicksort3_with_counts a qs_count) in
  (qs_count, ms_count).

(** [def falsify_sort(sort_fn, gen, trials)].  The generators draw from
    the module-level random source, whose state [G] is passed along. *)
Section Falsify.

Variable G : Type.
Variable sort_fn : list Z -> list Z.
Variable gen : G -> list Z * G.

Definition ints (a : list Z) : pyval := VList (List.map VInt a).

(** [for t in range(1, trials + 1)], from the trials [ts] that are left. *)
Fixpoint falsify_loop (ts : list Z) (g : G)
  : option (list (string * pyval)) * G :=
  match ts with
  | [] => (None, g)
  | t :: ts' =>
      let '(arr, g) := gen g in
      let out := sort_fn arr in
      if negb (is_sorted out && is_permutation arr out) then
        (Some [("ok", VBool false); ("trial", VInt t);
               ("counterexample", ints arr); ("output", ints out)], g)
      else falsify_loop ts' g
  end.

Definition falsify_sort (trials : Z) (g : G) : list (string * pyval) * G :=
  match falsify_loop (range 1 (trials + 1)) g with
  | (Some found, g) => (found, g)
  | (None, g) => ([("ok", VBool true); ("trial", VInt trials)], g)
  end.

End Falsify.

(** [def rule_of_three_upper_bound(no_failures, n)] of this file:
    [if no_failures == 0: return 3.0 / float(n)], else [float('nan')]. *)
Definition rule_of_three_upper_bound (no_failures n : Z) : result PyFloat.float :=
  if no_failures =? 0 then
    let* d := PyFloat.of_int n in
    PyFloat.truediv PyFloat.three d
  else Ok S754_nan.

(** The merge as a recursion on the two lists, with the number of
    comparisons: what the loop of [merge] computes from the unread parts
    [left[i:]] and [right[j:]]. *)
Fixpoint merge_lists (l : list Z) : list Z -> list Z * Z :=
  fix merge_right (r : list Z) : list Z * Z :=
    match l, r with
    | [], _ => (r, 0)
    | _, [] => (l, 0)
    | x :: l', y :: r' =>
        if x <=? y then (x :: fst (merge_lists l' r), snd (merge_lists l' r) + 1)
        else (y :: fst (merge_right r'), snd (merge_right r') + 1)
    end.

(** The arrays that the first [n] calls of [gen()] return from the state
    [g] of the random source. *)
Fixpoint draws {G : Type} (gen : G -> list Z * G) (n : nat) (g : G)
  : list (list Z) :=
  match n with
  | O => []
  | S n' => fst (gen g) :: draws gen n' (snd (gen g))
  end.

(** The check of [falsify_sort] on an array and its image. *)
Definition accepted (sort_fn : list Z -> list Z) (arr : list Z) : bool :=
  is_sorted (sort_fn arr) && is_permutation arr (sort_fn arr).

End Epi.

(** ** Vocabulary for the results of an evaluation *)

Section Vocabulary.

Context {Inp Out : Type}.

(** The sample holds the first five failing results. *)
Definition sampled (st : locals Inp Out) : Prop :=
  st_sample_failures _ _ st =
    firstn 5 (List.filter (failing _ _) (st_results _ _ st)).

(** No failure so far. *)
Definition clean (st : locals Inp Out) : Prop :=
  st_failures _ _ st = 0 /\ st_sample_failures _ _ st = [] /\
  Forall (fun tr => passed _ _ tr = true) (st_results _ _ st).

(** One failure, which is the last result. *)
Definition stopped (st : locals Inp Out) : Prop :=
  st_failures _ _ st = 1 /\
  exists pre tr,
    st_results _ _ st = pre ++ [tr] /\
    Forall (fun tr' => passed _ _ tr' = true) pre /\
    passed _ _ tr = false /\ st_sample_failures _ _ st = [tr].

(** The claim results as [make_certificate] reads them, up to the
    insertion order of the domain parameters. *)
Definition same_evidence (cr1 cr2 : ClaimResult Inp Out) : Prop :=
  let c1 := claim _ _ cr1 in
  let c2 := claim _ _ cr2 in
  claim_id c1 = claim_id c2 /\ proposition c1 = proposition c2 /\
  name (domain c1) = name (domain c2) /\
  same_content (VDict (params (domain c1))) (VDict (params (domain c2))) /\
  adversary c1 = adversary c2 /\ oracle c1 = oracle c2 /\
  power_alpha c1 = power_alpha c2 /\ trials c1 = trials c2 /\
  proofs c1 = proofs c2 /\
  failures _ _ cr1 = failures _ _ cr2 /\
  trials_run _ _ cr1 = trials_run _ _ cr2 /\
  upper95_failure_prob _ _ cr1 = upper95_failure_prob _ _ cr2 /\
  rng_commit _ _ cr1 = rng_commit _ _ cr2 /\
  duration_sec _ _ cr1 = duration_sec _ _ cr2.

End Vocabulary.

(** ** Samples *)

Module Samples.

(** A pool that completes the trials of a batch in reverse order. *)
Definition reversed_world : World :=
  {| cpu_count := None; as_completed := fun _ idxs => rev idxs;
     time_start := PyFloat.one; time_end := PyFloat.one |}.

(** The result of a clean evaluation of a claim over the given domain
    parameters. *)
Definition result_over (ps : list (string * pyval)) : ClaimResult (list Z) (list Z) :=
  {| claim :=
       {| claim_id := "SortsCorrect@quicksort3";
          proposition := "quicksort3 sorts correctly";
          domain := {| name := "int_array"; params := ps |};
          adversary := "dup_heavy_small"; oracle := "sort_correctness";
          power_alpha := PyFloat.one; trials := 20000;
          stop_on_first_failure := true; prior := [];
          proofs := [{| kind := "ProofSketch"; uri := "proofs/sort.md";
                        hash := None |}] |};
     failures := 0; trials_run := 20000; sample_failures := [];
     upper95_failure_prob := Some (S754_finite false 5534023222112865 (-65));
     rng_commit := "ab"; duration_sec := PyFloat.one |}.

(** A generator whose state counts its calls: from the third call on, the
    array repeats a value. *)
Definition counting_gen (g : Z) : list Z * Z :=
  (if g <? 2 then [g; 5] else [g; 5; g], g + 1).

End Samples.

(** * Properties *)

(** ** Facts on binary64 rounding *)

Section Rounding.

Local Abbreviation prec := PyFloat.prec.
Local Abbreviation emax := PyFloat.emax.
Local Abbreviation emin := (-1074).

Lemma digits2_size (p : positive) : digits2_pos p = Pos.size p.
Proof. induction p; simpl; congruence. Qed.

Lemma Zdigits2_log2 (m : Z) : 0 < m -> Zdigits2 m = Z.log2 m + 1.
Proof.
  destruct m as [|p|p]; try lia. intros _. simpl. rewrite digits2_size.
  destruct p; simpl; lia.
Qed.

Lemma fexp_eq (e : Z) : fexp prec emax e = Z.max (e - 53) emin.
Proof. reflexivity. Qed.

Lemma shr_1_div2 (mrs : shr_record) :
  0 <= shr_m mrs -> shr_m (shr_1 mrs) = Z.shiftr (shr_m mrs) 1.
Proof.
  destruct mrs as [m r s]. simpl. intros Hm.
  rewrite <- Z.div2_spec.
  destruct m as [|[p|p|]|p]; simpl; try reflexivity; lia.
Qed.

Lemma iter_shr_1 (p : positive) (mrs : shr_record) :
  0 <= shr_m mrs ->
  shr_m (SpecFloat.iter_pos shr_1 p mrs) = Z.shiftr (shr_m mrs) (Z.pos p).
Proof.
  revert mrs. induction p as [p IH|p IH|]; intros mrs Hm; simpl.
  - assert (H1 : 0 <= shr_m (shr_1 mrs))
      by (rewrite shr_1_div2 by lia; apply Z.shiftr_nonneg; lia).
    assert (H2 : 0 <= shr_m (SpecFloat.iter_pos shr_1 p (shr_1 mrs)))
      by (rewrite IH by lia; apply Z.shiftr_nonneg; lia).
    rewrite (IH _ H2), (IH _ H1), shr_1_div2, !Z.shiftr_shiftr by lia.
    f_equal. lia.
  - assert (H2 : 0 <= shr_m (SpecFloat.iter_pos shr_1 p mrs))
      by (rewrite IH by lia; apply Z.shiftr_nonneg; lia).
    rewrite (IH _ H2), (IH _ Hm), !Z.shiftr_shiftr by lia.
    f_equal. lia.
  - apply shr_1_div2, Hm.
Qed.

Lemma shr_shiftr (mrs : shr_record) (e n : Z) :
  0 <= shr_m mrs ->
  shr_m (fst (shr mrs e n)) = Z.shiftr (shr_m mrs) (Z.max 0 n) /\
  snd (shr mrs e n) = e + Z.max 0 n.
Proof.
  intros Hm. destruct n as [|p|p]; simpl.
  - split; [reflexivity | lia].
  - rewrite iter_shr_1 by assumption. split; [f_equal; lia | lia].
  - split; [reflexivity | lia].
Qed.

Lemma shr_record_of_loc_m (m : Z) (l : location) :
  shr_m (shr_record_of_loc m l) = m.
Proof. destruct l as [|[ | | ]]; reflexivity. Qed.

(** The shift that brings a mantissa to its format exponent keeps it
    positive, and never lowers the exponent. *)
Lemma shr_fexp_pos (m e : Z) (l : location) :
  0 < m -> emin <= e ->
  let k := Z.max 0 (fexp prec emax (Zdigits2 m + e) - e) in
  shr_m (fst (shr_fexp prec emax m e l)) = Z.shiftr m k /\
  snd (shr_fexp prec emax m e l) = e + k /\
  0 < Z.shiftr m k /\ k <= Z.max 0 (Z.log2 m - 52) /\
  Z.log2 (Z.shiftr m k) <= 52.
Proof.
  intros Hm He k. unfold shr_fexp.
  destruct (shr_shiftr (shr_record_of_loc m l) e
              (fexp prec emax (Zdigits2 m + e) - e)) as [H1 H2].
  { rewrite shr_record_of_loc_m. lia. }
  rewrite shr_record_of_loc_m in H1. fold k in H1, H2.
  assert (Hk : k <= Z.max 0 (Z.log2 m - 52)).
  { subst k. rewrite fexp_eq, Zdigits2_log2 by assumption. lia. }
  assert (Hl : 0 <= Z.log2 m) by apply Z.log2_nonneg.
  repeat split; try assumption.
  - rewrite Z.shiftr_div_pow2 by lia.
    apply Z.div_str_pos. split; [apply Z.pow_pos_nonneg; lia|].
    transitivity (2 ^ Z.log2 m).
    + apply Z.pow_le_mono_r; lia.
    + apply Z.log2_spec. lia.
  - rewrite Z.log2_shiftr by assumption.
    subst k. rewrite fexp_eq, Zdigits2_log2 by assumption. lia.
Qed.

Lemma round_nearest_even_bounds (m : Z) (l : location) :
  m <= round_nearest_even m l <= m + 1.
Proof.
  destruct l as [|[ | | ]]; simpl; try lia. destruct (Z.even m); lia.
Qed.

(** Rounding a positive mantissa whose exponent is in range gives a
    positive finite double or an infinity, never a zero; the exponent
    grows by the excess of digits, plus one at most. *)
Lemma binary_round_aux_shape (s : bool) (m e : Z) (l : location) :
  0 < m -> emin <= e ->
  exists (m' : positive) (e' : Z),
    binary_round_aux prec emax s m e l =
      (if e' <=? 971 then S754_finite s m' e' else S754_infinity s) /\
    e <= e' <= e + Z.max 0 (Z.log2 m - 52) + 1.
Proof.
  intros Hm He. unfold binary_round_aux.
  destruct (shr_fexp_pos m e l Hm He) as (H1 & H2 & H3 & H4 & H5).
  destruct (shr_fexp prec emax m e l) as [mrs1 e1]. simpl in H1, H2.
  set (m2 := round_nearest_even (shr_m mrs1) (loc_of_shr_record mrs1)).
  pose proof (round_nearest_even_bounds (shr_m mrs1) (loc_of_shr_record mrs1))
    as Hr. fold m2 in Hr. rewrite H1 in Hr.
  assert (Hm2 : 0 < m2) by lia.
  assert (Hl2 : Z.log2 m2 <= 53).
  { change 53 with (Z.log2 (2 ^ 53)). apply Z.log2_le_mono.
    assert (Z.shiftr m (Z.max 0 (fexp prec emax (Zdigits2 m + e) - e)) < 2 ^ 53);
      [|lia].
    apply Z.log2_lt_pow2; [assumption | lia]. }
  assert (He1 : emin <= e1) by lia.
  destruct (shr_fexp_pos m2 e1 loc_Exact Hm2 He1) as (G1 & G2 & G3 & G4 & G5).
  destruct (shr_fexp prec emax m2 e1 loc_Exact) as [mrs2 e2]. simpl in G1, G2.
  rewrite G1. 
  destruct (Z.shiftr m2 _) as [|m'|m'] eqn:Hm'; try lia.
  exists m', e2. split; [reflexivity | lia].
Qed.

Lemma iter_xO_pow (m d : positive) :
  Z.pos (Pos.iter xO m d) = Z.pos m * 2 ^ Z.pos d.
Proof.
  induction d as [|d IH] using Pos.peano_ind.
  - simpl. lia.
  - rewrite Pos.iter_succ, Pos2Z.inj_xO, IH, Pos2Z.inj_succ, Z.pow_succ_r by lia.
    lia.
Qed.

Lemma binary_round_shape (s : bool) (m : positive) (e : Z) :
  emin <= e ->
  exists (m' : positive) (e' : Z),
    binary_round prec emax s m e =
      (if e' <=? 971 then S754_finite s m' e' else S754_infinity s) /\
    emin <= e' <= e + Z.max 0 (Z.log2 (Z.pos m) - 52) + 1.
Proof.
  intros He. unfold binary_round, shl_align.
  change (Z.pos (digits2_pos m)) with (Zdigits2 (Z.pos m)).
  rewrite fexp_eq, Zdigits2_log2 by lia.
  pose proof (Z.log2_nonneg (Z.pos m)) as Hl.
  destruct (Z.max (Z.log2 (Z.pos m) + 1 + e - 53) emin - e) as [|d|d] eqn:Hd.
  - destruct (binary_round_aux_shape s (Z.pos m) e loc_Exact) as (m' & e' & H & B);
      try lia.
    exists m', e'. split; [assumption | lia].
  - destruct (binary_round_aux_shape s (Z.pos m) e loc_Exact) as (m' & e' & H & B);
      try lia.
    exists m', e'. split; [assumption | lia].
  - destruct (binary_round_aux_shape s (Z.pos (Pos.iter xO m d))
                (Z.max (Z.log2 (Z.pos m) + 1 + e - 53) emin) loc_Exact)
      as (m' & e' & H & B); try lia.
    exists m', e'. split; [assumption|].
    rewrite iter_xO_pow, Z.log2_mul_pow2 in B by lia. lia.
Qed.

(** [float(n)] of a positive [n] is a positive finite double. *)
Lemma of_int_positive (n : Z) (d : PyFloat.float) :
  0 < n -> PyFloat.of_int n = Ok d ->
  exists m e, d = S754_finite false m e.
Proof.
  intros Hn. destruct n as [|p|p]; try lia.
  unfold PyFloat.of_int, PyFloat.round, binary_normalize.
  destruct (binary_round_shape false p 0) as (m' & e' & -> & _); [lia|].
  destruct (e' <=? 971); simpl; [|discriminate].
  intros [= <-]. eauto.
Qed.

(** It exists whenever [n] has at most 1023 bits. *)
Lemma of_int_small (n : Z) :
  0 < n < 2 ^ 1023 ->
  exists m e, PyFloat.of_int n = Ok (S754_finite false m e).
Proof.
  intros Hn. destruct n as [|p|p]; try lia.
  unfold PyFloat.of_int, PyFloat.round, binary_normalize.
  destruct (binary_round_shape false p 0) as (m' & e' & -> & B); [lia|].
  assert (Z.log2 (Z.pos p) < 1023) by (apply Z.log2_lt_pow2; lia).
  destruct (Z.leb_spec e' 971); [|lia]. simpl. eauto.
Qed.

Lemma shr_1_r (mrs : shr_record) : shr_r (shr_1 mrs) = Z.odd (shr_m mrs).
Proof. destruct mrs as [[|[p|p|]|[p|p|]] r s]; reflexivity. Qed.

(** After [p] shifts the round bit is the bit of rank [p - 1]. *)
Lemma iter_shr_1_r (p : positive) (mrs : shr_record) :
  0 <= shr_m mrs ->
  shr_r (SpecFloat.iter_pos shr_1 p mrs) = Z.testbit (shr_m mrs) (Z.pos p - 1).
Proof.
  revert mrs. induction p as [p IH|p IH|]; intros mrs Hm; simpl SpecFloat.iter_pos.
  - assert (H1 : 0 <= shr_m (shr_1 mrs))
      by (rewrite shr_1_div2 by lia; apply Z.shiftr_nonneg; lia).
    assert (H2 : 0 <= shr_m (SpecFloat.iter_pos shr_1 p (shr_1 mrs)))
      by (rewrite iter_shr_1 by lia; apply Z.shiftr_nonneg; lia).
    rewrite (IH _ H2), iter_shr_1, shr_1_div2, Z.shiftr_shiftr, Z.shiftr_spec by lia.
    f_equal. lia.
  - assert (H2 : 0 <= shr_m (SpecFloat.iter_pos shr_1 p mrs))
      by (rewrite iter_shr_1 by lia; apply Z.shiftr_nonneg; lia).
    rewrite (IH _ H2), iter_shr_1, Z.shiftr_spec by lia.
    f_equal. lia.
  - rewrite shr_1_r. symmetry. apply Z.bit0_odd.
Qed.

(** The first shift of an integer of more than 53 bits. *)
Lemma shr_fexp_long (m : Z) :
  0 < m -> 53 <= Z.log2 m ->
  exists mrs,
    shr_fexp prec emax m 0 loc_Exact = (mrs, Z.log2 m - 52) /\
    shr_m mrs = Z.shiftr m (Z.log2 m - 52) /\
    shr_r mrs = Z.testbit m (Z.log2 m - 53).
Proof.
  intros Hm Hl. unfold shr_fexp.
  rewrite fexp_eq, Zdigits2_log2 by assumption.
  replace (Z.max (Z.log2 m + 1 + 0 - 53) emin - 0) with (Z.log2 m - 52) by lia.
  destruct (Z.log2 m - 52) as [|k|k] eqn:Hk; try lia.
  unfold shr. eexists. split; [reflexivity|]. split.
  - now rewrite iter_shr_1 by (simpl; lia).
  - rewrite iter_shr_1_r by (simpl; lia). simpl shr_m. f_equal. lia.
Qed.

(** No double is as large as [2^1024]. *)
Lemma round_huge (n : Z) :
  2 ^ 1024 <= n -> PyFloat.round n 0 = S754_infinity false.
Proof.
  intros Hn. destruct n as [|p|p]; try lia.
  assert (Hl : 1024 <= Z.log2 (Z.pos p)).
  { change 1024 with (Z.log2 (2 ^ 1024)). now apply Z.log2_le_mono. }
  unfold PyFloat.round, binary_normalize, binary_round, shl_align.
  change (Z.pos (digits2_pos p)) with (Zdigits2 (Z.pos p)).
  rewrite fexp_eq, Zdigits2_log2 by lia.
  destruct (Z.max (Z.log2 (Z.pos p) + 1 + 0 - 53) emin - 0) as [|d|d] eqn:Hd;
    try lia.
  unfold binary_round_aux.
  destruct (shr_fexp_long (Z.pos p)) as (mrs & -> & Hm1 & _); try lia.
  set (m2 := round_nearest_even (shr_m mrs) (loc_of_shr_record mrs)).
  pose proof (round_nearest_even_bounds (shr_m mrs) (loc_of_shr_record mrs)) as Hr.
  fold m2 in Hr.
  assert (H1 : 0 < shr_m mrs).
  { rewrite Hm1, Z.shiftr_div_pow2 by lia.
    apply Z.div_str_pos. split; [apply Z.pow_pos_nonneg; lia|].
    transitivity (2 ^ Z.log2 (Z.pos p)).
    - apply Z.pow_le_mono_r; lia.
    - apply Z.log2_spec. lia. }
  destruct (shr_fexp_pos m2 (Z.log2 (Z.pos p) - 52) loc_Exact)
    as (G1 & G2 & G3 & _); try lia.
  destruct (shr_fexp prec emax m2 (Z.log2 (Z.pos p) - 52) loc_Exact) as [mrs2 e2].
  cbn [fst snd] in G1, G2. rewrite G1.
  destruct (Z.shiftr m2 _) as [|m'|m']; try lia.
  destruct (Z.leb_spec e2 (emax - prec)) as [Hle|_]; [|reflexivity].
  unfold PyFloat.emax, PyFloat.prec in Hle. lia.
Qed.

(** Between [2^1023] and [2^1024], [float(n)] is finite exactly below
    [2^1024 - 2^970], the midpoint between the largest double and
    [2^1024]. *)
Lemma round_top (n : Z) :
  2 ^ 1023 <= n < 2 ^ 1024 ->
  PyFloat.is_finite (PyFloat.round n 0) = (n <? 2 ^ 1024 - 2 ^ 970).
Proof.
  intros Hn. destruct n as [|p|p]; try lia.
  assert (Hl : Z.log2 (Z.pos p) = 1023) by (apply Z.log2_unique; lia).
  unfold PyFloat.round, binary_normalize, binary_round, shl_align.
  change (Z.pos (digits2_pos p)) with (Zdigits2 (Z.pos p)).
  rewrite fexp_eq, Zdigits2_log2, Hl by lia.
  change (Z.max (1023 + 1 + 0 - 53) emin - 0) with 971. cbv beta iota.
  unfold binary_round_aux.
  destruct (shr_fexp_long (Z.pos p)) as (mrs & -> & Hm1 & Hr1); try lia.
  rewrite Hl in Hm1, Hr1 |- *.
  change (1023 - 52) with 971 in *. change (1023 - 53) with 970 in *.
  set (q := Z.pos p / 2 ^ 970).
  assert (Hq : 2 ^ 53 <= q < 2 ^ 54).
  { unfold q. split.
    - apply Z.div_le_lower_bound; lia.
    - apply Z.div_lt_upper_bound; lia. }
  assert (Hm : shr_m mrs = q / 2).
  { rewrite Hm1, Z.shiftr_div_pow2 by lia. unfold q.
    rewrite Z.div_div by lia. reflexivity. }
  assert (Hr : shr_r mrs = Z.odd q).
  { rewrite Hr1, Z.testbit_odd, Z.shiftr_div_pow2 by lia. reflexivity. }
  assert (Hlt : (Z.pos p <? 2 ^ 1024 - 2 ^ 970) = (q <? 2 ^ 54 - 1)).
  { pose proof (Z.div_mod (Z.pos p) (2 ^ 970) ltac:(lia)) as Hd.
    pose proof (Z.mod_pos_bound (Z.pos p) (2 ^ 970) ltac:(lia)) as Hmod.
    fold q in Hd.
    destruct (Z.ltb_spec q (2 ^ 54 - 1)) as [H|H].
    - apply Z.ltb_lt. lia.
    - apply Z.ltb_ge. lia. }
  rewrite Hlt. clear Hlt Hm1 Hr1 Hn Hl.
  assert (Hm2 : 2 ^ 52 <= round_nearest_even (shr_m mrs) (loc_of_shr_record mrs)
                  <= 2 ^ 53 /\
                (round_nearest_even (shr_m mrs) (loc_of_shr_record mrs) = 2 ^ 53
                 <-> 2 ^ 54 - 1 <= q)).
  { destruct mrs as [m1 r s]. cbn [shr_m shr_r] in Hm, Hr. subst m1 r.
    pose proof (Z.div_mod q 2 ltac:(lia)) as Hd. pose proof (Zmod_odd q) as Ho.
    destruct (Z.odd q); destruct s;
      cbn [loc_of_shr_record round_nearest_even shr_m]; try lia.
    destruct (Z.even (q / 2)) eqn:He; [|lia].
    split; [lia|]. split; [lia|].
    intros Hge. exfalso. assert (E : q / 2 = 2 ^ 53 - 1) by lia.
    rewrite E in He. vm_compute in He. discriminate. }
  set (m2 := round_nearest_even (shr_m mrs) (loc_of_shr_record mrs)) in *.
  destruct Hm2 as [Hrange Hiff].
  destruct (shr_fexp_pos m2 971 loc_Exact) as (G1 & G2 & G3 & _); try lia.
  destruct (shr_fexp prec emax m2 971 loc_Exact) as [mrs2 e2].
  cbn [fst snd] in G1, G2. rewrite G1.
  destruct (Z.shiftr m2 _) as [|m'|m'] eqn:Hs; try lia.
  rewrite fexp_eq, Zdigits2_log2 in G2 by lia.
  destruct (Z.ltb_spec q (2 ^ 54 - 1)) as [H|H].
  - assert (Z.log2 m2 = 52) by (apply Z.log2_unique; lia).
    destruct (Z.leb_spec e2 (emax - prec)) as [_|Hgt]; [reflexivity|].
    unfold PyFloat.emax, PyFloat.prec in Hgt. lia.
  - assert (E : m2 = 2 ^ 53) by (apply Hiff; lia).
    rewrite E in G2. change (Z.log2 (2 ^ 53)) with 53 in G2.
    destruct (Z.leb_spec e2 (emax - prec)) as [Hle|_]; [|reflexivity].
    unfold PyFloat.emax, PyFloat.prec in Hle. lia.
Qed.

(** [float(n)] raises exactly from [2^1024 - 2^970] on. *)
Lemma of_int_overflow (n : Z) :
  0 < n ->
  (n < 2 ^ 1024 - 2 ^ 970 ->
   exists m e, PyFloat.of_int n = Ok (S754_finite false m e)) /\
  (2 ^ 1024 - 2 ^ 970 <= n -> PyFloat.of_int n = Raise OverflowError).
Proof.
  intros Hn. split.
  - intros Hlt. destruct (Z.lt_ge_cases n (2 ^ 1023)) as [Hs|Hs].
    + apply of_int_small. lia.
    + pose proof (round_top n ltac:(lia)) as Hf.
      destruct (Z.ltb_spec n (2 ^ 1024 - 2 ^ 970)) as [_|]; [|lia].
      destruct (PyFloat.of_int n) as [d|e] eqn:Hd.
      * destruct (of_int_positive n d Hn Hd) as (m & e & ->). eauto.
      * unfold PyFloat.of_int in Hd. cbv zeta in Hd. rewrite Hf in Hd.
        discriminate.
  - intros Hge. unfold PyFloat.of_int. cbv zeta.
    destruct (Z.lt_ge_cases n (2 ^ 1024)) as [Hs|Hs].
    + rewrite round_top by lia.
      destruct (Z.ltb_spec n (2 ^ 1024 - 2 ^ 970)); [lia | reflexivity].
    + rewrite round_huge by assumption. reflexivity.
Qed.

End Rounding.

(** ** The rule-of-three calculator *)

(** Unfolding: the guard, then the conversion, then a quotient by a double
    that is never zero. *)
Lemma rule_of_three_unfold (failures n : Z) :
  rule_of_three_upper_bound failures n =
    if (failures =? 0) && (0 <? n) then
      match PyFloat.of_int n with
      | Ok d => Ok (Some (SFdiv PyFloat.prec PyFloat.emax PyFloat.three d))
      | Raise e => Raise e
      end
    else Ok None.
Proof.
  unfold rule_of_three_upper_bound.
  destruct (Z.eqb_spec failures 0) as [->|]; [|reflexivity].
  destruct (Z.ltb_spec 0 n); [|reflexivity]. simpl.
  destruct (PyFloat.of_int n) as [d|e] eqn:Hd; [|reflexivity]. simpl.
  destruct (of_int_positive n d) as (m & e & ->); [assumption..|reflexivity].
Qed.

(** C4, as amended: with no failure and a positive trial count below
    [2^1024 - 2^970], the calculator returns the double [3.0 / float(n)];
    from that count on [float(n)] overflows and the calculator raises
    [OverflowError]; with a positive failure count it returns no bound,
    whatever the trial count. *)
Theorem rule_of_three_bound (failures n : Z) :
  (failures = 0 -> 0 < n < 2 ^ 1024 - 2 ^ 970 ->
   exists d, PyFloat.of_int n = Ok d /\
     rule_of_three_upper_bound failures n =
       Ok (Some (SFdiv PyFloat.prec PyFloat.emax PyFloat.three d))) /\
  (failures = 0 -> 2 ^ 1024 - 2 ^ 970 <= n ->
   rule_of_three_upper_bound failures n = Raise OverflowError) /\
  (0 < failures -> rule_of_three_upper_bound failures n = Ok None).
Proof.
  rewrite rule_of_three_unfold. split; [|split].
  - intros -> Hn. destruct (of_int_overflow n) as [Hfin _]; [lia|].
    destruct Hfin as (m & e & H); [lia|].
    exists (S754_finite false m e). split; [assumption|].
    destruct (Z.ltb_spec 0 n); [|lia]. simpl. rewrite H. reflexivity.
  - intros -> Hn. destruct (of_int_overflow n) as [_ Hinf]; [lia|].
    destruct (Z.ltb_spec 0 n); [|lia]. simpl. rewrite Hinf by lia. reflexivity.
  - intros Hf. destruct (Z.eqb_spec failures 0); [lia | reflexivity].
Qed.

(** The bound after 20000 clean trials is the double written 0.00015, and
    one failure leaves no bound. *)
Lemma rule_of_three_bound_witness :
  rule_of_three_upper_bound 0 20000 =
    Ok (Some (S754_finite false 5534023222112865 (-65))) /\
  rule_of_three_upper_bound 1 20000 = Ok None.
Proof.
  destruct (rule_of_three_bound 0 20000) as [H _].
  destruct (H eq_refl ltac:(lia)) as (d & Hd & ->).
  vm_compute in Hd. injection Hd as <-.
  split; [reflexivity|].
  apply (rule_of_three_bound 1 20000). lia.
Defined.

(** C4 as stated fails: no bound comes back for the positive trial count
    [2^1024] and no failure, because [float(n)] overflows. *)
Lemma rule_of_three_no_bound_at_huge_count :
  0 < 2 ^ 1024 /\
  ~ exists q, rule_of_three_upper_bound 0 (2 ^ 1024) = Ok (Some q).
Proof.
  split; [lia|]. intros [q H]. vm_compute in H. discriminate.
Qed.

(** C10, as amended: the calculator never divides by zero; it returns no
    bound unless there is no failure and the trial count is positive, so
    also for a zero count; with no failure and a positive count it returns
    a bound when the count is below [2^1024 - 2^970], and raises
    [OverflowError] from that count on. *)
Theorem rule_of_three_never_divides_by_zero (failures n : Z) :
  rule_of_three_upper_bound failures n <> Raise ZeroDivisionError /\
  (~ (failures = 0 /\ 0 < n) -> rule_of_three_upper_bound failures n = Ok None) /\
  (failures = 0 -> 0 < n < 2 ^ 1024 - 2 ^ 970 ->
   exists q, rule_of_three_upper_bound failures n = Ok (Some q)) /\
  (failures = 0 -> 2 ^ 1024 - 2 ^ 970 <= n ->
   rule_of_three_upper_bound failures n = Raise OverflowError).
Proof.
  rewrite rule_of_three_unfold.
  destruct (Z.eqb_spec failures 0) as [->|Hf]; simpl.
  - destruct (Z.ltb_spec 0 n) as [Hn|Hn].
    + destruct (of_int_overflow n Hn) as [Hfin Hinf].
      split; [|split; [|split]].
      * unfold PyFloat.of_int. destruct (PyFloat.is_finite _); discriminate.
      * intros H. exfalso. apply H. split; [reflexivity | assumption].
      * intros _ Hs. destruct Hfin as (m & e & H); [lia|]. rewrite H. eauto.
      * intros _ Hs. rewrite Hinf by assumption. reflexivity.
    + split; [discriminate|]. split; [reflexivity|]. split; intros; lia.
  - split; [discriminate|]. split; [reflexivity|]. split; intros; lia.
Qed.

(** With no completed trial there is no bound and no exception. *)
Lemma rule_of_three_never_divides_by_zero_witness :
  rule_of_three_upper_bound 0 0 = Ok None /\
  exists q, rule_of_three_upper_bound 0 1 = Ok (Some q).
Proof.
  split.
  - apply (rule_of_three_never_divides_by_zero 0 0). lia.
  - apply (rule_of_three_never_divides_by_zero 0 1); [reflexivity | lia].
Defined.

(** C10 as stated fails: the calculator is not total, it raises for the
    count [2^1024 - 2^970] and no failure. *)
Lemma rule_of_three_raises_overflow :
  rule_of_three_upper_bound 0 (2 ^ 1024 - 2 ^ 970) = Raise OverflowError.
Proof. vm_compute. reflexivity. Qed.

(** ** Seed derivation *)

Lemma be_bytes_range (k : nat) (x : Z) :
  Forall (fun b => 0 <= b < 256) (Sha256.be_bytes k x).
Proof.
  induction k as [|k IH]; simpl; constructor; [|assumption].
  apply Z.mod_pos_bound. lia.
Qed.

Lemma be_bytes_length (k : nat) (x : Z) : length (Sha256.be_bytes k x) = k.
Proof. induction k as [|k IH]; simpl; congruence. Qed.

Lemma digest_range (msg : list Z) :
  Forall (fun b => 0 <= b < 256) (Sha256.digest_of msg).
Proof.
  unfold Sha256.digest_of, Sha256.state_bytes.
  repeat (apply Forall_app; split); apply be_bytes_range.
Qed.

Lemma digest_length (msg : list Z) : length (Sha256.digest_of msg) = 32%nat.
Proof.
  unfold Sha256.digest_of, Sha256.state_bytes.
  rewrite !length_app, !be_bytes_length. reflexivity.
Qed.

Lemma from_be_range (bs : list Z) (acc : Z) :
  Forall (fun b => 0 <= b < 256) bs -> 0 <= acc ->
  0 <= Sha256.from_be bs acc < (acc + 1) * 256 ^ Z.of_nat (length bs).
Proof.
  intros Hbs. revert acc.
  induction Hbs as [|b bs Hb _ IH]; intros acc Hacc; simpl Sha256.from_be.
  - simpl. lia.
  - specialize (IH (acc * 256 + b) ltac:(lia)).
    rewrite length_cons, Nat2Z.inj_succ, Z.pow_succ_r by lia.
    split; [lia|]. eapply Z.lt_le_trans; [apply IH|].
    assert (0 < 256 ^ Z.of_nat (length bs)) by (apply Z.pow_pos_nonneg; lia).
    nia.
Qed.

(** C3: [derive_seed] is a function of its three arguments alone: equal
    arguments give equal seeds, and a seed is an integer of 64 bits. *)
Theorem derive_seed_deterministic
    (master_seed master_seed' namespace namespace' : string) (idx idx' : Z) :
  master_seed = master_seed' -> namespace = namespace' -> idx = idx' ->
  derive_seed master_seed namespace idx = derive_seed master_seed' namespace' idx' /\
  0 <= derive_seed master_seed namespace idx < 2 ^ 64.
Proof.
  intros -> -> ->. split; [reflexivity|].
  unfold derive_seed, Sha256.digest.
  set (d := Sha256.digest_of _).
  pose proof (from_be_range (firstn 8 d) 0) as H.
  rewrite length_firstn in H. subst d. rewrite digest_length in H.
  apply H; [|lia]. apply Forall_take, digest_range.
Qed.

Lemma derive_seed_deterministic_witness :
  derive_seed "seed" "SortsCorrect@quicksort3" 7 =
    derive_seed "seed" "SortsCorrect@quicksort3" 7 /\
  0 <= derive_seed "seed" "SortsCorrect@quicksort3" 7 < 2 ^ 64.
Proof.
  apply (derive_seed_deterministic "seed" "seed" "SortsCorrect@quicksort3"
           "SortsCorrect@quicksort3" 7 7); reflexivity.
Defined.

(** The digest of [b"s|c|0"], as [hashlib] gives it. *)
Example derive_seed_value : derive_seed "s" "c" 0 = 1880366784882234592.
Proof. vm_compute. reflexivity. Qed.

(** ** Certificate hashing *)

(** Induction on values that reaches the elements of lists and dicts. *)
Lemma pyval_nested_ind (P : pyval -> Prop) :
  P VNone -> (forall b, P (VBool b)) -> (forall n, P (VInt n)) ->
  (forall x, P (VFloat x)) -> (forall s, P (VStr s)) ->
  (forall l, Forall P l -> P (VList l)) ->
  (forall d, Forall (fun kv => P (snd kv)) d -> P (VDict d)) ->
  forall v, P v.
Proof.
  intros HN HB HI HF HS HL HD.
  fix IH 1. intros [ |b|n|x|s|l|d].
  - exact HN.
  - apply HB.
  - apply HI.
  - apply HF.
  - apply HS.
  - apply HL. induction l as [|v l IHl]; constructor; [apply IH | exact IHl].
  - apply HD. induction d as [|[k v] d IHd]; constructor; [apply IH | exact IHd].
Qed.

Section KeyOrder.

Context {A : Type}.

Lemma leb_iff (s1 s2 : string) :
  String.leb s1 s2 = true <-> String_as_OT.lt s1 s2 \/ s1 = s2.
Proof.
  unfold String.leb. rewrite <- String_as_OT.cmp_lt, <- String_as_OT.cmp_eq.
  unfold String_as_OT.cmp. destruct (String.compare s1 s2); intuition congruence.
Qed.

#[local] Instance key_le_trans : Transitive (@Json.key_le A).
Proof.
  intros x y z. unfold Json.key_le. rewrite !leb_iff.
  intros [H1|H1] [H2|H2]; try (rewrite <- H2 || rewrite H1; auto; fail).
  left. eapply String_as_OT.lt_trans; eassumption.
Qed.

#[local] Instance key_le_total : Total (@Json.key_le A).
Proof. intros x y. apply String.leb_total. Qed.

Lemma distinct_keys_one_value (d : list (string * A)) (k : string) (v1 v2 : A) :
  NoDup (List.map fst d) -> In (k, v1) d -> In (k, v2) d -> v1 = v2.
Proof.
  induction d as [|[k' v'] d IH]; simpl; [tauto|].
  intros Hnd [H1|H1] [H2|H2]; inversion Hnd as [|? ? Hk Hd]; subst.
  - congruence.
  - inversion H1; subst. exfalso. apply Hk.
    apply list_elem_of_In, (in_map fst _ (k, v2)), H2.
  - inversion H2; subst. exfalso. apply Hk.
    apply list_elem_of_In, (in_map fst _ (k, v1)), H1.
  - auto.
Qed.

(** [sorted] cannot tell apart two insertion orders of a dict. *)
Lemma sorted_items_permutation (d1 d2 : list (string * A)) :
  NoDup (List.map fst d1) -> Permutation d1 d2 ->
  Json.sorted_items d1 = Json.sorted_items d2.
Proof.
  intros Hnd Hp. unfold Json.sorted_items.
  apply (Sorted_unique_strong Json.key_le).
  - intros [k1 v1] [k2 v2] H1 H2 L1 L2.
    rewrite merge_sort_Permutation in H1, H2. rewrite <- Hp in H2.
    assert (k1 = k2) as <- by (apply String.leb_antisym; assumption).
    f_equal.
    apply (distinct_keys_one_value d1 k1 v1 v2 Hnd); apply list_elem_of_In; assumption.
  - apply Sorted_merge_sort; apply _.
  - apply Sorted_merge_sort; apply _.
  - rewrite !merge_sort_Permutation. exact Hp.
Qed.
End KeyOrder.

Lemma keys_distinct_list (l : list pyval) :
  keys_distinct (VList l) <-> Forall keys_distinct l.
Proof.
  induction l as [|v l IH].
  - split; [constructor | exact (fun _ => I)].
  - change (keys_distinct (VList (v :: l)))
      with (keys_distinct v /\ keys_distinct (VList l)).
    rewrite IH, Forall_cons. reflexivity.
Qed.

Lemma keys_distinct_dict (d : list (string * pyval)) :
  keys_distinct (VDict d) <->
  NoDup (List.map fst d) /\ Forall (fun kv => keys_distinct (snd kv)) d.
Proof.
  simpl. apply and_iff_compat_l.
  induction d as [|kv d IH].
  - split; [constructor | exact (fun _ => I)].
  - rewrite Forall_cons, <- IH. reflexivity.
Qed.

Section DumpsFacts.

Variable float_repr : PyFloat.float -> string.

Local Abbreviation render :=
  (fun kv : string * pyval => (fst kv, Json.dumps float_repr (snd kv))).

(** The text of a value depends on its logical content only. *)
Lemma dumps_same_content (v1 : pyval) :
  forall v2, keys_distinct v1 -> same_content v1 v2 ->
  Json.dumps float_repr v1 = Json.dumps float_repr v2.
Proof.
  induction v1 as [ |b|n|x|s|l IH|d1 IH] using pyval_nested_ind;
    intros v2 Hk Hs; inversion Hs; subst; try reflexivity.
  - (* lists *)
    apply keys_distinct_list in Hk. simpl. do 3 f_equal. clear Hs.
    match goal with H : Forall2 same_content _ _ |- _ => induction H end;
      [reflexivity|]. simpl.
    inversion IH; inversion Hk; subst. f_equal; auto.
  - (* dicts *)
    apply keys_distinct_dict in Hk. destruct Hk as [Hnd Hk]. simpl.
    match goal with
      Hp : Permutation d1 ?d, Hf : Forall2 _ ?d _ |- _ =>
        rename Hp into Hperm; rename Hf into Hall; rename d into d'
    end.
    do 4 f_equal.
    transitivity (Json.sorted_items (List.map render d')).
    + apply sorted_items_permutation.
      * rewrite List.map_map. simpl. exact Hnd.
      * apply Permutation_map, Hperm.
    + f_equal.
      assert (IH' : Forall (fun kv => forall v2, keys_distinct (snd kv) ->
                       same_content (snd kv) v2 ->
                       Json.dumps float_repr (snd kv) = Json.dumps float_repr v2) d')
        by (rewrite <- Hperm; exact IH).
      assert (Hk' : Forall (fun kv => keys_distinct (snd kv)) d')
        by (rewrite <- Hperm; exact Hk).
      clear IH Hk Hnd Hperm Hs.
      induction Hall as [|[k1 w1] [k2 w2] d' d2 [Hkey Hval] _ IHall];
        [reflexivity|]. simpl in *. subst.
      inversion IH'; inversion Hk'; subst. f_equal; [f_equal|]; auto.
Qed.

End DumpsFacts.

Lemma hex_digit_ok (d : Z) :
  0 <= d < 16 -> is_hex_digit (Sha256.hex_digit d) = true.
Proof.
  intros Hd.
  assert (Hall : forallb (fun d => is_hex_digit (Sha256.hex_digit d)) (range 0 16) = true)
    by (vm_compute; reflexivity).
  rewrite forallb_forall in Hall. apply Hall.
  apply list_elem_of_In, elem_of_seqZ. lia.
Qed.

Lemma hex_shape (bs : list Z) :
  Forall (fun b => 0 <= b < 256) bs ->
  String.length (Sha256.hex bs) = (2 * length bs)%nat /\
  forallb is_hex_digit (list_ascii_of_string (Sha256.hex bs)) = true.
Proof.
  induction 1 as [|b bs Hb _ [IH1 IH2]]; [split; reflexivity|].
  simpl Sha256.hex. simpl String.length. simpl list_ascii_of_string.
  simpl forallb. rewrite IH1, IH2, !hex_digit_ok.
  - split; [simpl; lia | reflexivity].
  - apply Z.mod_pos_bound. lia.
  - split; [apply Z.div_pos; lia | apply Z.div_lt_upper_bound; lia].
Qed.

Lemma hexdigest_0x (m : Sha256.hasher) :
  is_0x_digest ("0x" ++ Sha256.hexdigest m) = true.
Proof.
  unfold Sha256.hexdigest, Sha256.digest.
  destruct (hex_shape (Sha256.digest_of m) (digest_range m)) as [H1 H2].
  rewrite digest_length in H1. revert H1 H2.
  generalize (Sha256.hex (Sha256.digest_of m)). intros h H1 H2.
  change (is_0x_digest ("0x" ++ h))
    with (Ascii.eqb "0" "0" && Ascii.eqb "x" "x" && (String.length h =? 64)%nat
          && forallb is_hex_digit (list_ascii_of_string h)).
  rewrite H1, H2. reflexivity.
Qed.

Lemma asdict_same_content (c1 c2 : BeliefCertificate) :
  same_certificate c1 c2 -> same_content (asdict c1) (asdict c2).
Proof.
  intros (H1 & H2 & H3 & H4 & H5 & H6). unfold asdict.
  rewrite H1, H2, H3, H4. eapply same_dict; [reflexivity|].
  repeat constructor; simpl; apply Forall2_fmap; assumption.
Qed.

Lemma asdict_keys_distinct (c : BeliefCertificate) :
  certificate_keys_distinct c -> keys_distinct (asdict c).
Proof.
  intros [H1 H2]. apply keys_distinct_dict. split.
  - simpl. apply (bool_decide_unpack _). vm_compute. exact I.
  - repeat constructor; simpl; apply keys_distinct_list, Forall_fmap; assumption.
Qed.

(** C6: the certificate hash is a function of the logical content.  Two
    certificates with the same content, whatever the insertion order of
    their dicts, have the same hash, and so have two JSON objects; hashing
    twice gives the same text; the hash is the marker [0x] followed by 64
    lowercase hexadecimal digits. *)
Theorem certificate_hash_content
    (float_repr : PyFloat.float -> string)
    (c1 c2 : BeliefCertificate) (o1 o2 : pyval) :
  certificate_keys_distinct c1 -> same_certificate c1 c2 ->
  keys_distinct o1 -> same_content o1 o2 ->
  certificate_hash float_repr c1 = certificate_hash float_repr c2 /\
  certificate_hash float_repr c1 = certificate_hash float_repr c1 /\
  is_0x_digest (certificate_hash float_repr c1) = true /\
  certificate_hash_json float_repr o1 = certificate_hash_json float_repr o2 /\
  is_0x_digest (certificate_hash_json float_repr o1) = true.
Proof.
  intros Hk Hs Hko Hso. unfold certificate_hash, certificate_hash_json.
  rewrite (dumps_same_content float_repr (asdict c1) (asdict c2)),
    (dumps_same_content float_repr o1 o2);
    auto using asdict_same_content, asdict_keys_distinct, hexdigest_0x.
Qed.

(** A claim summary and a JSON object, each written in two insertion
    orders, hash alike. *)
Lemma certificate_hash_content_witness :
  let fr := fun _ : PyFloat.float => "1.0"%string in
  let c1 := demo_certificate [[("id", VStr "c"); ("failures", VInt 0)]] in
  let c2 := demo_certificate [[("failures", VInt 0); ("id", VStr "c")]] in
  let o1 := VDict [("b", VInt 1); ("a", VList [VInt 1])] in
  let o2 := VDict [("a", VList [VInt 1]); ("b", VInt 1)] in
  certificate_hash fr c1 = certificate_hash fr c2 /\
  certificate_hash fr c1 = certificate_hash fr c1 /\
  is_0x_digest (certificate_hash fr c1) = true /\
  certificate_hash_json fr o1 = certificate_hash_json fr o2 /\
  is_0x_digest (certificate_hash_json fr o1) = true.
Proof.
  intros fr c1 c2 o1 o2.
  assert (Hswap : forall (k1 k2 : string) (v1 v2 : pyval),
             same_content v1 v1 -> same_content v2 v2 ->
             same_content (VDict [(k1, v1); (k2, v2)]) (VDict [(k2, v2); (k1, v1)])).
  { intros k1 k2 v1 v2 H1 H2. eapply same_dict; [apply perm_swap|].
    constructor; [split; [reflexivity | exact H2]|].
    constructor; [split; [reflexivity | exact H1]|]. constructor. }
  assert (Hnd : forall k1 k2 : string, k1 <> k2 -> NoDup [k1; k2]).
  { intros k1 k2 Hne. constructor; [|constructor; [|constructor]].
    - intros Hin. apply list_elem_of_singleton in Hin. contradiction.
    - apply not_elem_of_nil. }
  apply (certificate_hash_content fr c1 c2 o1 o2).
  - split; [|constructor]. constructor; [|constructor].
    simpl. split; [apply Hnd; discriminate | tauto].
  - unfold same_certificate. simpl.
    split; [reflexivity|]. split; [reflexivity|]. split; [reflexivity|].
    split; [reflexivity|]. split; [|constructor].
    constructor; [|constructor]. apply Hswap; constructor.
  - simpl. split; [apply Hnd; discriminate | tauto].
  - apply Hswap; [constructor | constructor; constructor; [constructor|constructor]].
Defined.

(** The hash of [{"b": 1, "a": [1]}], as [hashlib] and [json] give it. *)
Example certificate_hash_json_value :
  certificate_hash_json (fun _ => "1.0"%string)
    (VDict [("b", VInt 1); ("a", VList [VInt 1])]) =
  "0x964ac5a0bb65d615144e0fca569cac7f8f8c7c6647f35a79c8f399878e5b9af6"%string.
Proof. vm_compute. reflexivity. Qed.

(** ** The trial loops *)

Lemma range_In (lo hi j : Z) : j ∈ range lo hi <-> lo <= j < hi.
Proof. unfold range. rewrite elem_of_seqZ. lia. Qed.

Lemma range_app (a b c : Z) : a <= b <= c -> range a b ++ range b c = range a c.
Proof.
  intros H. unfold range.
  replace (c - a) with ((b - a) + (c - b)) by lia.
  rewrite seqZ_app by lia. do 2 f_equal. lia.
Qed.

Lemma range_empty (lo hi : Z) : hi <= lo -> range lo hi = [].
Proof. intros H. apply seqZ_nil. lia. Qed.

Lemma submseteq_NoDup {A : Type} (l k : list A) : l ⊆+ k -> NoDup k -> NoDup l.
Proof.
  intros Hs Hk. apply submseteq_Permutation in Hs as [k' Hk'].
  rewrite Hk' in Hk. apply NoDup_app in Hk. tauto.
Qed.

Lemma omap_submseteq {A B : Type} (f : A -> option B) (l k : list A) :
  l ⊆+ k -> omap f l ⊆+ omap f k.
Proof.
  intros Hs. apply submseteq_Permutation in Hs as [k' Hk'].
  rewrite Hk', omap_app. apply submseteq_inserts_r. reflexivity.
Qed.

Section LoopFacts.

Context {Rng Inp Out : Type}.
Variable Random : Z -> Rng.
Variables (gen : generator Rng Inp) (orc : oracle_fn Inp Out)
          (impl : implementation Rng Inp Out).
Variables (c : Claim) (master_seed : string).

Local Abbreviation trial := (run_one Rng Inp Out Random gen orc impl c master_seed).
Local Abbreviation outcome := (TrialResult Inp Out).
Local Abbreviation fails := (failing Inp Out).
Local Abbreviation index := (idx Inp Out).
Local Abbreviation stop := (stop_on_first_failure c).

Lemma run_one_idx (i : Z) (tr : outcome) : trial i = Ok tr -> index tr = i.
Proof.
  unfold run_one. destruct (gen _ _) as [g|]; [|discriminate]. simpl.
  destruct (impl _ _) as [o|]; [|discriminate]. simpl.
  destruct (orc _ _) as [v|]; [|discriminate]. simpl.
  intros [= <-]. reflexivity.
Qed.

(** What the inner loop did when it ends without an exception: it took
    the outcomes of a prefix of the completion order; up to a [break]
    every one of them passed but the last. *)
Lemma consume_ok (order : list Z) :
  forall (st st' : locals Inp Out) (broke : bool),
  consume Inp Out stop (List.map trial order) st = Ok (st', broke) ->
  exists (trs : list outcome) (rest : list Z),
    order = List.map index trs ++ rest /\
    Forall (fun tr => trial (index tr) = Ok tr) trs /\
    st_results _ _ st' = st_results _ _ st ++ trs /\
    st_failures _ _ st' =
      st_failures _ _ st + Z.of_nat (length (List.filter fails trs)) /\
    (broke = false ->
     rest = [] /\ (stop = true -> List.filter fails trs = [])) /\
    (broke = true ->
     stop = true /\ length (List.filter fails trs) = 1%nat).
Proof.
  induction order as [|j order IH]; intros st st' broke; simpl.
  - intros [= <- <-]. exists [], []. simpl.
    rewrite app_nil_r, Z.add_0_r. repeat split; auto; discriminate.
  - destruct (trial j) as [tr|e] eqn:Hj; [|discriminate]. simpl.
    pose proof (run_one_idx j tr Hj) as Hidx.
    assert (Hfl : fails tr = negb (passed _ _ tr)) by reflexivity.
    destruct (passed _ _ tr) eqn:Hp; simpl in *.
    + intros H. apply IH in H as (trs & rest & -> & Hall & Hres & Hf & Hn & Hb).
      simpl in Hres, Hf.
      exists (tr :: trs), rest. simpl. rewrite !Hfl, Hidx, Hres, <- app_assoc.
      split; [reflexivity|]. split; [constructor; congruence|].
      split; [reflexivity|]. split; [assumption|]. split; assumption.
    + destruct stop eqn:Hstop.
      * intros [= <- <-]. exists [tr], order. simpl. rewrite !Hfl, Hidx. simpl.
        split; [reflexivity|]. split; [constructor; [congruence | constructor]|].
        split; [reflexivity|]. split; [reflexivity|].
        split; [discriminate | intros _; split; reflexivity].
      * intros H. apply IH in H as (trs & rest & -> & Hall & Hres & Hf & Hn & Hb).
        simpl in Hres, Hf.
        exists (tr :: trs), rest. simpl. rewrite !Hfl, Hidx, Hres, <- app_assoc.
        simpl length.
        split; [reflexivity|]. split; [constructor; congruence|].
        split; [reflexivity|]. split; [lia|].
        split; [intros Hbr; split; [apply Hn, Hbr | discriminate]|].
        intros Hbr. destruct (Hb Hbr). discriminate.
Qed.

(** An exception leaves the inner loop only if a trial of the batch
    raised it. *)
Lemma consume_raise (order : list Z) :
  forall (st : locals Inp Out) (e : exn),
  consume Inp Out stop (List.map trial order) st = Raise e ->
  exists j, j ∈ order /\ trial j = Raise e.
Proof.
  induction order as [|j order IH]; intros st e; simpl; [discriminate|].
  destruct (trial j) as [tr|e'] eqn:Hj; simpl.
  - destruct (negb _); [destruct stop; [discriminate|]|];
      intros H; apply IH in H as (j' & Hin & Hr);
      exists j'; split; auto; right; assumption.
  - intros [= <-]. exists j. split; [left | assumption].
Qed.

Variables (w : World) (workers : Z).

Local Abbreviation loop :=
  (batches Rng Inp Out Random gen orc impl c master_seed w workers).

Lemma batches_step (i : Z) (ran : list Z) (st : locals Inp Out) :
  loop i ran st =
    if Z_lt_dec i (trials c) then
      let idxs := range i (Z.min (i + batch) (trials c)) in
      match consume Inp Out stop (List.map trial (as_completed w workers idxs)) st with
      | Raise e => (ran ++ idxs, Raise e)
      | Ok (st', broke) =>
          if negb (st_failures _ _ st' =? 0) && stop
          then (ran ++ idxs, Ok st')
          else loop ((if broke : bool then trials c else i) + batch) (ran ++ idxs) st'
      end
    else (ran, Ok st).
Proof.
  simp batches. destruct (Z_lt_dec i (trials c)); simp batches; reflexivity.
Qed.

(** What the loops did from trial [i] on: the pool ran the trials [i] to
    [k]; without an exception, the new results [trs] are outcomes of
    distinct trials among them, each counted once. *)
Definition loop_post (i : Z) (ran : list Z) (st : locals Inp Out)
    (out : list Z * result (locals Inp Out)) : Prop :=
  exists k, i <= k <= Z.max i (trials c) /\ fst out = ran ++ range i k /\
    match snd out with
    | Ok st' =>
        exists trs : list outcome,
          st_results _ _ st' = st_results _ _ st ++ trs /\
          Forall (fun tr => trial (index tr) = Ok tr) trs /\
          st_failures _ _ st' =
            st_failures _ _ st + Z.of_nat (length (List.filter fails trs)) /\
          List.map index trs ⊆+ range i k /\
          (stop = false \/ List.filter fails trs = [] ->
           List.map index trs ≡ₚ range i k /\ k = Z.max i (trials c)) /\
          (stop = true -> (length (List.filter fails trs) <= 1)%nat)
    | Raise e => exists j, i <= j < trials c /\ trial j = Raise e
    end.

Lemma loop_post_done (i : Z) (ran : list Z) (st : locals Inp Out) :
  trials c <= i -> loop_post i ran st (ran, Ok st).
Proof.
  intros Hi.
  exists i. rewrite range_empty, app_nil_r by lia. split; [lia|].
  split; [reflexivity|]. exists []. simpl.
  rewrite app_nil_r, Z.add_0_r.
  split; [reflexivity|]. split; [constructor|]. split; [reflexivity|].
  split; [reflexivity|]. split; [intros _; split; [reflexivity | lia] | lia].
Qed.

Hypothesis Hfair : fair w.

Lemma batches_spec (n : nat) :
  forall (i : Z) (ran : list Z) (st : locals Inp Out),
  (Z.to_nat (trials c - i) <= n)%nat ->
  (stop = true -> st_failures _ _ st = 0) ->
  loop_post i ran st (loop i ran st).
Proof.
  induction n as [|n IH]; intros i ran st Hn Hpre; rewrite batches_step.
  { destruct (Z_lt_dec i (trials c)); [lia | apply loop_post_done; lia]. }
  destruct (Z_lt_dec i (trials c)) as [Hlt|]; [|apply loop_post_done; lia].
  cbv zeta.
  set (idxs := range i (Z.min (i + batch) (trials c))).
  pose proof (Hfair workers idxs) as Hperm.
  unfold batch in *.
  destruct (consume _ _ _ _ st) as [[st' broke]|e] eqn:Hc.
  - apply consume_ok in Hc as (trs & rest & Horder & Hall & Hres & Hf & Hnb & Hb).
    assert (Hsub : List.map index trs ⊆+ idxs).
    { rewrite <- Hperm, Horder. apply submseteq_inserts_r. reflexivity. }
    destruct (negb (st_failures _ _ st' =? 0) && stop) eqn:Hcond.
    + (* the loop is left after this batch *)
      apply andb_true_iff in Hcond as [Hne Hstop].
      apply negb_true_iff, Z.eqb_neq in Hne.
      exists (Z.min (i + 128) (trials c)). split; [lia|].
      split; [reflexivity|]. exists trs.
      split; [assumption|]. split; [assumption|]. split; [assumption|].
      split; [assumption|]. split.
      * intros [Hs|Hnil]; [congruence|].
        rewrite Hnil, Hpre in Hf by assumption. simpl in Hf. lia.
      * intros _. destruct broke.
        -- destruct (Hb eq_refl) as [_ ->]. lia.
        -- destruct (Hnb eq_refl) as [_ Hnil]. rewrite Hnil by assumption.
           simpl. lia.
    + (* the next batch *)
      destruct broke.
      { destruct (Hb eq_refl) as [Hstop Hone].
        rewrite Hone, (Hpre Hstop) in Hf.
        rewrite Hf, Hstop in Hcond. discriminate. }
      destruct (Hnb eq_refl) as [-> Hpass]. rewrite app_nil_r in Horder.
      assert (Hpre' : stop = true -> st_failures _ _ st' = 0).
      { intros Hs. rewrite Hf, (Hpass Hs), (Hpre Hs). reflexivity. }
      destruct (IH (i + 128) (ran ++ idxs) st' ltac:(lia) Hpre')
        as (k2 & Hk2 & Hfst & Hsnd).
      assert (Hr : exists k, i <= k <= Z.max i (trials c) /\
                     idxs ++ range (i + 128) k2 = range i k /\
                     (k2 = Z.max (i + 128) (trials c) -> k = Z.max i (trials c))).
      { destruct (Z_le_gt_dec (i + 128) (trials c)).
        - exists k2. split; [lia|]. split; [|lia]. subst idxs.
          rewrite Z.min_l by lia. apply range_app. lia.
        - exists (trials c). split; [lia|]. split; [|lia]. subst idxs.
          rewrite Z.min_r, (range_empty (i + 128) k2), app_nil_r by lia.
          reflexivity. }
      destruct Hr as (k & Hk & Hrange & Hkmax).
      exists k. split; [assumption|].
      split; [rewrite Hfst, <- app_assoc, Hrange; reflexivity|].
      destruct (snd (loop (i + 128) (ran ++ idxs) st')) as [st''|e].
      * destruct Hsnd as (trs2 & Hres2 & Hall2 & Hf2 & Hsub2 & Hfull2 & Hone2).
        exists (trs ++ trs2).
        rewrite List.filter_app, length_app, List.map_app, <- Hrange.
        split; [rewrite Hres2, Hres, app_assoc; reflexivity|].
        split; [apply Forall_app; split; assumption|].
        split; [rewrite Hf2, Hf; lia|].
        split; [apply submseteq_app; assumption|]. split.
        -- intros Hor.
           assert (Hor2 : stop = false \/ List.filter fails trs2 = []).
           { destruct Hor as [Hs|Hnil]; [left; assumption|].
             right. apply app_eq_nil in Hnil. tauto. }
           destruct (Hfull2 Hor2) as [Hp2 Hk2max].
           split; [|apply Hkmax, Hk2max].
           rewrite Hp2, <- Horder, Hperm. reflexivity.
        -- intros Hs. rewrite (Hpass Hs). simpl. apply Hone2, Hs.
      * destruct Hsnd as (j & Hj & Hraise). exists j. split; [lia | assumption].
  - apply consume_raise in Hc as (j & Hin & Hraise).
    exists (Z.min (i + 128) (trials c)). split; [lia|].
    split; [reflexivity|]. exists j. split; [|assumption].
    rewrite Hperm in Hin. apply range_In in Hin. lia.
Qed.

End LoopFacts.

Lemma rule_of_three_returns (failures n : Z) :
  n < 2 ^ 1023 -> exists u, rule_of_three_upper_bound failures n = Ok u.
Proof.
  intros Hn. rewrite rule_of_three_unfold.
  destruct ((failures =? 0) && (0 <? n)) eqn:Hg; [|eauto].
  apply andb_true_iff in Hg as [_ Hpos]. apply Z.ltb_lt in Hpos.
  destruct (of_int_small n) as (m & e & ->); [lia | eauto].
Qed.

Section EngineFacts.

Context {Rng Inp Out : Type}.
Variable Random : Z -> Rng.
Variables (r : registries Rng Inp Out) (w : World) (c : Claim).
Variables (impl_name master_seed : string) (max_workers : Z).

Local Abbreviation the_run :=
  (parallel_trials Rng Inp Out Random r w c impl_name master_seed max_workers).
Local Abbreviation consumed :=
  (consumed_outcomes Rng Inp Out Random r w c impl_name master_seed max_workers).
Local Abbreviation completed :=
  (completed_outcomes Rng Inp Out Random r c impl_name master_seed
     (pool_ran _ _ the_run)).
Local Abbreviation trial_of p :=
  (run_one Rng Inp Out Random (fst (fst p)) (snd (fst p)) (snd p) c master_seed).

Lemma trial_loop_post p :
  fair w ->
  loop_post Random (fst (fst p)) (snd (fst p)) (snd p) c master_seed 0 []
    (no_locals Inp Out)
    (trial_loop Rng Inp Out Random w c master_seed max_workers p).
Proof.
  intros Hfair. unfold trial_loop.
  apply (batches_spec _ _ _ _ _ _ _ _ Hfair (Z.to_nat (trials c))); [lia|].
  reflexivity.
Qed.

Lemma omap_of_outcomes p (trs : list (TrialResult Inp Out)) :
  Forall (fun tr => trial_of p (idx _ _ tr) = Ok tr) trs ->
  omap (fun j => match trial_of p j with Ok tr => Some tr | Raise _ => None end)
    (List.map (idx _ _) trs) = trs.
Proof.
  induction 1 as [|tr trs Htr _ IH]; [reflexivity|].
  simpl. rewrite Htr. simpl. f_equal. exact IH.
Qed.

(** How a run decomposes once the plugins are found. *)
Lemma run_shape p :
  fair w -> lookup_plugins Rng Inp Out r c impl_name = Ok p ->
  exists k, 0 <= k <= Z.max 0 (trials c) /\ pool_ran _ _ the_run = range 0 k /\
    match snd (trial_loop Rng Inp Out Random w c master_seed max_workers p) with
    | Ok st =>
        consumed = st_results _ _ st /\
        Forall (fun tr => trial_of p (idx _ _ tr) = Ok tr) consumed /\
        st_failures _ _ st = Z.of_nat (length (List.filter (failing _ _) consumed)) /\
        List.map (idx _ _) consumed ⊆+ range 0 k /\
        (stop_on_first_failure c = false \/ List.filter (failing _ _) consumed = [] ->
         List.map (idx _ _) consumed ≡ₚ range 0 k /\ k = Z.max 0 (trials c)) /\
        (stop_on_first_failure c = true ->
         (length (List.filter (failing _ _) consumed) <= 1)%nat) /\
        (forall cr, returned _ _ the_run = Ok cr ->
           trials_run _ _ cr = Z.of_nat (length consumed) /\
           failures _ _ cr = st_failures _ _ st /\
           rule_of_three_upper_bound (st_failures _ _ st)
             (Z.of_nat (length consumed)) = Ok (upper95_failure_prob _ _ cr)) /\
        (forall u, rule_of_three_upper_bound (st_failures _ _ st)
                     (Z.of_nat (length consumed)) = Ok u ->
           exists cr, returned _ _ the_run = Ok cr /\
             trials_run _ _ cr = Z.of_nat (length consumed) /\
             failures _ _ cr = st_failures _ _ st /\
             upper95_failure_prob _ _ cr = u)
    | Raise e =>
        returned _ _ the_run = Raise e /\
        exists j, 0 <= j < trials c /\ trial_of p j = Raise e
    end.
Proof.
  intros Hfair Hp.
  destruct (trial_loop_post p Hfair) as (k & Hk & Hfst & Hsnd).
  exists k. split; [assumption|].
  unfold parallel_trials, consumed_outcomes. rewrite Hp.
  destruct (trial_loop _ _ _ _ w c master_seed max_workers p) as [ran looped].
  simpl in Hfst, Hsnd. simpl. split; [assumption|].
  destruct looped as [st|e]; simpl.
  - destruct Hsnd as (trs & Hres & Hall & Hf & Hsub & Hfull & Hone).
    simpl in Hres, Hf. subst trs.
    split; [reflexivity|]. split; [assumption|]. split; [assumption|].
    split; [assumption|]. split; [assumption|]. split; [assumption|].
    destruct (rule_of_three_upper_bound _ _) as [u|e]; simpl.
    + split; [intros cr [= <-]; auto|].
      intros u' [= <-]. eexists. split; [reflexivity|]. auto.
    + split; intros; discriminate.
  - split; [reflexivity | assumption].
Qed.

(** The outcomes handed over are outcomes of distinct trials that the
    pool completed; all of them when the evaluation does not stop at the
    first failure. *)
Lemma consumed_among_completed p :
  fair w -> lookup_plugins Rng Inp Out r c impl_name = Ok p ->
  NoDup (List.map (idx _ _) consumed) /\
  consumed ⊆+ completed /\
  (stop_on_first_failure c = false ->
   (exists st, snd (trial_loop Rng Inp Out Random w c master_seed max_workers p) = Ok st) ->
   consumed ≡ₚ completed).
Proof.
  intros Hfair Hp. destruct (run_shape p Hfair Hp) as (k & Hk & Hran & Hsnd).
  unfold completed_outcomes. rewrite Hp, Hran.
  destruct (snd (trial_loop _ _ _ _ w c master_seed max_workers p)) as [st|e] eqn:Hloop.
  - destruct Hsnd as (_ & Hall & _ & Hsub & Hfull & _).
    split; [eapply submseteq_NoDup; [exact Hsub | apply NoDup_seqZ]|].
    split.
    + rewrite <- (omap_of_outcomes p _ Hall) at 1. apply omap_submseteq, Hsub.
    + intros Hstop _. destruct (Hfull (or_introl Hstop)) as [Hperm _].
      rewrite <- (omap_of_outcomes p _ Hall) at 1. rewrite Hperm. reflexivity.
  - assert (Hnil : consumed = []).
    { unfold consumed_outcomes. rewrite Hp, Hloop. reflexivity. }
    rewrite Hnil. split; [constructor|]. split; [apply submseteq_nil_l|].
    intros _ [st Hst]. discriminate.
Qed.

Lemma returned_needs_plugins (cr : ClaimResult Inp Out) :
  returned _ _ the_run = Ok cr ->
  exists p, lookup_plugins Rng Inp Out r c impl_name = Ok p.
Proof.
  unfold parallel_trials.
  destruct (lookup_plugins _ _ _ r c impl_name) as [p|e]; [eauto | discriminate].
Qed.


(** C5: with [stop_on_first_failure = false], registered plugins that
    never raise and a budget that a list can hold, the full budget is run
    whatever the number of failures: every index below [trials] is submitted
    to the pool, the loop consumes the outcome of each index exactly once,
    and the evaluation returns a result whose [trials_run] is the budget and
    whose [failures] counts every failing outcome among them. *)
Theorem full_budget_without_early_stop p :
  fair w -> lookup_plugins Rng Inp Out r c impl_name = Ok p ->
  stop_on_first_failure c = false ->
  0 <= trials c <= sys_maxsize ->
  (forall j, 0 <= j < trials c -> raises (trial_of p j) = false) ->
  exists cr,
    returned _ _ the_run = Ok cr /\
    trials_run _ _ cr = trials c /\
    pool_ran _ _ the_run = range 0 (trials c) /\
    List.map (idx _ _) consumed ≡ₚ range 0 (trials c) /\
    Forall (fun tr => trial_of p (idx _ _ tr) = Ok tr) consumed /\
    Z.of_nat (length consumed) = trials c /\
    failures _ _ cr = Z.of_nat (length (List.filter (failing _ _) consumed)).
Proof.
  intros Hfair Hp Hstop Hn Hquiet.
  destruct (run_shape p Hfair Hp) as (k & Hk & Hran & Hsnd).
  destruct (snd (trial_loop _ _ _ _ w c master_seed max_workers p)) as [st|e].
  - destruct Hsnd as (_ & Hall & Hcount & _ & Hfull & _ & _ & Hmk).
    destruct (Hfull (or_introl Hstop)) as [Hperm ->].
    replace (Z.max 0 (trials c)) with (trials c) in Hran, Hperm by lia.
    assert (Hlen : Z.of_nat (length consumed) = trials c).
    { rewrite <- (length_map (idx _ _)), Hperm. unfold range.
      rewrite length_seqZ. lia. }
    destruct (rule_of_three_returns (st_failures _ _ st) (Z.of_nat (length consumed)))
      as [u Hu]; [unfold sys_maxsize in Hn; lia|].
    destruct (Hmk u Hu) as (cr & Hcr & Hrun & Hfail & _).
    exists cr.
    split; [exact Hcr|]. split; [congruence|]. split; [exact Hran|].
    split; [exact Hperm|]. split; [exact Hall|]. split; [exact Hlen|].
    rewrite Hfail. exact Hcount.
  - destruct Hsnd as (_ & j & Hj & Hraise).
    specialize (Hquiet j Hj). rewrite Hraise in Hquiet. discriminate.
Qed.


(** C7, as amended: when the generator, oracle or implementation name is
    not registered, [parallel_trials] raises the [KeyError] of the dict
    lookup, which carries the first missing name, in the order generator,
    oracle, implementation, and nothing about the kind; no trial has run
    and there is no result. *)
Theorem unregistered_name_is_key_error :
  GEN_REGISTRY _ _ _ r !! adversary c = None \/
  ORACLE_REGISTRY _ _ _ r !! oracle c = None \/
  IMPL_REGISTRY _ _ _ r !! impl_name = None ->
  pool_ran _ _
    (parallel_trials Rng Inp Out Random r w c impl_name master_seed max_workers)
    = [] /\
  returned _ _
    (parallel_trials Rng Inp Out Random r w c impl_name master_seed max_workers)
    =
    Raise (KeyError
             (match GEN_REGISTRY _ _ _ r !! adversary c,
                    ORACLE_REGISTRY _ _ _ r !! oracle c with
              | None, _ => adversary c
              | Some _, None => oracle c
              | Some _, Some _ => impl_name
              end)).
Proof.
  unfold parallel_trials, lookup_plugins, getitem.
  destruct (GEN_REGISTRY _ _ _ r !! adversary c) as [g|]; simpl;
    [|split; reflexivity].
  destruct (ORACLE_REGISTRY _ _ _ r !! oracle c) as [o|]; simpl;
    [|split; reflexivity].
  destruct (IMPL_REGISTRY _ _ _ r !! impl_name) as [f|]; simpl;
    [|split; reflexivity].
  intros [H|[H|H]]; discriminate.
Qed.

End EngineFacts.

Lemma demo_world_fair : fair Demo.world.
Proof. intros workers idxs. reflexivity. Qed.



(** Three trials of the faulty sort on an input with a duplicate, without
    early stop: all three fail, and all three are run and counted. *)
Lemma full_budget_without_early_stop_witness :
  exists cr,
    returned _ _ (Demo.evaluate "ones" "sort_correctness" "buggy_quicksort" 3 false) = Ok cr /\
    trials_run _ _ cr = 3 /\
    failures _ _ cr = 3 /\
    pool_ran _ _ (Demo.evaluate "ones" "sort_correctness" "buggy_quicksort" 3 false)
      = [0; 1; 2] /\
    List.map (idx _ _)
      (consumed_outcomes Z (list Z) (list Z) Demo.Random Demo.plugins Demo.world
         (Demo.sorting_claim "ones" "sort_correctness" 3 false)
         "buggy_quicksort" "seed" 0) ≡ₚ [0; 1; 2].
Proof.
  destruct (full_budget_without_early_stop Demo.Random Demo.plugins Demo.world
              (Demo.sorting_claim "ones" "sort_correctness" 3 false)
              "buggy_quicksort" "seed" 0
              (Demo.constant [1; 1], sort_correctness_plugin,
               fun a rng => Ok (buggy_quicksort a rng)))
    as (cr & Hcr & Hrun & Hran & Hperm & _ & _ & Hfail).
  - exact demo_world_fair.
  - reflexivity.
  - reflexivity.
  - unfold sys_maxsize. simpl. lia.
  - intros j _. reflexivity.
  - exists cr.
    split; [exact Hcr|]. split; [exact Hrun|].
    split; [rewrite Hfail; vm_compute; reflexivity|].
    split; [exact Hran|]. exact Hperm.
Defined.



Lemma unregistered_name_is_key_error_witness :
  pool_ran _ _ (Demo.evaluate "ones" "no_such_oracle" "quicksort3" 3 true) = [] /\
  returned _ _ (Demo.evaluate "ones" "no_such_oracle" "quicksort3" 3 true) =
    Raise (KeyError "no_such_oracle").
Proof.
  apply (unregistered_name_is_key_error Demo.Random Demo.plugins Demo.world
           (Demo.sorting_claim "ones" "no_such_oracle" 3 true) "quicksort3" "seed" 0).
  right. left. reflexivity.
Defined.

(** C7 as stated fails: an unregistered generator [x] and an unregistered
    oracle [x] raise the same exception, so the error does not tell the
    kind of the missing capability. *)
Lemma key_error_hides_capability_kind :
  ~ exists kind_of : exn -> capability,
      (forall e, returned _ _ (Demo.evaluate "x" "sort_correctness" "quicksort3" 3 true)
                 = Raise e -> kind_of e = Generator) /\
      (forall e, returned _ _ (Demo.evaluate "ones" "x" "quicksort3" 3 true)
                 = Raise e -> kind_of e = Oracle).
Proof.
  intros (kind_of & HA & HB).
  specialize (HA (KeyError "x") ltac:(vm_compute; reflexivity)).
  specialize (HB (KeyError "x") ltac:(vm_compute; reflexivity)).
  congruence.
Qed.

(** ** Sorting *)

Section Quicksort.

Context {Rng : Type} (rng : Rng).

Lemma quicksort_3way_step (a : list Z) :
  quicksort_3way a rng =
    if le_dec (length a) 1 then a
    else
      let pivot := item a (length a / 2) in
      quicksort_3way (List.filter (fun x => x <? pivot) a) rng ++
      List.filter (fun x => x =? pivot) a ++
      quicksort_3way (List.filter (fun x => pivot <? x) a) rng.
Proof.
  simp quicksort_3way. destruct (le_dec (length a) 1); reflexivity.
Qed.

(** The three comprehensions split the list. *)
Lemma three_way_split (p : Z) (a : list Z) :
  a ≡ₚ List.filter (fun x => x <? p) a ++ List.filter (fun x => x =? p) a ++
       List.filter (fun x => p <? x) a.
Proof.
  induction a as [|x a IH]; [reflexivity|]. simpl.
  destruct (Z.ltb_spec x p), (Z.eqb_spec x p), (Z.ltb_spec p x); try lia; simpl.
  - apply Permutation_cons; [reflexivity | exact IH].
  - etransitivity; [apply Permutation_cons; [reflexivity | exact IH]|].
    apply Permutation_middle.
  - etransitivity; [apply Permutation_cons; [reflexivity | exact IH]|].
    rewrite !app_assoc. apply Permutation_middle.
Qed.

Lemma pivot_in (a : list Z) : (1 < length a)%nat -> In (item a (length a / 2)) a.
Proof. intros H. apply nth_In, Nat.div_lt; lia. Qed.

Lemma quicksort_3way_permutation (a : list Z) : a ≡ₚ quicksort_3way a rng.
Proof.
  remember (length a) as n eqn:Hn. revert a Hn.
  induction n as [n IH] using lt_wf_ind. intros a ->.
  rewrite quicksort_3way_step. destruct (le_dec (length a) 1); [reflexivity|].
  cbv zeta. set (p := item a (length a / 2)).
  assert (Hin : In p a) by (apply pivot_in; lia).
  rewrite (three_way_split p a) at 1.
  apply Permutation_app; [|apply Permutation_app; [reflexivity|]].
  - eapply IH; [|reflexivity].
    apply (filter_rejecting_shorter _ _ _ Hin), Z.ltb_irrefl.
  - eapply IH; [|reflexivity].
    apply (filter_rejecting_shorter _ _ _ Hin), Z.ltb_irrefl.
Qed.

Lemma quicksort_3way_sorted (a : list Z) :
  StronglySorted Z.le (quicksort_3way a rng).
Proof.
  remember (length a) as n eqn:Hn. revert a Hn.
  induction n as [n IH] using lt_wf_ind. intros a ->.
  rewrite quicksort_3way_step. destruct (le_dec (length a) 1) as [Hle|Hgt].
  { destruct a as [|x [|y a]]; simpl in Hle; try lia; repeat constructor. }
  cbv zeta. set (p := item a (length a / 2)).
  assert (Hin : In p a) by (apply pivot_in; lia).
  assert (Hlt : forall x, x ∈ quicksort_3way (List.filter (fun x => x <? p) a) rng -> x < p).
  { intros x Hx. rewrite <- quicksort_3way_permutation in Hx.
    apply list_elem_of_In, filter_In in Hx. lia. }
  assert (Hgt' : forall x, x ∈ quicksort_3way (List.filter (fun x => p <? x) a) rng -> p < x).
  { intros x Hx. rewrite <- quicksort_3way_permutation in Hx.
    apply list_elem_of_In, filter_In in Hx. lia. }
  assert (Heq : forall x, x ∈ List.filter (fun x => x =? p) a -> x = p).
  { intros x Hx. apply list_elem_of_In, filter_In in Hx. lia. }
  apply StronglySorted_app_2; [| |apply StronglySorted_app_2].
  - intros x y Hx Hy. apply Hlt in Hx.
    apply elem_of_app in Hy as [Hy|Hy]; [apply Heq in Hy | apply Hgt' in Hy]; lia.
  - eapply IH; [|reflexivity].
    apply (filter_rejecting_shorter _ _ _ Hin), Z.ltb_irrefl.
  - intros x y Hx Hy. apply Heq in Hx. apply Hgt' in Hy. lia.
  - clear -Heq. induction (List.filter _ a) as [|x l IHl]; constructor.
    + apply IHl. intros y Hy. apply Heq. right. exact Hy.
    + apply Forall_forall. intros y Hy.
      rewrite (Heq x), (Heq y); [lia | right; exact Hy | left].
  - eapply IH; [|reflexivity].
    apply (filter_rejecting_shorter _ _ _ Hin), Z.ltb_irrefl.
Qed.

End Quicksort.

Lemma adjacent_sorted (a : list Z) :
  (forall i, (i + 1 < length a)%nat -> item a i <= item a (i + 1)) <-> Sorted Z.le a.
Proof.
  induction a as [|x a IH]; [split; [constructor | simpl; lia]|].
  split.
  - intros H. constructor.
    + apply IH. intros i Hi. apply (H (S i)). simpl. lia.
    + destruct a as [|y a]; constructor. apply (H O). simpl. lia.
  - intros Hs i Hi. inversion Hs as [|? ? Htail Hhd]; subst.
    destruct i as [|i].
    + destruct a as [|y a]; [simpl in Hi; lia|]. inversion Hhd; subst. assumption.
    + apply (proj2 IH Htail i). simpl in Hi. lia.
Qed.

(** [is_sorted] accepts the sorted lists, and only them. *)
Lemma is_sorted_spec (a : list Z) : is_sorted a = true <-> Sorted Z.le a.
Proof.
  rewrite <- adjacent_sorted. unfold is_sorted. rewrite forallb_forall.
  split.
  - intros H i Hi. apply Z.leb_le, H, in_seq. lia.
  - intros H i Hi. apply in_seq in Hi. apply Z.leb_le, H. lia.
Qed.

(** Counting is insensitive to the order of the elements. *)
Lemma Counter_step_comm (m : gmap Z nat) (x y : Z) :
  <[y := S (default O (<[x := S (default O (m !! x))]> m !! y))]>
    (<[x := S (default O (m !! x))]> m) =
  <[x := S (default O (<[y := S (default O (m !! y))]> m !! x))]>
    (<[y := S (default O (m !! y))]> m).
Proof.
  destruct (decide (x = y)) as [->|Hne]; [reflexivity|].
  rewrite !lookup_insert_ne by congruence. apply insert_insert_ne. congruence.
Qed.

Lemma Counter_permutation (a b : list Z) : a ≡ₚ b -> Counter a = Counter b.
Proof.
  intros Hp. unfold Counter. generalize (∅ : gmap Z nat).
  induction Hp as [|x a b _ IH|x y a|a b d _ IH1 _ IH2]; intros m; simpl.
  - reflexivity.
  - apply IH.
  - rewrite Counter_step_comm. reflexivity.
  - rewrite IH1. apply IH2.
Qed.

Lemma Counter_lookup (a : list Z) (x : Z) :
  forall m : gmap Z nat,
  fold_left (fun c y => <[y := S (default O (c !! y))]> c) a m !! x =
    match count_occ Z.eq_dec a x with
    | O => m !! x
    | S k => Some (default O (m !! x) + S k)%nat
    end.
Proof.
  induction a as [|y a IH]; intros m; simpl; [reflexivity|].
  rewrite IH. destruct (Z.eq_dec y x) as [->|Hne].
  - rewrite lookup_insert_eq. simpl.
    destruct (count_occ Z.eq_dec a x); f_equal; lia.
  - rewrite lookup_insert_ne by assumption. reflexivity.
Qed.

(** [is_permutation] accepts the rearrangements, and only them. *)
Lemma is_permutation_spec (a b : list Z) : is_permutation a b = true <-> a ≡ₚ b.
Proof.
  unfold is_permutation. rewrite bool_decide_eq_true. split.
  - intros H. apply (Permutation_count_occ Z.eq_dec). intros x.
    apply (f_equal (fun m => m !! x)) in H. unfold Counter in H.
    rewrite !Counter_lookup, lookup_empty in H.
    destruct (count_occ Z.eq_dec a x), (count_occ Z.eq_dec b x);
      simpl in H; congruence.
  - apply Counter_permutation.
Qed.

Lemma sort_correctness_oracle_passes {Rng : Type} (rng : Rng) (a : list Z) :
  sort_correctness_oracle a (quicksort_3way a rng) = (true, []).
Proof.
  unfold sort_correctness_oracle, is_permutation.
  rewrite (proj2 (is_sorted_spec _)), bool_decide_eq_true_2; [reflexivity| |].
  - apply Counter_permutation, quicksort_3way_permutation.
  - apply StronglySorted_Sorted, quicksort_3way_sorted.
Qed.

Lemma filter_none {A : Type} (f : A -> bool) (l : list A) :
  Forall (fun x => f x = false) l -> List.filter f l = [].
Proof.
  induction 1 as [|x l Hx _ IH]; [reflexivity|]. simpl. rewrite Hx. exact IH.
Qed.

Section CleanRun.

Context {Rng Inp Out : Type}.
Variable Random : Z -> Rng.
Variables (r : registries Rng Inp Out) (w : World) (c : Claim).
Variables (impl_name master_seed : string) (max_workers : Z).

(** When every trial of the budget passes, the whole budget is run and
    the bound is [3.0 / float(trials)], with or without early stop. *)
Lemma clean_run p :
  fair w -> lookup_plugins Rng Inp Out r c impl_name = Ok p ->
  0 < trials c <= sys_maxsize ->
  (forall j, 0 <= j < trials c ->
     exists tr,
       run_one Rng Inp Out Random (fst (fst p)) (snd (fst p)) (snd p) c master_seed j
         = Ok tr /\ passed _ _ tr = true) ->
  exists cr d,
    returned _ _ (parallel_trials Rng Inp Out Random r w c impl_name master_seed
                    max_workers) = Ok cr /\
    failures _ _ cr = 0 /\ trials_run _ _ cr = trials c /\
    PyFloat.of_int (trials_run _ _ cr) = Ok d /\
    upper95_failure_prob _ _ cr =
      Some (SFdiv PyFloat.prec PyFloat.emax PyFloat.three d).
Proof.
  intros Hfair Hp Hn Hpass.
  destruct (run_shape Random r w c impl_name master_seed max_workers p Hfair Hp)
    as (k & Hk & Hran & Hsnd).
  destruct (snd (trial_loop _ _ _ _ w c master_seed max_workers p)) as [st|e].
  - destruct Hsnd as (_ & Hall & Hf & Hsub & Hfull & _ & _ & Hmk).
    set (consumed := consumed_outcomes _ _ _ _ _ _ _ _ _ _) in *.
    assert (Hnone : List.filter (failing _ _) consumed = []).
    { apply filter_none. rewrite Forall_forall in Hall. apply Forall_forall.
      intros tr Htr. specialize (Hall tr Htr).
      assert (Hin : idx _ _ tr ∈ range 0 k).
      { eapply elem_of_submseteq; [|exact Hsub]. apply list_elem_of_fmap. eauto. }
      apply range_In in Hin. destruct (Hpass (idx _ _ tr)) as (tr' & Htr' & Hok);
        [lia|]. rewrite Hall in Htr'. injection Htr' as <-.
      unfold failing. rewrite Hok. reflexivity. }
    destruct (Hfull (or_intror Hnone)) as [Hperm ->].
    assert (Hlen : Z.of_nat (length consumed) = trials c).
    { rewrite <- (length_map (idx _ _)), Hperm. unfold range.
      rewrite length_seqZ. lia. }
    rewrite Hnone in Hf. simpl in Hf. rewrite Hf, Hlen in Hmk.
    destruct (of_int_small (trials c)) as (m & e & Hd);
      [unfold sys_maxsize in Hn; lia|].
    destruct (Hmk (Some (SFdiv PyFloat.prec PyFloat.emax PyFloat.three
                           (S754_finite false m e)))) as (cr & Hcr & Hrun & Hfail & Hup).
    { rewrite rule_of_three_unfold. destruct (Z.ltb_spec 0 (trials c)); [|lia].
      simpl. rewrite Hd. reflexivity. }
    exists cr, (S754_finite false m e).
    split; [assumption|]. split; [assumption|]. split; [assumption|].
    split; [rewrite Hrun; assumption | assumption].
  - destruct Hsnd as (_ & j & Hj & Hraise).
    destruct (Hpass j Hj) as (tr & Htr & _). congruence.
Qed.

End CleanRun.

(** C8: [quicksort_3way] returns a sorted rearrangement of its input, on
    which the [sort_correctness] oracle passes; so a claim with this
    oracle, evaluated against this implementation with a generator that
    does not raise, reports no failure after the whole budget, and the
    bound [3.0 / float(trials_run)]. *)
Theorem quicksort_3way_claim_holds {Rng : Type} (Random : Z -> Rng)
    (r : registries Rng (list Z) (list Z)) (w : World) (c : Claim)
    (impl_name master_seed : string) (max_workers : Z)
    (gen : generator Rng (list Z)) :
  fair w ->
  GEN_REGISTRY _ _ _ r !! adversary c = Some gen ->
  (forall rng ps, raises (gen rng ps) = false) ->
  ORACLE_REGISTRY _ _ _ r !! oracle c = Some sort_correctness_plugin ->
  IMPL_REGISTRY _ _ _ r !! impl_name = Some quicksort3_plugin ->
  0 < trials c <= sys_maxsize ->
  (forall (a : list Z) (rng : Rng),
     Sorted Z.le (quicksort_3way a rng) /\ a ≡ₚ quicksort_3way a rng /\
     sort_correctness_oracle a (quicksort_3way a rng) = (true, [])) /\
  exists cr d,
    returned _ _ (parallel_trials Rng (list Z) (list Z) Random r w c impl_name
                    master_seed max_workers) = Ok cr /\
    failures _ _ cr = 0 /\ trials_run _ _ cr = trials c /\
    PyFloat.of_int (trials_run _ _ cr) = Ok d /\
    upper95_failure_prob _ _ cr =
      Some (SFdiv PyFloat.prec PyFloat.emax PyFloat.three d).
Proof.
  intros Hfair Hgen Hquiet Horc Himpl Hn. split.
  - intros a rng. split; [apply StronglySorted_Sorted, quicksort_3way_sorted|].
    split; [apply quicksort_3way_permutation | apply sort_correctness_oracle_passes].
  - apply (clean_run Random r w c impl_name master_seed max_workers
             (gen, sort_correctness_plugin, quicksort3_plugin)); try assumption.
    + unfold lookup_plugins, getitem.
      rewrite Hgen. cbn [bind]. rewrite Horc. cbn [bind]. rewrite Himpl. reflexivity.
    + intros j _. unfold run_one, quicksort3_plugin, sort_correctness_plugin.
      cbn [fst snd].
      specialize (Hquiet (Random (derive_seed master_seed (claim_id c) j))
                    (params (domain c))).
      destruct (gen _ _) as [g|e]; [|discriminate]. cbn [bind].
      rewrite sort_correctness_oracle_passes. cbn [bind fst snd].
      eexists. split; reflexivity.
Qed.

(** The scenario of the specification: 20000 trials, bound 0.00015. *)
Lemma quicksort_3way_claim_holds_witness :
  exists cr,
    returned _ _ (Demo.evaluate "ones" "sort_correctness" "quicksort3" 20000 true) = Ok cr /\
    failures _ _ cr = 0 /\ trials_run _ _ cr = 20000 /\
    upper95_failure_prob _ _ cr = Some (S754_finite false 5534023222112865 (-65)).
Proof.
  destruct (quicksort_3way_claim_holds Demo.Random Demo.plugins Demo.world
              (Demo.sorting_claim "ones" "sort_correctness" 20000 true)
              "quicksort3" "seed" 0 (Demo.constant [1; 1]))
    as (_ & cr & d & Hcr & Hf & Hn & Hd & Hu).
  - exact demo_world_fair.
  - reflexivity.
  - intros rng ps. reflexivity.
  - reflexivity.
  - reflexivity.
  - unfold sys_maxsize. simpl. lia.
  - exists cr. split; [exact Hcr|]. split; [exact Hf|]. split; [exact Hn|].
    rewrite Hn in Hd. simpl in Hd. vm_compute in Hd. injection Hd as <-. exact Hu.
Defined.

(** ** The Beta-Bernoulli belief state *)

Lemma shl_align_exponent (m : positive) (e e' : Z) :
  snd (shl_align m e e') = Z.min e e'.
Proof. unfold shl_align. destruct (e' - e) eqn:H; simpl; lia. Qed.

Lemma add_positive (x y : PyFloat.float) :
  positive_float x -> positive_float y -> positive_float (PyFloat.add x y).
Proof.
  destruct x as [ |[|]| |[|] mx ex], y as [ |[|]| |[|] my ey]; simpl; try tauto.
  intros Hx Hy. unfold PyFloat.add, SFadd, cond_Zopp.
  change (Z.pos ?a + Z.pos ?b) with (Z.pos (a + b)).
  unfold binary_normalize.
  destruct (binary_round_shape false
              (fst (shl_align mx ex (Z.min ex ey)) + fst (shl_align my ey (Z.min ex ey)))
              (Z.min ex ey)) as (m' & e' & -> & He'); [lia|].
  destruct (e' <=? 971); simpl; [lia | exact I].
Qed.

Lemma positive_not_zero (x : PyFloat.float) :
  positive_float x -> PyFloat.is_zero x = false.
Proof. destruct x as [ |[|]| |[|] m e]; simpl; tauto. Qed.

Lemma one_positive : positive_float PyFloat.one.
Proof. vm_compute. discriminate. Qed.

Lemma update_proper (self : BetaBernoulliClaim) (outcome : Z) :
  proper_beta self -> proper_beta (update self outcome).
Proof.
  intros [Ha Hb]. unfold update, proper_beta.
  destruct (outcome =? 1); simpl; auto using add_positive, one_positive.
Qed.

(** Shifting out zero bits is exact. *)
Lemma iter_shr_exact (p : positive) :
  forall q : Z, 0 <= q ->
  SpecFloat.iter_pos shr_1 p
    {| shr_m := q * 2 ^ Z.pos p; shr_r := false; shr_s := false |} =
  {| shr_m := q; shr_r := false; shr_s := false |}.
Proof.
  assert (H1 : forall q, 0 <= q ->
            shr_1 {| shr_m := q * 2; shr_r := false; shr_s := false |} =
            {| shr_m := q; shr_r := false; shr_s := false |}).
  { intros [|q|q] Hq; try lia; [reflexivity|].
    change (Z.pos q * 2) with (Z.pos (q * 2)). rewrite Pos.mul_comm. reflexivity. }
  assert (Hpow : forall q n, 0 <= q -> 0 <= q * 2 ^ Z.pos n).
  { intros q n Hq. apply Z.mul_nonneg_nonneg; [lia | apply Z.pow_nonneg; lia]. }
  induction p as [p IH|p IH|]; intros q Hq; cbn [SpecFloat.iter_pos].
  - replace (q * 2 ^ Z.pos p~1) with ((q * 2 ^ Z.pos p * 2 ^ Z.pos p) * 2).
    + rewrite H1, IH, IH by auto. reflexivity.
    + assert (E : Z.pos p~1 = Z.pos p + Z.pos p + 1) by lia.
      rewrite E, !Z.pow_add_r, Z.pow_1_r by lia. ring.
  - replace (q * 2 ^ Z.pos p~0) with (q * 2 ^ Z.pos p * 2 ^ Z.pos p).
    + rewrite IH, IH by auto. reflexivity.
    + assert (E : Z.pos p~0 = Z.pos p + Z.pos p) by lia.
      rewrite E, !Z.pow_add_r by lia. ring.
  - rewrite Z.pow_1_r. apply H1, Hq.
Qed.

(** A mantissa of 53 bits followed by zero bits rounds to itself. *)
Lemma binary_round_aux_exact (s : bool) (q j e : Z) :
  2 ^ 52 <= q < 2 ^ 53 -> 0 <= j -> -1074 <= e -> e + j <= 971 ->
  binary_round_aux PyFloat.prec PyFloat.emax s (q * 2 ^ j) e loc_Exact =
    S754_finite s (Z.to_pos q) (e + j).
Proof.
  intros Hq Hj He Hej.
  assert (Hm : 0 < q * 2 ^ j) by (apply Z.mul_pos_pos; [lia | apply Z.pow_pos_nonneg; lia]).
  assert (Hlog : Z.log2 (q * 2 ^ j) = j + 52).
  { rewrite Z.log2_mul_pow2 by lia. f_equal. apply Z.log2_unique; lia. }
  assert (Hstep : shr_fexp PyFloat.prec PyFloat.emax (q * 2 ^ j) e loc_Exact =
                  ({| shr_m := q; shr_r := false; shr_s := false |}, e + j)).
  { unfold shr_fexp. rewrite fexp_eq, Zdigits2_log2, Hlog by assumption.
    replace (Z.max (j + 52 + 1 + e - 53) (-1074) - e) with j by lia.
    unfold shr. simpl shr_record_of_loc.
    destruct j as [|j|j]; [|rewrite iter_shr_exact by lia; reflexivity | lia].
    rewrite Z.mul_1_r, Z.add_0_r. reflexivity. }
  unfold binary_round_aux. rewrite Hstep. cbn [shr_m loc_of_shr_record round_nearest_even].
  assert (Hstep2 : shr_fexp PyFloat.prec PyFloat.emax q (e + j) loc_Exact =
                   ({| shr_m := q; shr_r := false; shr_s := false |}, e + j)).
  { unfold shr_fexp. rewrite fexp_eq, Zdigits2_log2 by lia.
    replace (Z.log2 q) with 52 by (symmetry; apply Z.log2_unique; lia).
    replace (Z.max (52 + 1 + (e + j) - 53) (-1074) - (e + j)) with 0 by lia.
    reflexivity. }
  rewrite Hstep2. cbn [shr_m].
  destruct q as [|q|q]; try lia.
  destruct (Z.leb_spec (e + j) (PyFloat.emax - PyFloat.prec)); [reflexivity|].
  unfold PyFloat.emax, PyFloat.prec in *. lia.
Qed.

(** The double of an integer below [2^53], given with zero bits behind it
    or not: the integer itself, brought to 53 bits. *)
Lemma normalize_scaled_int (k t : Z) :
  0 < k < 2 ^ 53 -> 0 <= t <= 1074 ->
  binary_normalize PyFloat.prec PyFloat.emax (k * 2 ^ t) (- t) false =
    S754_finite false (Z.to_pos (k * 2 ^ (52 - Z.log2 k))) (Z.log2 k - 52).
Proof.
  intros Hk Ht.
  assert (Hl : 0 <= Z.log2 k < 53).
  { split; [apply Z.log2_nonneg | apply Z.log2_lt_pow2; lia]. }
  assert (Hq : 2 ^ 52 <= k * 2 ^ (52 - Z.log2 k) < 2 ^ 53).
  { pose proof (Z.log2_spec k ltac:(lia)) as [H1 H2].
    replace (2 ^ 52) with (2 ^ Z.log2 k * 2 ^ (52 - Z.log2 k))
      by (rewrite <- Z.pow_add_r by lia; f_equal; lia).
    replace (2 ^ 53) with (2 ^ Z.succ (Z.log2 k) * 2 ^ (52 - Z.log2 k))
      by (rewrite <- Z.pow_add_r by lia; f_equal; lia).
    assert (0 < 2 ^ (52 - Z.log2 k)) by (apply Z.pow_pos_nonneg; lia). nia. }
  assert (Hpos : 0 < k * 2 ^ t) by (apply Z.mul_pos_pos; [lia | apply Z.pow_pos_nonneg; lia]).
  destruct (k * 2 ^ t) as [|P|P] eqn:HP; try lia.
  unfold binary_normalize, binary_round, shl_align.
  change (Z.pos (digits2_pos P)) with (Zdigits2 (Z.pos P)).
  rewrite fexp_eq, Zdigits2_log2, <- HP, Z.log2_mul_pow2 by lia.
  destruct (Z.max (t + Z.log2 k + 1 + - t - 53) (-1074) - - t) as [|d|d] eqn:Hd.
  - cbv beta iota. rewrite <- HP.
    replace (k * 2 ^ t) with (k * 2 ^ (52 - Z.log2 k) * 2 ^ (Z.log2 k - 52 + t)).
    + rewrite binary_round_aux_exact by lia. f_equal. lia.
    + rewrite <- Z.mul_assoc, <- Z.pow_add_r by lia. do 2 f_equal. lia.
  - cbv beta iota. rewrite <- HP.
    replace (k * 2 ^ t) with (k * 2 ^ (52 - Z.log2 k) * 2 ^ (Z.log2 k - 52 + t)).
    + rewrite binary_round_aux_exact by lia. f_equal. lia.
    + rewrite <- Z.mul_assoc, <- Z.pow_add_r by lia. do 2 f_equal. lia.
  - cbv beta iota. rewrite iter_xO_pow, <- HP.
    replace (k * 2 ^ t * 2 ^ Z.pos d) with (k * 2 ^ (52 - Z.log2 k) * 2 ^ 0).
    + rewrite binary_round_aux_exact by lia. f_equal. lia.
    + rewrite Z.mul_1_r, <- Z.mul_assoc, <- Z.pow_add_r by lia. do 2 f_equal. lia.
Qed.

Lemma round_int (k : Z) :
  0 < k < 2 ^ 53 ->
  PyFloat.round k 0 =
    S754_finite false (Z.to_pos (k * 2 ^ (52 - Z.log2 k))) (Z.log2 k - 52).
Proof.
  intros Hk. rewrite <- (normalize_scaled_int k 0) by lia.
  unfold PyFloat.round. f_equal. lia.
Qed.

Lemma shl_align_mantissa (m : positive) (e e' : Z) :
  Z.pos (fst (shl_align m e e')) = Z.pos m * 2 ^ (e - Z.min e e').
Proof.
  unfold shl_align. destruct (e' - e) as [|d|d] eqn:H; simpl fst.
  - replace (e - Z.min e e') with 0 by lia. lia.
  - replace (e - Z.min e e') with 0 by lia. lia.
  - rewrite iter_xO_pow. do 2 f_equal. lia.
Qed.

(** Below [2^53], the sum of the doubles of two positive integers is the
    double of their sum: no rounding takes place. *)
Lemma add_int_exact (a b : Z) :
  0 < a -> 0 < b -> a + b < 2 ^ 53 ->
  PyFloat.add (PyFloat.round a 0) (PyFloat.round b 0) = PyFloat.round (a + b) 0.
Proof.
  intros Ha Hb Hab.
  assert (Hla : 0 <= Z.log2 a < 53).
  { split; [apply Z.log2_nonneg | apply Z.log2_lt_pow2; lia]. }
  assert (Hlb : 0 <= Z.log2 b < 53).
  { split; [apply Z.log2_nonneg | apply Z.log2_lt_pow2; lia]. }
  set (t := 52 - Z.min (Z.log2 a) (Z.log2 b)).
  rewrite (round_int (a + b)) by lia.
  rewrite <- (normalize_scaled_int (a + b) t) by (unfold t; lia).
  rewrite (round_int a), (round_int b) by lia.
  unfold PyFloat.add, SFadd, cond_Zopp.
  replace (Z.min (Z.log2 a - 52) (Z.log2 b - 52)) with (- t) by (unfold t; lia).
  f_equal.
  change (Z.pos ?x + Z.pos ?y) with (Z.pos (x + y)).
  rewrite Pos2Z.inj_add, !shl_align_mantissa.
  assert (Hpa : 0 < a * 2 ^ (52 - Z.log2 a))
    by (apply Z.mul_pos_pos; [lia | apply Z.pow_pos_nonneg; lia]).
  assert (Hpb : 0 < b * 2 ^ (52 - Z.log2 b))
    by (apply Z.mul_pos_pos; [lia | apply Z.pow_pos_nonneg; lia]).
  rewrite !Z2Pos.id by assumption.
  rewrite !(Z.min_r _ (- t)) by (unfold t; lia).
  rewrite <- !Z.mul_assoc, <- !Z.pow_add_r by (unfold t; lia).
  replace (52 - Z.log2 a + (Z.log2 a - 52 - - t)) with t by lia.
  replace (52 - Z.log2 b + (Z.log2 b - 52 - - t)) with t by lia.
  lia.
Qed.

Lemma increments_int (n : Z) (k : nat) :
  0 < n -> n + Z.of_nat k < 2 ^ 53 ->
  increments k (PyFloat.round n 0) = PyFloat.round (n + Z.of_nat k) 0.
Proof.
  intros Hn. unfold increments. induction k as [|k IH]; intros Hk.
  - simpl. f_equal. lia.
  - rewrite Nat.iter_succ, IH by lia. unfold PyFloat.one.
    rewrite add_int_exact by lia. f_equal. lia.
Qed.

Lemma increments_succ_r (k : nat) (x : PyFloat.float) :
  increments (S k) x = increments k (PyFloat.add x PyFloat.one).
Proof. unfold increments. now rewrite Nat.iter_succ_r. Qed.

Lemma updates_state (outcomes : list Z) : forall self : BetaBernoulliClaim,
  binary outcomes ->
  alpha (updates self outcomes) = increments (occurrences 1 outcomes) (alpha self) /\
  beta (updates self outcomes) = increments (occurrences 0 outcomes) (beta self) /\
  history (updates self outcomes) = history self ++ outcomes.
Proof.
  unfold updates, occurrences.
  induction outcomes as [|o os IH]; intros self Hb.
  - simpl. now rewrite app_nil_r.
  - apply Forall_cons_1 in Hb as [Ho Hb].
    cbn [fold_left]. destruct (IH (update self o) Hb) as (Ea & Eb & Eh).
    rewrite Ea, Eb, Eh. clear IH Ea Eb Eh.
    destruct Ho as [-> | ->]; cbn [update Z.eqb Pos.eqb alpha beta history count_occ].
    + destruct (Z.eq_dec 0 1) as [E|_]; [discriminate E|].
      destruct (Z.eq_dec 0 0) as [_|N]; [|now elim N].
      rewrite increments_succ_r, <- List.app_assoc. auto.
    + destruct (Z.eq_dec 1 1) as [_|N]; [|now elim N].
      destruct (Z.eq_dec 1 0) as [E|_]; [discriminate E|].
      rewrite increments_succ_r, <- List.app_assoc. auto.
Qed.

Lemma updates_proper (outcomes : list Z) : forall self : BetaBernoulliClaim,
  proper_beta self -> proper_beta (updates self outcomes).
Proof.
  unfold updates. induction outcomes as [|o os IH]; intros self Hp.
  - exact Hp.
  - cbn [fold_left]. apply IH, update_proper, Hp.
Qed.

Lemma posterior_mean_proper (self : BetaBernoulliClaim) :
  proper_beta self ->
  posterior_mean self =
    Ok (SFdiv PyFloat.prec PyFloat.emax (alpha self)
          (PyFloat.add (alpha self) (beta self))).
Proof.
  intros [Ha Hb]. unfold posterior_mean, PyFloat.truediv.
  now rewrite (positive_not_zero _ (add_positive _ _ Ha Hb)).
Qed.

Lemma occurrences_binary (outcomes : list Z) :
  binary outcomes ->
  (occurrences 1 outcomes + occurrences 0 outcomes)%nat = length outcomes.
Proof.
  unfold occurrences. induction 1 as [|o os Ho _ IH]; [reflexivity|].
  cbn [count_occ length].
  destruct Ho as [-> | ->].
  - destruct (Z.eq_dec 0 1) as [E|_]; [discriminate E|].
    destruct (Z.eq_dec 0 0) as [_|N]; [|now elim N]. lia.
  - destruct (Z.eq_dec 1 1) as [_|N]; [|now elim N].
    destruct (Z.eq_dec 1 0) as [E|_]; [discriminate E|]. lia.
Qed.

Lemma round_int_positive (n : Z) :
  0 < n < 2 ^ 53 -> positive_float (PyFloat.round n 0).
Proof.
  intros Hn. rewrite round_int by exact Hn. simpl.
  pose proof (Z.log2_nonneg n). lia.
Qed.

(** C9.  For a Beta-Bernoulli state and a sequence of outcomes in {0, 1}:
    after the updates, [alpha] has been incremented by 1.0 once per outcome
    equal to 1 and [beta] once per outcome equal to 0, and the outcomes
    have been appended to the history.  With positive parameters, as a
    Beta distribution has, [posterior_mean] returns the quotient
    [alpha / (alpha + beta)] of the state, without raising.  When the
    parameters are the integers [a] and [b] and [a + b + len(outcomes)] is
    below [2^53], the increments are exact: the mean is the double nearest
    to [(a + ones) / (a + b + len(outcomes))]. *)
Theorem beta_bernoulli_update_and_mean
  (self : BetaBernoulliClaim) (outcomes : list Z) :
  binary outcomes ->
  alpha (updates self outcomes) =
    increments (occurrences 1 outcomes) (alpha self) /\
  beta (updates self outcomes) =
    increments (occurrences 0 outcomes) (beta self) /\
  history (updates self outcomes) = history self ++ outcomes /\
  (proper_beta self ->
   posterior_mean (updates self outcomes) =
     Ok (SFdiv PyFloat.prec PyFloat.emax (alpha (updates self outcomes))
           (PyFloat.add (alpha (updates self outcomes))
                        (beta (updates self outcomes))))) /\
  forall a b : Z,
    0 < a -> 0 < b -> a + b + Z.of_nat (length outcomes) < 2 ^ 53 ->
    alpha self = PyFloat.round a 0 -> beta self = PyFloat.round b 0 ->
    alpha (updates self outcomes) =
      PyFloat.round (a + Z.of_nat (occurrences 1 outcomes)) 0 /\
    beta (updates self outcomes) =
      PyFloat.round (b + Z.of_nat (occurrences 0 outcomes)) 0 /\
    posterior_mean (updates self outcomes) =
      Ok (SFdiv PyFloat.prec PyFloat.emax
            (PyFloat.round (a + Z.of_nat (occurrences 1 outcomes)) 0)
            (PyFloat.round (a + b + Z.of_nat (length outcomes)) 0)).
Proof.
  intros Hb.
  destruct (updates_state outcomes self Hb) as (Ea & Eb & Eh).
  pose proof (occurrences_binary outcomes Hb) as Hn.
  split; [exact Ea|]. split; [exact Eb|]. split; [exact Eh|]. split.
  - intros Hp. apply posterior_mean_proper, updates_proper, Hp.
  - intros a b Ha Hb' Hlt Hal Hbe.
    assert (Hp : proper_beta self).
    { split; [rewrite Hal | rewrite Hbe]; apply round_int_positive; lia. }
    assert (Ea' : alpha (updates self outcomes) =
                  PyFloat.round (a + Z.of_nat (occurrences 1 outcomes)) 0).
    { rewrite Ea, Hal. apply increments_int; lia. }
    assert (Eb' : beta (updates self outcomes) =
                  PyFloat.round (b + Z.of_nat (occurrences 0 outcomes)) 0).
    { rewrite Eb, Hbe. apply increments_int; lia. }
    split; [exact Ea'|]. split; [exact Eb'|].
    rewrite (posterior_mean_proper _ (updates_proper outcomes self Hp)).
    rewrite Ea', Eb', add_int_exact by lia.
    do 3 f_equal. lia.
Qed.

(** The scenario of the documentation: from Beta(1, 1), ten outcomes equal
    to 1 give the mean [11.0 / 12.0 = 8256599316845909 * 2^-53], which is
    within half a unit in the last place of 11/12. *)
Lemma beta_bernoulli_update_and_mean_witness :
  binary (repeat 1 10) /\
  proper_beta (new_claim "QS3") /\
  posterior_mean (updates (new_claim "QS3") (repeat 1 10)) =
    Ok (S754_finite false 8256599316845909 (-53)) /\
  Z.abs (12 * 8256599316845909 - 11 * 2 ^ 53) <= 6.
Proof.
  assert (Hb : binary (repeat 1 10)).
  { unfold binary. cbn [repeat].
    repeat (apply List.Forall_cons; [right; reflexivity|]). apply List.Forall_nil. }
  split; [exact Hb|]. split; [split; vm_compute; discriminate|]. split.
  - destruct (beta_bernoulli_update_and_mean (new_claim "QS3") (repeat 1 10) Hb)
      as (_ & _ & _ & _ & Hint).
    destruct (Hint 1 1) as (_ & _ & Hm);
      [lia | lia | vm_compute; reflexivity | reflexivity | reflexivity |].
    rewrite Hm. vm_compute. reflexivity.
  - vm_compute. discriminate.
Defined.

(** * Further properties *)

(** ** oracles.py *)

Lemma StronglySorted_items (a : list Z) :
  StronglySorted Z.le a <->
  forall i j, (i < j < length a)%nat -> item a i <= item a j.
Proof.
  unfold item. induction a as [|x a IH].
  - split; [simpl; lia | constructor].
  - split.
    + intros Hs i j Hij. inversion Hs as [|? ? Htail Hall]; subst.
      destruct j as [|j]; [lia|]. destruct i as [|i]; simpl.
      * rewrite List.Forall_forall in Hall. apply Hall, nth_In. simpl in Hij. lia.
      * apply IH; [assumption | simpl in Hij; lia].
    + intros H. constructor.
      * apply IH. intros i j Hij. apply (H (S i) (S j)). simpl. lia.
      * apply List.Forall_forall. intros y Hy.
        destruct (In_nth a y 0 Hy) as (j & Hj & <-).
        apply (H O (S j)). simpl. lia.
Qed.

(** X1.  [is_sorted] returns [True] exactly on the non-decreasing lists: those
    in which every element is at most every later one. *)
Theorem is_sorted_exactly_nondecreasing (a : list Z) :
  is_sorted a = true <->
  forall i j, (i < j < length a)%nat -> item a i <= item a j.
Proof.
  rewrite is_sorted_spec, <- StronglySorted_items. split.
  - apply Sorted_StronglySorted. intros x y z. lia.
  - apply StronglySorted_Sorted.
Qed.

(** X2.  [is_permutation] returns [True] exactly when the second list is a
    rearrangement of the first: every value occurs as often in both. *)
Theorem is_permutation_exactly_same_counts (a b : list Z) :
  (is_permutation a b = true <->
   forall x, count_occ Z.eq_dec a x = count_occ Z.eq_dec b x) /\
  (is_permutation a b = true -> length a = length b) /\
  is_permutation a b = is_permutation b a.
Proof.
  assert (Hc : is_permutation a b = true <->
               forall x, count_occ Z.eq_dec a x = count_occ Z.eq_dec b x).
  { rewrite is_permutation_spec. split.
    - intros Hp x. apply Permutation_count_occ. exact Hp.
    - intros H. apply (Permutation_count_occ Z.eq_dec). exact H. }
  split; [exact Hc|]. split.
  - intros H. apply is_permutation_spec in H. now rewrite H.
  - unfold is_permutation. apply bool_decide_ext. split; intros H; now symmetry.
Qed.

(** X3.  The oracle passes exactly when the output is a sorted rearrangement
    of the input; it then gives no details, and otherwise gives the one
    reason [not_sorted_or_not_permutation], whichever of the two checks
    failed. *)
Theorem sort_correctness_oracle_verdict (inp out : list Z) :
  (fst (sort_correctness_oracle inp out) = true <->
   Sorted Z.le out /\ inp ≡ₚ out) /\
  snd (sort_correctness_oracle inp out) =
    (if fst (sort_correctness_oracle inp out) then []
     else [("reason", VStr "not_sorted_or_not_permutation")]).
Proof.
  unfold sort_correctness_oracle. cbn [fst snd andb].
  rewrite andb_true_iff, is_sorted_spec, is_permutation_spec.
  split; [reflexivity|].
  destruct (is_sorted out && is_permutation inp out); reflexivity.
Qed.

(** ** plugins.py *)

Section Sorts.

Context {Rng : Type} (rng : Rng).

Lemma buggy_quicksort_step (a : list Z) :
  buggy_quicksort a rng =
    if le_dec (length a) 1 then a
    else
      let pivot := item a (length a / 2) in
      buggy_quicksort (List.filter (fun x => x <? pivot) a) rng ++
      [pivot] ++
      buggy_quicksort (List.filter (fun x => pivot <? x) a) rng.
Proof.
  simp buggy_quicksort. destruct (le_dec (length a) 1); reflexivity.
Qed.

Lemma buggy_quicksort_elements (a : list Z) (x : Z) :
  x ∈ buggy_quicksort a rng <-> x ∈ a.
Proof.
  remember (length a) as n eqn:Hn. revert a Hn x.
  induction n as [n IH] using lt_wf_ind. intros a -> x.
  rewrite buggy_quicksort_step. destruct (le_dec (length a) 1) as [Hle|Hgt].
  { reflexivity. }
  cbv zeta. set (p := item a (length a / 2)).
  assert (Hin : In p a) by (apply pivot_in; lia).
  rewrite !elem_of_app, list_elem_of_singleton.
  rewrite (IH (length (List.filter (fun y => y <? p) a))), (IH (length (List.filter (fun y => p <? y) a)));
    try reflexivity;
    try (apply (filter_rejecting_shorter _ _ _ Hin), Z.ltb_irrefl).
  rewrite !list_elem_of_In, !filter_In, !Z.ltb_lt.
  split.
  - intros [[H _]|[->|[H _]]]; assumption.
  - intros H. destruct (Z.lt_trichotomy x p) as [Hl|[He|Hg]]; auto.
Qed.

Lemma buggy_quicksort_increasing (a : list Z) :
  StronglySorted Z.lt (buggy_quicksort a rng).
Proof.
  remember (length a) as n eqn:Hn. revert a Hn.
  induction n as [n IH] using lt_wf_ind. intros a ->.
  rewrite buggy_quicksort_step. destruct (le_dec (length a) 1) as [Hle|Hgt].
  { destruct a as [|x [|y a]]; simpl in Hle; try lia; repeat constructor. }
  cbv zeta. set (p := item a (length a / 2)).
  assert (Hin : In p a) by (apply pivot_in; lia).
  assert (Hlt : forall x, x ∈ buggy_quicksort (List.filter (fun x => x <? p) a) rng -> x < p).
  { intros x Hx. apply buggy_quicksort_elements, list_elem_of_In, filter_In in Hx. lia. }
  assert (Hgt' : forall x, x ∈ buggy_quicksort (List.filter (fun x => p <? x) a) rng -> p < x).
  { intros x Hx. apply buggy_quicksort_elements, list_elem_of_In, filter_In in Hx. lia. }
  apply StronglySorted_app_2; [| |apply StronglySorted_app_2].
  - intros x y Hx Hy. apply Hlt in Hx.
    apply elem_of_app in Hy as [Hy|Hy];
      [apply list_elem_of_singleton in Hy | apply Hgt' in Hy]; lia.
  - eapply IH; [|reflexivity].
    apply (filter_rejecting_shorter _ _ _ Hin), Z.ltb_irrefl.
  - intros x y Hx Hy. apply list_elem_of_singleton in Hx. apply Hgt' in Hy. lia.
  - repeat constructor.
  - eapply IH; [|reflexivity].
    apply (filter_rejecting_shorter _ _ _ Hin), Z.ltb_irrefl.
Qed.

Lemma increasing_NoDup (l : list Z) : StronglySorted Z.lt l -> NoDup l.
Proof.
  induction 1 as [|x l _ IH Hall]; constructor; [|exact IH].
  intros Hx. rewrite List.Forall_forall in Hall.
  apply list_elem_of_In, Hall in Hx. lia.
Qed.

Lemma increasing_nondecreasing (l : list Z) :
  StronglySorted Z.lt l -> StronglySorted Z.le l.
Proof.
  induction 1 as [|x l _ IH Hall]; constructor; [exact IH|].
  eapply List.Forall_impl; [|exact Hall]. intros y Hy. simpl in Hy. lia.
Qed.

(** X4.  [buggy_quicksort] returns the distinct values of its input in
    strictly increasing order: every value of the input once, whatever
    its number of occurrences. *)
Theorem buggy_quicksort_sorts_the_distinct_values (a : list Z) :
  StronglySorted Z.lt (buggy_quicksort a rng) /\
  (forall x, x ∈ buggy_quicksort a rng <-> x ∈ a) /\
  (length (buggy_quicksort a rng) <= length a)%nat.
Proof.
  split; [apply buggy_quicksort_increasing|].
  split; [apply buggy_quicksort_elements|].
  apply submseteq_length, NoDup_submseteq.
  - apply increasing_NoDup, buggy_quicksort_increasing.
  - intros x. apply buggy_quicksort_elements.
Qed.

(** X5.  The [sort_correctness] oracle accepts the output of [buggy_quicksort]
    exactly on the inputs without a repeated value. *)
Theorem buggy_quicksort_passes_iff_no_duplicate (a : list Z) :
  fst (sort_correctness_oracle a (buggy_quicksort a rng)) = true <-> NoDup a.
Proof.
  unfold sort_correctness_oracle. cbn [fst andb].
  rewrite andb_true_iff, is_sorted_spec, is_permutation_spec.
  pose proof (buggy_quicksort_increasing a) as Hs. split.
  - intros [_ Hp]. rewrite Hp. apply increasing_NoDup, Hs.
  - intros Hnd. split.
    + apply StronglySorted_Sorted, increasing_nondecreasing, Hs.
    + apply NoDup_Permutation; [assumption | apply increasing_NoDup, Hs|].
      intros x. symmetry. apply buggy_quicksort_elements.
Qed.

End Sorts.

(** X6.  [quicksort_3way] gives one output for all the rearrangements of a
    list, whatever the random source: the output depends on the values and
    their numbers of occurrences only.  Sorting twice changes nothing. *)
Theorem quicksort_3way_canonical {Rng Rng' : Type} (rng : Rng) (rng' : Rng')
    (a b : list Z) :
  a ≡ₚ b ->
  quicksort_3way a rng = quicksort_3way b rng' /\
  quicksort_3way (quicksort_3way a rng) rng' = quicksort_3way a rng.
Proof.
  intros Hp.
  assert (Hu : forall (R1 R2 : Type) (r1 : R1) (r2 : R2) (x y : list Z),
             x ≡ₚ y -> quicksort_3way x r1 = quicksort_3way y r2).
  { intros R1 R2 r1 r2 x y Hxy.
    apply (StronglySorted_unique Z.le); try apply quicksort_3way_sorted.
    rewrite <- !quicksort_3way_permutation. exact Hxy. }
  split; [apply Hu, Hp|].
  rewrite (Hu _ _ rng' rng (quicksort_3way a rng) a); [reflexivity|].
  symmetry. apply quicksort_3way_permutation.
Qed.

Lemma quicksort_3way_canonical_witness :
  quicksort_3way [3; 1; 2; 1] tt = quicksort_3way [1; 2; 3; 1] 7 /\
  quicksort_3way (quicksort_3way [3; 1; 2; 1] tt) 7 = quicksort_3way [3; 1; 2; 1] tt.
Proof.
  apply (quicksort_3way_canonical tt 7 [3; 1; 2; 1] [1; 2; 3; 1]).
  change [3; 1; 2; 1] with ([3] ++ [1; 2] ++ [1]).
  change [1; 2; 3; 1] with ([1; 2] ++ [3] ++ [1]).
  rewrite !app_assoc. apply Permutation_app_tail, Permutation_app_comm.
Defined.

(** ** core.py: the registries *)

(** X7.  Registering a plugin under a name makes the lookup of this name give
    this plugin, replacing an earlier plugin of the same name without
    notice; the other names of the registry and the two other registries
    are left as they were.  This holds for the three decorators. *)
Theorem register_then_lookup {Rng Inp Out : Type}
    (r : registries Rng Inp Out) (key key' : string)
    (g : generator Rng Inp) (o : oracle_fn Inp Out)
    (f : implementation Rng Inp Out) :
  (getitem (GEN_REGISTRY _ _ _ (register_generator _ _ _ key g r)) key' =
     if decide (key = key') then Ok g else getitem (GEN_REGISTRY _ _ _ r) key') /\
  ORACLE_REGISTRY _ _ _ (register_generator _ _ _ key g r) = ORACLE_REGISTRY _ _ _ r /\
  IMPL_REGISTRY _ _ _ (register_generator _ _ _ key g r) = IMPL_REGISTRY _ _ _ r /\
  (getitem (ORACLE_REGISTRY _ _ _ (register_oracle _ _ _ key o r)) key' =
     if decide (key = key') then Ok o else getitem (ORACLE_REGISTRY _ _ _ r) key') /\
  GEN_REGISTRY _ _ _ (register_oracle _ _ _ key o r) = GEN_REGISTRY _ _ _ r /\
  IMPL_REGISTRY _ _ _ (register_oracle _ _ _ key o r) = IMPL_REGISTRY _ _ _ r /\
  (getitem (IMPL_REGISTRY _ _ _ (register_impl _ _ _ key f r)) key' =
     if decide (key = key') then Ok f else getitem (IMPL_REGISTRY _ _ _ r) key') /\
  GEN_REGISTRY _ _ _ (register_impl _ _ _ key f r) = GEN_REGISTRY _ _ _ r /\
  ORACLE_REGISTRY _ _ _ (register_impl _ _ _ key f r) = ORACLE_REGISTRY _ _ _ r.
Proof.
  unfold getitem. cbn [register_generator register_oracle register_impl
                       GEN_REGISTRY ORACLE_REGISTRY IMPL_REGISTRY].
  repeat split; destruct (decide (key = key')) as [<-|Hne];
    rewrite ?lookup_insert_eq, ?lookup_insert_ne by assumption; reflexivity.
Qed.

(** ** core.py: more on [parallel_trials] *)

Section SampleFailures.

Context {Rng Inp Out : Type}.
Variable Random : Z -> Rng.
Variables (gen : generator Rng Inp) (orc : oracle_fn Inp Out)
          (impl : implementation Rng Inp Out).
Variables (c : Claim) (master_seed : string).
Variables (w : World) (workers : Z).

Lemma firstn_snoc_short {A : Type} (n : nat) (l : list A) (x : A) :
  (length (firstn n l) < n)%nat -> firstn n (l ++ [x]) = firstn n l ++ [x].
Proof.
  intros H. rewrite length_firstn in H.
  rewrite firstn_app, (firstn_all2 l) by lia.
  replace (n - length l)%nat with (S (n - length l - 1)) by lia.
  destruct (n - length l - 1)%nat; reflexivity.
Qed.

Lemma firstn_snoc_full {A : Type} (n : nat) (l : list A) (x : A) :
  ~ (length (firstn n l) < n)%nat -> firstn n (l ++ [x]) = firstn n l.
Proof.
  intros H. rewrite length_firstn in H.
  rewrite firstn_app. replace (n - length l)%nat with O by lia.
  apply app_nil_r.
Qed.

Lemma consume_sampled (stop : bool) (futs : list (result (TrialResult Inp Out))) :
  forall (st st' : locals Inp Out) (broke : bool),
  sampled st -> consume Inp Out stop futs st = Ok (st', broke) -> sampled st'.
Proof.
  induction futs as [|fut futs IH]; intros st st' broke Hst; simpl.
  - intros [= <- <-]. exact Hst.
  - destruct fut as [tr|e]; [|discriminate]. simpl.
    destruct (passed _ _ tr) eqn:Hp; simpl.
    + apply IH. unfold sampled in *. simpl.
      rewrite List.filter_app. simpl. unfold failing at 2. rewrite Hp. simpl.
      rewrite app_nil_r. exact Hst.
    + assert (Hnext : sampled
                {| st_failures := st_failures _ _ st + 1;
                   st_sample_failures :=
                     if (length (st_sample_failures _ _ st) <? 5)%nat
                     then st_sample_failures _ _ st ++ [tr]
                     else st_sample_failures _ _ st;
                   st_results := st_results _ _ st ++ [tr] |}).
      { unfold sampled in *. simpl.
        rewrite List.filter_app. simpl. unfold failing at 2. rewrite Hp. simpl.
        rewrite Hst.
        destruct (Nat.ltb_spec
                    (length (firstn 5 (List.filter (failing _ _) (st_results _ _ st)))) 5).
        - symmetry. apply firstn_snoc_short. assumption.
        - symmetry. apply firstn_snoc_full. lia. }
      destruct stop.
      * intros [= <- <-]. exact Hnext.
      * apply IH. exact Hnext.
Qed.

Lemma batches_sampled (n : nat) :
  forall (i : Z) (ran : list Z) (st st' : locals Inp Out),
  (Z.to_nat (trials c - i) <= n)%nat -> sampled st ->
  snd (batches Rng Inp Out Random gen orc impl c master_seed w workers i ran st)
    = Ok st' ->
  sampled st'.
Proof.
  induction n as [|n IH]; intros i ran st st' Hn Hst; rewrite batches_step.
  { destruct (Z_lt_dec i (trials c)); [lia|]. intros [= <-]. exact Hst. }
  destruct (Z_lt_dec i (trials c)) as [Hlt|]; [|intros [= <-]; exact Hst].
  cbv zeta.
  destruct (consume _ _ _ _ st) as [[st1 broke]|e] eqn:Hc; [|discriminate].
  apply consume_sampled in Hc; [|exact Hst].
  destruct (negb (st_failures _ _ st1 =? 0) && stop_on_first_failure c).
  - intros [= <-]. exact Hc.
  - apply IH; [|exact Hc]. unfold batch. destruct broke; lia.
Qed.

End SampleFailures.

Section EngineMore.

Context {Rng Inp Out : Type}.
Variable Random : Z -> Rng.
Variables (r : registries Rng Inp Out) (w : World) (c : Claim).
Variables (impl_name master_seed : string) (max_workers : Z).

Local Abbreviation the_run :=
  (parallel_trials Rng Inp Out Random r w c impl_name master_seed max_workers).
Local Abbreviation consumed :=
  (consumed_outcomes Rng Inp Out Random r w c impl_name master_seed max_workers).

(** What does not depend on the trials: the claim handed back and the
    commitment to the seed. *)
Lemma returned_commit (cr : ClaimResult Inp Out) :
  returned _ _ the_run = Ok cr ->
  claim _ _ cr = c /\
  rng_commit _ _ cr =
    Sha256.hexdigest
      (Sha256.update Sha256.new
         (encode (master_seed ++ "|" ++ claim_id c ++ "|" ++ impl_name))) /\
  sample_failures _ _ cr =
    match lookup_plugins Rng Inp Out r c impl_name with
    | Ok p =>
        match snd (trial_loop Rng Inp Out Random w c master_seed max_workers p) with
        | Ok st => st_sample_failures _ _ st
        | Raise _ => []
        end
    | Raise _ => []
    end.
Proof.
  unfold parallel_trials.
  destruct (lookup_plugins _ _ _ r c impl_name) as [p|e]; [|discriminate].
  destruct (trial_loop _ _ _ _ w c master_seed max_workers p) as [ran [st|e]];
    simpl; [|discriminate].
  destruct (rule_of_three_upper_bound _ _) as [u|e]; simpl; [|discriminate].
  intros [= <-]. simpl. auto.
Qed.

(** X8.  The result's [sample_failures] are the first five failing outcomes,
    in the order in which the aggregation loop received them; from the
    sixth failure on nothing is added. *)
Theorem sample_failures_are_the_first_five (cr : ClaimResult Inp Out) :
  returned _ _ the_run = Ok cr ->
  sample_failures _ _ cr = firstn 5 (List.filter (failing _ _) consumed) /\
  (length (sample_failures _ _ cr) <= 5)%nat.
Proof.
  intros Hret.
  assert (E : sample_failures _ _ cr =
              firstn 5 (List.filter (failing _ _) consumed)).
  { destruct (returned_commit cr Hret) as (_ & _ & ->).
    unfold consumed_outcomes.
    destruct (lookup_plugins _ _ _ r c impl_name) as [p|e]; [|reflexivity].
    unfold trial_loop.
    destruct (snd (batches _ _ _ _ _ _ _ _ _ _ _ _ _ _)) as [st|e] eqn:Hloop;
      [|reflexivity].
    eapply (batches_sampled _ _ _ _ _ _ _ _ (Z.to_nat (trials c))) in Hloop;
      [exact Hloop | lia | reflexivity]. }
  split; [exact E|]. rewrite E, length_firstn. lia.
Qed.

(** X9.  With an empty or negative budget no trial is run: the result counts
    no trial and no failure, and carries no bound. *)
Theorem empty_budget_runs_nothing p :
  lookup_plugins Rng Inp Out r c impl_name = Ok p -> trials c <= 0 ->
  pool_ran _ _ the_run = [] /\
  exists cr, returned _ _ the_run = Ok cr /\
    trials_run _ _ cr = 0 /\ failures _ _ cr = 0 /\
    sample_failures _ _ cr = [] /\ upper95_failure_prob _ _ cr = None.
Proof.
  intros Hp Hn. unfold parallel_trials, trial_loop. rewrite Hp, batches_step.
  destruct (Z_lt_dec 0 (trials c)); [lia|]. simpl.
  split; [reflexivity|]. eexists. split; [reflexivity|]. simpl. auto.
Qed.

(** X10.  The counts of a result are within the budget: the failures are among
    the trials counted, which are among the trials that the pool ran,
    which are at most [claim.trials].  The bound is absent exactly when
    a failure was counted or no trial was. *)
Theorem counts_within_budget (cr : ClaimResult Inp Out) :
  fair w -> returned _ _ the_run = Ok cr ->
  0 <= failures _ _ cr <= trials_run _ _ cr /\
  trials_run _ _ cr <= Z.of_nat (length (pool_ran _ _ the_run)) /\
  Z.of_nat (length (pool_ran _ _ the_run)) <= Z.max 0 (trials c) /\
  (upper95_failure_prob _ _ cr = None <->
   0 < failures _ _ cr \/ trials_run _ _ cr = 0).
Proof.
  intros Hfair Hret. destruct (returned_needs_plugins _ _ _ _ _ _ _ cr Hret) as [p Hp].
  destruct (run_shape Random r w c impl_name master_seed max_workers p Hfair Hp)
    as (k & Hk & Hran & Hsnd).
  destruct (snd (trial_loop _ _ _ _ w c master_seed max_workers p)) as [st|e].
  - destruct Hsnd as (_ & _ & Hf & Hsub & _ & _ & Hcr & _).
    destruct (Hcr cr Hret) as (Hn & Hfail & Hu).
    apply submseteq_length in Hsub. rewrite length_map in Hsub.
    unfold range in Hsub, Hran. rewrite length_seqZ in Hsub.
    rewrite Hran, length_seqZ, Hn, Hfail, Hf.
    pose proof (List.filter_length_le (failing Inp Out)
                  (consumed_outcomes Rng Inp Out Random r w c impl_name
                     master_seed max_workers)) as Hle.
    split; [lia|]. split; [lia|]. split; [lia|].
    rewrite rule_of_three_unfold in Hu. rewrite <- Hf.
    destruct (Z.eqb_spec (st_failures _ _ st) 0) as [E|E]; simpl in Hu.
    + destruct (Z.ltb_spec 0 (Z.of_nat (length
                 (consumed_outcomes Rng Inp Out Random r w c impl_name
                    master_seed max_workers)))) as [Hpos|Hpos].
      * destruct (PyFloat.of_int _) as [d|e']; [|discriminate].
        injection Hu as <-. split; [discriminate | lia].
      * injection Hu as <-. split; [lia | reflexivity].
    + injection Hu as <-. split; [lia | reflexivity].
  - destruct Hsnd as [Hr _]. rewrite Hr in Hret. discriminate.
Qed.

End EngineMore.

Lemma filter_length_Permutation {A : Type} (f : A -> bool) (l k : list A) :
  l ≡ₚ k -> length (List.filter f l) = length (List.filter f k).
Proof.
  induction 1 as [|x l k _ IH|x y l|l k m _ IH1 _ IH2]; simpl.
  - reflexivity.
  - destruct (f x); simpl; congruence.
  - destruct (f x), (f y); reflexivity.
  - congruence.
Qed.

(** X11.  Without early stop the verdict does not depend on the scheduling: two
    evaluations of a claim that differ in the completion order of the
    futures, the pool size and the clock count the same trials and the
    same failures, and give the same bound and the same commitment; the
    second returns whenever the first does. *)
Theorem verdict_independent_of_scheduling {Rng Inp Out : Type}
    (Random : Z -> Rng) (r : registries Rng Inp Out) (w1 w2 : World)
    (c : Claim) (impl_name master_seed : string) (workers1 workers2 : Z)
    (cr1 : ClaimResult Inp Out) :
  fair w1 -> fair w2 -> stop_on_first_failure c = false ->
  returned _ _ (parallel_trials Rng Inp Out Random r w1 c impl_name master_seed
                  workers1) = Ok cr1 ->
  exists cr2,
    returned _ _ (parallel_trials Rng Inp Out Random r w2 c impl_name master_seed
                    workers2) = Ok cr2 /\
    trials_run _ _ cr2 = trials_run _ _ cr1 /\
    failures _ _ cr2 = failures _ _ cr1 /\
    upper95_failure_prob _ _ cr2 = upper95_failure_prob _ _ cr1 /\
    rng_commit _ _ cr2 = rng_commit _ _ cr1 /\
    consumed_outcomes Rng Inp Out Random r w2 c impl_name master_seed workers2 ≡ₚ
      consumed_outcomes Rng Inp Out Random r w1 c impl_name master_seed workers1.
Proof.
  intros Hfair1 Hfair2 Hstop Hret1.
  destruct (returned_needs_plugins _ _ _ _ _ _ _ cr1 Hret1) as [p Hp].
  destruct (run_shape Random r w1 c impl_name master_seed workers1 p Hfair1 Hp)
    as (k1 & Hk1 & Hran1 & Hsnd1).
  destruct (run_shape Random r w2 c impl_name master_seed workers2 p Hfair2 Hp)
    as (k2 & Hk2 & Hran2 & Hsnd2).
  set (consumed1 := consumed_outcomes Rng Inp Out Random r w1 c impl_name
                      master_seed workers1) in *.
  set (consumed2 := consumed_outcomes Rng Inp Out Random r w2 c impl_name
                      master_seed workers2) in *.
  destruct (snd (trial_loop _ _ _ _ w1 c master_seed workers1 p)) as [st1|e1];
    [|destruct Hsnd1 as [Hr _]; rewrite Hr in Hret1; discriminate].
  destruct Hsnd1 as (_ & Hall1 & Hf1 & _ & Hfull1 & _ & Hcr1 & _).
  destruct (Hfull1 (or_introl Hstop)) as [Hperm1 ->].
  destruct (Hcr1 cr1 Hret1) as (Hn1 & Hfail1 & Hu1).
  destruct (snd (trial_loop _ _ _ _ w2 c master_seed workers2 p)) as [st2|e2].
  - destruct Hsnd2 as (_ & Hall2 & Hf2 & _ & Hfull2 & _ & _ & Hmk2).
    destruct (Hfull2 (or_introl Hstop)) as [Hperm2 ->].
    assert (Hperm : consumed2 ≡ₚ consumed1).
    { rewrite <- (omap_of_outcomes Random c master_seed p _ Hall2),
        <- (omap_of_outcomes Random c master_seed p _ Hall1).
      rewrite Hperm1, Hperm2. reflexivity. }
    assert (Hlen : length consumed2 = length consumed1)
      by (apply Permutation_length, Hperm).
    assert (Hst : st_failures _ _ st2 = st_failures _ _ st1).
    { rewrite Hf1, Hf2. f_equal. apply filter_length_Permutation, Hperm. }
    rewrite Hst, Hlen in Hmk2.
    destruct (Hmk2 _ Hu1) as (cr2 & Hret2 & Hn2 & Hfail2 & Hu2).
    exists cr2. split; [exact Hret2|].
    destruct (returned_commit _ _ _ _ _ _ _ cr1 Hret1) as (_ & -> & _).
    destruct (returned_commit _ _ _ _ _ _ _ cr2 Hret2) as (_ & -> & _).
    split; [congruence|]. split; [congruence|]. split; [congruence|].
    split; [reflexivity | exact Hperm].
  - exfalso. destruct Hsnd2 as (_ & j & Hj & Hraise).
    assert (Hin : j ∈ List.map (idx _ _) consumed1).
    { rewrite Hperm1. apply range_In. lia. }
    apply list_elem_of_fmap in Hin as (tr & -> & Htr).
    rewrite Forall_forall in Hall1. rewrite (Hall1 tr Htr) in Hraise.
    discriminate.
Qed.

(** ** core.py: seeds *)

Lemma encode_app (s1 s2 : string) : encode (s1 ++ s2) = encode s1 ++ encode s2.
Proof. induction s1 as [|ch s1 IH]; simpl; [reflexivity | now rewrite IH]. Qed.

(** X12.  The separator does not keep the master seed and the namespace apart:
    moving a [|] and what follows it from the end of the master seed to
    the start of the namespace gives the same seeds. *)
Theorem derive_seed_separator_is_ambiguous (a b ns : string) (idx : Z) :
  derive_seed (a ++ "|" ++ b) ns idx = derive_seed a (b ++ "|" ++ ns) idx.
Proof.
  unfold derive_seed, Sha256.digest, Sha256.update, Sha256.new.
  do 3 f_equal. rewrite !encode_app, <- !app_assoc. reflexivity.
Qed.

(** ** core.py: making a certificate *)

Section CertificateFacts.

Context {Inp Out : Type}.

Lemma make_certificate_loops (now : PyFloat.float) (program_hash machine : string)
    (claim_results : list (ClaimResult Inp Out)) :
  make_certificate now program_hash machine claim_results =
    {| certVersion := "1.0"; programHash := program_hash; machine := machine;
       createdAt := now;
       cert_claims := List.map claim_summary claim_results;
       cert_proofs :=
         List.concat
           (List.map (fun cr => List.map proof_summary (proofs (claim _ _ cr)))
              claim_results) |}.
Proof.
  unfold make_certificate. cbv zeta.
  assert (Hin : forall (ps : list ProofArtifact) (acc : list (list (string * pyval))),
            fold_left (fun out p => out ++ [proof_summary p]) ps acc =
              acc ++ List.map proof_summary ps).
  { induction ps as [|p ps IH]; intros acc; simpl.
    - now rewrite app_nil_r.
    - now rewrite IH, <- app_assoc. }
  assert (Hout : forall (crs : list (ClaimResult Inp Out)) cl pr,
            fold_left
              (fun '(claims_out, proofs_out) cr =>
                 (claims_out ++ [claim_summary cr],
                  fold_left (fun out p => out ++ [proof_summary p])
                    (proofs (claim _ _ cr)) proofs_out))
              crs (cl, pr) =
              (cl ++ List.map claim_summary crs,
               pr ++ List.concat
                       (List.map (fun cr => List.map proof_summary (proofs (claim _ _ cr)))
                          crs))).
  { induction crs as [|cr crs IH]; intros cl pr; simpl.
    - now rewrite !app_nil_r.
    - now rewrite IH, Hin, <- !app_assoc. }
  rewrite Hout. reflexivity.
Qed.

Lemma same_content_refl (v : pyval) : same_content v v.
Proof.
  induction v as [ |b|n|x|s|l IH|d IH] using pyval_nested_ind;
    try constructor.
  - induction IH; constructor; assumption.
  - apply (same_dict d d d); [reflexivity|].
    induction IH; constructor; auto.
Qed.

Lemma claim_summary_keys_distinct (cr : ClaimResult Inp Out) :
  keys_distinct (VDict (params (domain (claim _ _ cr)))) ->
  keys_distinct (VDict (claim_summary cr)).
Proof.
  intros Hp. unfold claim_summary. cbv zeta.
  apply keys_distinct_dict. split.
  { simpl. apply (bool_decide_unpack _). vm_compute. exact I. }
  repeat (apply Forall_cons_2; [cbn [snd]|]);
    try apply Forall_nil; try exact I;
    (apply keys_distinct_dict; split;
     [simpl; apply (bool_decide_unpack _); vm_compute; exact I|]);
    repeat (apply Forall_cons_2; [cbn [snd]|]);
    try apply Forall_nil; try exact Hp; try exact I.
  destruct (upper95_failure_prob _ _ cr); exact I.
Qed.

Lemma proof_summary_keys_distinct (p : ProofArtifact) :
  keys_distinct (VDict (proof_summary p)).
Proof.
  apply keys_distinct_dict. split.
  { simpl. apply (bool_decide_unpack _). vm_compute. exact I. }
  repeat (apply Forall_cons_2; [cbn [snd]|]); try apply Forall_nil; try exact I.
  destruct (hash p); exact I.
Qed.

Lemma claim_summary_same_content (cr1 cr2 : ClaimResult Inp Out) :
  same_evidence cr1 cr2 ->
  same_content (VDict (claim_summary cr1)) (VDict (claim_summary cr2)).
Proof.
  unfold same_evidence. cbv zeta.
  intros (H1 & H2 & H3 & H4 & H5 & H6 & H7 & H8 & _ & H10 & H11 & H12 & H13 & H14).
  unfold claim_summary. cbv zeta.
  rewrite H1, H2, H3, H5, H6, H7, H8, H10, H11, H12, H13, H14.
  eapply same_dict; [reflexivity|].
  repeat (constructor; [split; [reflexivity|]; cbn [snd]|]);
    try apply same_content_refl; [|constructor].
  eapply same_dict; [reflexivity|].
  constructor; [split; [reflexivity | apply same_content_refl]|].
  constructor; [split; [reflexivity | exact H4]|]. constructor.
Qed.

Lemma make_certificate_keys_distinct (now : PyFloat.float)
    (program_hash machine : string) (claim_results : list (ClaimResult Inp Out)) :
  Forall (fun cr => keys_distinct (VDict (params (domain (claim _ _ cr)))))
    claim_results ->
  certificate_keys_distinct
    (make_certificate now program_hash machine claim_results).
Proof.
  intros Hk. rewrite make_certificate_loops.
  unfold certificate_keys_distinct. cbn [cert_claims cert_proofs]. split.
  - apply Forall_fmap. eapply Forall_impl; [exact Hk|].
    intros cr. apply claim_summary_keys_distinct.
  - apply List.Forall_concat, Forall_fmap, Forall_forall. intros cr _.
    apply Forall_fmap, Forall_forall. intros p _.
    apply proof_summary_keys_distinct.
Qed.

(** X13.  A certificate made from claim results has one summary per result, in
    their order, and the proof artifacts of the claims one after the
    other; every dict in it has distinct keys when the domain parameters
    have. *)
Theorem make_certificate_contents (now : PyFloat.float)
    (program_hash machine : string) (claim_results : list (ClaimResult Inp Out)) :
  Forall (fun cr => keys_distinct (VDict (params (domain (claim _ _ cr)))))
    claim_results ->
  let cert := make_certificate now program_hash machine claim_results in
  certVersion cert = "1.0"%string /\
  cert_claims cert = List.map claim_summary claim_results /\
  length (cert_claims cert) = length claim_results /\
  cert_proofs cert =
    List.concat
      (List.map (fun cr => List.map proof_summary (proofs (claim _ _ cr)))
         claim_results) /\
  certificate_keys_distinct cert.
Proof.
  intros Hk cert. subst cert. rewrite make_certificate_loops.
  cbn [certVersion cert_claims cert_proofs].
  split; [reflexivity|]. split; [reflexivity|].
  split; [apply length_map|]. split; [reflexivity|].
  rewrite <- (make_certificate_loops now program_hash machine claim_results).
  apply make_certificate_keys_distinct, Hk.
Qed.

(** X14.  The hash of a made certificate does not depend on the order in which
    the domain parameters of its claims were inserted. *)
Theorem made_certificate_hash_ignores_params_order
    (float_repr : PyFloat.float -> string) (now : PyFloat.float)
    (program_hash machine : string)
    (results1 results2 : list (ClaimResult Inp Out)) :
  Forall (fun cr => keys_distinct (VDict (params (domain (claim _ _ cr)))))
    results1 ->
  Forall2 same_evidence results1 results2 ->
  certificate_hash float_repr (make_certificate now program_hash machine results1) =
  certificate_hash float_repr (make_certificate now program_hash machine results2).
Proof.
  intros Hk Hs. unfold certificate_hash.
  rewrite (dumps_same_content float_repr _
             (asdict (make_certificate now program_hash machine results2)));
    [reflexivity| |].
  - apply asdict_keys_distinct, make_certificate_keys_distinct, Hk.
  - apply asdict_same_content.
    rewrite !make_certificate_loops.
    unfold same_certificate.
    cbn -[claim_summary proof_summary].
    split; [reflexivity|]. split; [reflexivity|]. split; [reflexivity|].
    split; [reflexivity|]. split.
    + apply Forall2_fmap. eapply Forall2_impl; [exact Hs|].
      intros cr1 cr2. apply claim_summary_same_content.
    + assert (E : List.map (fun cr => List.map proof_summary (proofs (claim _ _ cr)))
                    results1 =
                  List.map (fun cr => List.map proof_summary (proofs (claim _ _ cr)))
                    results2).
      { clear Hk. induction Hs as [|cr1 cr2 l1 l2 H _ IH]; simpl.
        - reflexivity.
        - f_equal; [|exact IH].
          destruct H as (_ & _ & _ & _ & _ & _ & _ & _ & -> & _). reflexivity. }
      rewrite E. apply Forall2_same_length_lookup_2; [reflexivity|].
      intros i x y Hx Hy. rewrite Hx in Hy. injection Hy as <-.
      apply same_content_refl.
Qed.

End CertificateFacts.

(** ** anchoring.py and certificate.py: hashing a file *)

Lemma read_chunks_concat (size : nat) :
  (0 < size)%nat ->
  forall (turns : nat) (data : list Z),
  (length data < turns)%nat ->
  List.concat (read_chunks turns size data) = data.
Proof.
  intros Hsize. induction turns as [|turns IH]; intros data Hlen; [lia|].
  destruct size as [|size]; [lia|].
  destruct data as [|b data]; [reflexivity|].
  cbn [read_chunks firstn].
  change (List.concat (?x :: ?l)) with (x ++ List.concat l).
  rewrite IH.
  - apply (firstn_skipn (S size) (b :: data)).
  - rewrite length_skipn. simpl in *. lia.
Qed.

Lemma fold_update (chunks : list (list Z)) :
  forall h : Sha256.hasher,
  fold_left Sha256.update chunks h = h ++ List.concat chunks.
Proof.
  induction chunks as [|chunk chunks IH]; intros h; simpl.
  - now rewrite app_nil_r.
  - rewrite IH. unfold Sha256.update. now rewrite <- app_assoc.
Qed.

(** X15.  Reading a file in chunks of 8192 bytes gives the digest of the whole
    file: [sha256_hex] and [certificate_hash_bytes] agree on every path,
    also when there is no such file (then both raise), and what they
    return is [0x] followed by 64 lowercase hexadecimal digits. *)
Theorem sha256_hex_is_certificate_hash_bytes (fs : filesystem) (path : string) :
  sha256_hex fs path = certificate_hash_bytes fs path /\
  (forall h, sha256_hex fs path = Some h -> is_0x_digest h = true) /\
  (sha256_hex fs path = None <-> fs !! path = None).
Proof.
  unfold sha256_hex, certificate_hash_bytes.
  destruct (fs !! path) as [data|]; [|split; [reflexivity|split; [discriminate | tauto]]].
  cbv zeta. rewrite fold_update, read_chunks_concat;
    [|unfold chunk_size; lia | lia].
  split; [reflexivity|]. split.
  - intros h [= <-]. apply hexdigest_0x.
  - split; discriminate.
Qed.

(** ** aletheia_epicompiler.py: the instrumented sorts *)

Lemma skipn_item (l : list Z) :
  forall i, (i < length l)%nat -> skipn i l = item l i :: skipn (S i) l.
Proof.
  unfold item. induction l as [|x l IH]; intros [|i] Hi; simpl in *; try lia.
  - reflexivity.
  - apply IH. lia.
Qed.

Lemma merge_loop_step (left_ right_ : list Z) (s : Epi.merge_state) :
  Epi.merge_loop left_ right_ s =
    if lt_dec (Epi.m_i s) (length left_) then
      if lt_dec (Epi.m_j s) (length right_) then
        if item left_ (Epi.m_i s) <=? item right_ (Epi.m_j s) then
          Epi.merge_loop left_ right_
            {| Epi.m_i := S (Epi.m_i s); Epi.m_j := Epi.m_j s;
               Epi.m_out := Epi.m_out s ++ [item left_ (Epi.m_i s)];
               Epi.m_count := Epi.m_count s + 1 |}
        else
          Epi.merge_loop left_ right_
            {| Epi.m_i := Epi.m_i s; Epi.m_j := S (Epi.m_j s);
               Epi.m_out := Epi.m_out s ++ [item right_ (Epi.m_j s)];
               Epi.m_count := Epi.m_count s + 1 |}
      else s
    else s.
Proof.
  rewrite Epi.merge_loop_unfold_eq at 1.
  unfold Epi.merge_loop_unfold, Epi.merge_loop_unfold_clause_1,
    Epi.merge_loop_unfold_clause_1_clause_1.
  destruct (lt_dec (Epi.m_i s) (length left_)),
           (lt_dec (Epi.m_j s) (length right_)); reflexivity.
Qed.

Lemma pair_fst {A B : Type} (a : A) (b : B) : fst (a, b) = a.
Proof. reflexivity. Qed.

Lemma pair_snd {A B : Type} (a : A) (b : B) : snd (a, b) = b.
Proof. reflexivity. Qed.

Lemma merge_lists_nil_r (l : list Z) : Epi.merge_lists l [] = (l, 0).
Proof. destruct l; reflexivity. Qed.

Lemma merge_lists_nil_l (r : list Z) : Epi.merge_lists [] r = (r, 0).
Proof. destruct r; reflexivity. Qed.

Lemma merge_lists_cons (x y : Z) (l r : list Z) :
  Epi.merge_lists (x :: l) (y :: r) =
    if x <=? y then
      (x :: fst (Epi.merge_lists l (y :: r)), snd (Epi.merge_lists l (y :: r)) + 1)
    else
      (y :: fst (Epi.merge_lists (x :: l) r), snd (Epi.merge_lists (x :: l) r) + 1).
Proof. reflexivity. Qed.

(** The loop computes the merge of the unread parts. *)
Lemma merge_loop_spec (left_ right_ : list Z) (n : nat) :
  forall s : Epi.merge_state,
  ((length left_ - Epi.m_i s) + (length right_ - Epi.m_j s) <= n)%nat ->
  (Epi.m_i s <= length left_)%nat -> (Epi.m_j s <= length right_)%nat ->
  let s' := Epi.merge_loop left_ right_ s in
  let unread := Epi.merge_lists (skipn (Epi.m_i s) left_) (skipn (Epi.m_j s) right_) in
  Epi.m_out s' ++ skipn (Epi.m_i s') left_ ++ skipn (Epi.m_j s') right_ =
    Epi.m_out s ++ fst unread /\
  Epi.m_count s' = Epi.m_count s + snd unread /\
  (Epi.m_i s' = length left_ \/ Epi.m_j s' = length right_) /\
  (Epi.m_i s' <= length left_)%nat /\ (Epi.m_j s' <= length right_)%nat.
Proof.
  induction n as [|n IH]; intros s Hn Hi Hj; cbv zeta; rewrite merge_loop_step.
  - destruct (lt_dec (Epi.m_i s) (length left_)) as [Hl|Hl].
    + destruct (lt_dec (Epi.m_j s) (length right_)) as [Hr|Hr]; [lia|].
      assert (E : Epi.m_j s = length right_) by lia.
      rewrite E, skipn_all, merge_lists_nil_r, app_nil_r. simpl.
      split; [reflexivity|]. split; [lia|]. split; [right; reflexivity | lia].
    + assert (E : Epi.m_i s = length left_) by lia.
      rewrite E, skipn_all, merge_lists_nil_l. simpl.
      split; [reflexivity|]. split; [lia|]. split; [left; reflexivity | lia].
  - destruct (lt_dec (Epi.m_i s) (length left_)) as [Hl|Hl].
    + destruct (lt_dec (Epi.m_j s) (length right_)) as [Hr|Hr].
      * rewrite (skipn_item left_ _ Hl), (skipn_item right_ _ Hr).
        rewrite merge_lists_cons.
        destruct (item left_ (Epi.m_i s) <=? item right_ (Epi.m_j s)).
        -- destruct (IH {| Epi.m_i := S (Epi.m_i s); Epi.m_j := Epi.m_j s;
                           Epi.m_out := Epi.m_out s ++ [item left_ (Epi.m_i s)];
                           Epi.m_count := Epi.m_count s + 1 |})
             as (H1 & H2 & H3 & H4 & H5); [cbn [Epi.m_i Epi.m_j]; lia..|].
           cbn [Epi.m_i Epi.m_j Epi.m_out Epi.m_count] in H1, H2.
           rewrite (skipn_item right_ _ Hr) in H1, H2.
           rewrite H1, H2, <- app_assoc.
           rewrite ?pair_fst, ?pair_snd.
           split; [reflexivity|]. split; [lia|]. split; [assumption|].
           split; assumption.
        -- destruct (IH {| Epi.m_i := Epi.m_i s; Epi.m_j := S (Epi.m_j s);
                           Epi.m_out := Epi.m_out s ++ [item right_ (Epi.m_j s)];
                           Epi.m_count := Epi.m_count s + 1 |})
             as (H1 & H2 & H3 & H4 & H5); [cbn [Epi.m_i Epi.m_j]; lia..|].
           cbn [Epi.m_i Epi.m_j Epi.m_out Epi.m_count] in H1, H2.
           rewrite (skipn_item left_ _ Hl) in H1, H2.
           rewrite H1, H2, <- app_assoc.
           rewrite ?pair_fst, ?pair_snd.
           split; [reflexivity|]. split; [lia|]. split; [assumption|].
           split; assumption.
      * assert (E : Epi.m_j s = length right_) by lia.
        rewrite E, skipn_all, merge_lists_nil_r, app_nil_r. simpl.
        split; [reflexivity|]. split; [lia|]. split; [right; reflexivity | lia].
    + assert (E : Epi.m_i s = length left_) by lia.
      rewrite E, skipn_all, merge_lists_nil_l. simpl.
      split; [reflexivity|]. split; [lia|]. split; [left; reflexivity | lia].
Qed.

Lemma merge_is_merge_lists (left_ right_ : list Z) (cmp_counter : Z) :
  Epi.merge left_ right_ cmp_counter =
    (fst (Epi.merge_lists left_ right_),
     cmp_counter + snd (Epi.merge_lists left_ right_)).
Proof.
  unfold Epi.merge. cbv zeta.
  destruct (merge_loop_spec left_ right_
              (length left_ + length right_)
              {| Epi.m_i := 0; Epi.m_j := 0; Epi.m_out := [];
                 Epi.m_count := cmp_counter |})
    as (H1 & H2 & H3 & H4 & H5); [cbn [Epi.m_i Epi.m_j]; lia..|].
  cbn [Epi.m_i Epi.m_j Epi.m_out Epi.m_count] in H1, H2.
  rewrite !skipn_O in H1, H2. rewrite (List.app_nil_l _) in H1.
  set (s' := Epi.merge_loop left_ right_ _) in *.
  rewrite <- H1, H2. f_equal.
  destruct (Nat.ltb_spec (Epi.m_i s') (length left_)) as [Hl|Hl];
    destruct (Nat.ltb_spec (Epi.m_j s') (length right_)) as [Hr|Hr].
  - lia.
  - rewrite (skipn_all2 right_), app_nil_r by lia. reflexivity.
  - rewrite (skipn_all2 left_) by lia. reflexivity.
  - rewrite (skipn_all2 left_), (skipn_all2 right_), app_nil_r by lia. reflexivity.
Qed.

Lemma merge_lists_permutation (l : list Z) :
  forall r, fst (Epi.merge_lists l r) ≡ₚ l ++ r.
Proof.
  induction l as [|x l IHl]; intros r.
  - now rewrite merge_lists_nil_l.
  - induction r as [|y r IHr].
    + now rewrite merge_lists_nil_r, app_nil_r.
    + rewrite merge_lists_cons. destruct (x <=? y); rewrite pair_fst.
      * rewrite IHl. reflexivity.
      * rewrite IHr. apply Permutation_middle.
Qed.

Lemma merge_lists_sorted (l : list Z) :
  forall r, StronglySorted Z.le l -> StronglySorted Z.le r ->
  StronglySorted Z.le (fst (Epi.merge_lists l r)).
Proof.
  induction l as [|x l IHl]; intros r Hl Hr.
  - now rewrite merge_lists_nil_l.
  - induction r as [|y r IHr].
    + now rewrite merge_lists_nil_r.
    + rewrite merge_lists_cons.
      inversion Hl as [|? ? Hl' Hxl]; subst.
      inversion Hr as [|? ? Hr' Hyr]; subst.
      rewrite List.Forall_forall in Hxl, Hyr.
      destruct (Z.leb_spec x y) as [Hxy|Hxy]; rewrite pair_fst.
      * constructor; [apply IHl; assumption|].
        apply List.Forall_forall. intros z Hz.
        apply list_elem_of_In in Hz. rewrite merge_lists_permutation in Hz.
        apply elem_of_app in Hz as [Hz|Hz].
        -- apply Hxl, list_elem_of_In, Hz.
        -- apply elem_of_cons in Hz as [->|Hz]; [exact Hxy|].
           apply list_elem_of_In, Hyr in Hz. lia.
      * constructor; [apply IHr; assumption|].
        apply List.Forall_forall. intros z Hz.
        apply list_elem_of_In in Hz. rewrite merge_lists_permutation in Hz.
        apply elem_of_app in Hz as [Hz|Hz].
        -- apply elem_of_cons in Hz as [->|Hz]; [lia|].
           apply list_elem_of_In, Hxl in Hz. lia.
        -- apply Hyr, list_elem_of_In, Hz.
Qed.

(** A merge compares at least as often as the shorter list is long, and
    less often than the two lists are long together. *)
Lemma merge_lists_count (l : list Z) :
  forall r,
  Z.min (Z.of_nat (length l)) (Z.of_nat (length r)) <= snd (Epi.merge_lists l r) /\
  snd (Epi.merge_lists l r) <=
    Z.max 0 (Z.of_nat (length l) + Z.of_nat (length r) - 1).
Proof.
  induction l as [|x l IHl]; intros r.
  - rewrite merge_lists_nil_l. simpl. lia.
  - induction r as [|y r IHr].
    + rewrite merge_lists_nil_r. simpl. lia.
    + rewrite merge_lists_cons. destruct (x <=? y); rewrite pair_snd.
      * specialize (IHl (y :: r)). simpl length in *. lia.
      * simpl length in *. lia.
Qed.

Lemma mergesort_with_counts_step (a : list Z) (cmp_counter : Z) :
  Epi.mergesort_with_counts a cmp_counter =
    if le_dec (length a) 1 then (a, cmp_counter)
    else
      let mid := (length a / 2)%nat in
      let l := Epi.mergesort_with_counts (firstn mid a) cmp_counter in
      let r := Epi.mergesort_with_counts (skipn mid a) (snd l) in
      Epi.merge (fst l) (fst r) (snd r).
Proof.
  rewrite Epi.mergesort_with_counts_unfold_eq at 1.
  unfold Epi.mergesort_with_counts_unfold, Epi.mergesort_with_counts_unfold_clause_1.
  destruct (le_dec (length a) 1); reflexivity.
Qed.

Lemma log2_up_half (n h : Z) :
  2 <= n -> 1 <= h -> 2 * h <= n + 1 -> Z.log2_up h <= Z.log2_up n - 1.
Proof.
  intros Hn Hh Hhalf.
  apply Z.log2_up_le_pow2; [lia|].
  pose proof (Z.log2_up_spec n ltac:(lia)) as [_ Hup].
  pose proof (Z.log2_up_pos n ltac:(lia)) as Hpos.
  replace (Z.log2_up n) with (Z.succ (Z.log2_up n - 1)) in Hup by lia.
  rewrite Z.pow_succ_r in Hup by lia. lia.
Qed.

(** What [mergesort_with_counts] returns for a list of at most [n]
    elements. *)
Lemma mergesort_with_counts_spec (n : nat) :
  forall (a : list Z) (cmp_counter : Z),
  (length a <= n)%nat ->
  StronglySorted Z.le (fst (Epi.mergesort_with_counts a cmp_counter)) /\
  a ≡ₚ fst (Epi.mergesort_with_counts a cmp_counter) /\
  cmp_counter <= snd (Epi.mergesort_with_counts a cmp_counter) /\
  snd (Epi.mergesort_with_counts a cmp_counter) <=
    cmp_counter + Z.of_nat (length a) * Z.log2_up (Z.of_nat (length a)).
Proof.
  induction n as [|n IH]; intros a c Hn; rewrite mergesort_with_counts_step.
  - destruct a; [|simpl in Hn; lia]. simpl.
    split; [constructor|]. split; [reflexivity|]. lia.
  - destruct (le_dec (length a) 1) as [Hle|Hgt].
    { destruct a as [|x [|y a]]; simpl in Hle; [| |lia].
      - cbn [fst snd length]. split; [constructor|]. split; [reflexivity|]. lia.
      - cbn [fst snd length]. split; [repeat constructor|].
        split; [reflexivity|]. change (Z.log2_up (Z.of_nat 1)) with 0. lia. }
    cbv zeta. set (mid := (length a / 2)%nat).
    assert (Hmid : (0 < mid < length a)%nat).
    { split; [apply Nat.div_str_pos; lia | apply Nat.div_lt; lia]. }
    assert (Hmid2 : (2 * mid <= length a <= 2 * mid + 1)%nat).
    { pose proof (Nat.div_mod_eq (length a) 2) as E.
      pose proof (Nat.mod_upper_bound (length a) 2 ltac:(lia)). fold mid in E. lia. }
    assert (H1 : length (firstn mid a) = mid) by (rewrite length_firstn; lia).
    assert (H2 : length (skipn mid a) = (length a - mid)%nat) by apply length_skipn.
    destruct (IH (firstn mid a) c ltac:(lia)) as (Hs1 & Hp1 & Hc1 & Hb1).
    set (l := Epi.mergesort_with_counts (firstn mid a) c) in *.
    destruct (IH (skipn mid a) (snd l) ltac:(lia)) as (Hs2 & Hp2 & Hc2 & Hb2).
    set (r := Epi.mergesort_with_counts (skipn mid a) (snd l)) in *.
    rewrite merge_is_merge_lists, pair_fst, pair_snd.
    pose proof (merge_lists_count (fst l) (fst r)) as [Hlow Hup].
    assert (Hl1 : length (fst l) = mid) by (rewrite <- Hp1; exact H1).
    assert (Hl2 : length (fst r) = (length a - mid)%nat) by (rewrite <- Hp2; exact H2).
    rewrite Hl1, Hl2 in Hlow, Hup. rewrite H1 in Hb1. rewrite H2 in Hb2.
    split; [apply merge_lists_sorted; assumption|].
    split.
    { rewrite merge_lists_permutation, <- Hp1, <- Hp2, firstn_skipn. reflexivity. }
    split; [lia|].
    set (N := Z.of_nat (length a)) in *.
    set (K := Z.log2_up N).
    assert (HK1 : Z.log2_up (Z.of_nat mid) <= K - 1)
      by (apply log2_up_half; unfold N; lia).
    assert (HK2 : Z.log2_up (Z.of_nat (length a - mid)) <= K - 1)
      by (apply log2_up_half; unfold N; lia).
    pose proof (Z.log2_up_nonneg (Z.of_nat mid)).
    pose proof (Z.log2_up_nonneg (Z.of_nat (length a - mid))).
    assert (Z.of_nat mid * Z.log2_up (Z.of_nat mid) <= Z.of_nat mid * (K - 1))
      by (apply Z.mul_le_mono_nonneg_l; lia).
    assert (Z.of_nat (length a - mid) * Z.log2_up (Z.of_nat (length a - mid))
            <= Z.of_nat (length a - mid) * (K - 1))
      by (apply Z.mul_le_mono_nonneg_l; lia).
    assert (E : Z.of_nat mid * (K - 1) + Z.of_nat (length a - mid) * (K - 1)
                = N * K - N) by (unfold N; nia).
    lia.
Qed.

(** X16.  [mergesort_with_counts] returns the sorted rearrangement of its input,
    the list that [quicksort_3way] returns, whatever the counter holds. *)
Theorem mergesort_with_counts_sorts {Rng : Type} (rng : Rng)
    (a : list Z) (cmp_counter : Z) :
  Sorted Z.le (fst (Epi.mergesort_with_counts a cmp_counter)) /\
  a ≡ₚ fst (Epi.mergesort_with_counts a cmp_counter) /\
  fst (Epi.mergesort_with_counts a cmp_counter) = quicksort_3way a rng.
Proof.
  destruct (mergesort_with_counts_spec (length a) a cmp_counter (le_n _))
    as (Hs & Hp & _).
  split; [apply StronglySorted_Sorted, Hs|]. split; [exact Hp|].
  apply (StronglySorted_unique Z.le);
    [exact Hs | apply quicksort_3way_sorted|].
  rewrite <- Hp. apply quicksort_3way_permutation.
Qed.

(** X17.  [mergesort_with_counts] adds to the counter the number of its
    comparisons, which is at most [n * ceil(log2 n)] for a list of [n]
    elements; the counter never decreases. *)
Theorem mergesort_with_counts_comparisons (a : list Z) (cmp_counter : Z) :
  cmp_counter <= snd (Epi.mergesort_with_counts a cmp_counter) /\
  snd (Epi.mergesort_with_counts a cmp_counter) <=
    cmp_counter + Z.of_nat (length a) * Z.log2_up (Z.of_nat (length a)).
Proof.
  destruct (mergesort_with_counts_spec (length a) a cmp_counter (le_n _))
    as (_ & _ & Hlow & Hup).
  split; assumption.
Qed.

Lemma partition3_counts (pivot : Z) (a : list Z) :
  forall s : Epi.partition_state,
  Epi.p_count (fold_left (Epi.partition3_step pivot) a s) =
    Epi.p_count s + Z.of_nat (length a) +
    Z.of_nat (length (List.filter (fun x => negb (x <? pivot)) a)).
Proof.
  induction a as [|x a IH]; intros s; cbn [fold_left List.filter length].
  - lia.
  - rewrite IH. unfold Epi.partition3_step.
    destruct (x <? pivot); [|destruct (x =? pivot)];
      cbn [Epi.p_count negb length]; lia.
Qed.

Lemma not_less_split (p : Z) (a : list Z) :
  length (List.filter (fun x => negb (x <? p)) a) =
    (length (List.filter (fun x => (x =? p)%Z) a) +
     length (List.filter (fun x => (p <? x)%Z) a))%nat.
Proof.
  induction a as [|x a IHa]; [reflexivity|]. simpl.
  destruct (Z.ltb_spec x p), (Z.eqb_spec x p), (Z.ltb_spec p x);
    try lia; simpl; lia.
Qed.

Lemma not_less_all (p : Z) (a : list Z) :
  (forall x, In x a -> x = p) ->
  List.filter (fun x => negb (x <? p)) a = a.
Proof.
  induction a as [|x a IHa]; intros Hp; [reflexivity|]. simpl.
  rewrite (Hp x (or_introl eq_refl)), Z.ltb_irrefl. simpl. f_equal.
  apply IHa. intros y Hy. apply Hp. right. exact Hy.
Qed.

Lemma quicksort3_with_counts_step (a : list Z) (cmp_counter : Z) :
  Epi.quicksort3_with_counts a cmp_counter =
    if le_dec (length a) 1 then (a, cmp_counter)
    else
      let pivot := item a (length a / 2) in
      let parts := Epi.partition3 pivot a cmp_counter in
      let l := Epi.quicksort3_with_counts (Epi.p_lt parts) (Epi.p_count parts) in
      let g := Epi.quicksort3_with_counts (Epi.p_gt parts) (snd l) in
      (fst l ++ Epi.p_eq parts ++ fst g, snd g).
Proof.
  rewrite Epi.quicksort3_with_counts_unfold_eq at 1.
  unfold Epi.quicksort3_with_counts_unfold,
    Epi.quicksort3_with_counts_unfold_clause_1.
  destruct (le_dec (length a) 1); reflexivity.
Qed.

(** What [quicksort3_with_counts] returns for a list of at most [n]
    elements. *)
Lemma quicksort3_with_counts_spec {Rng : Type} (rng : Rng) (n : nat) :
  forall (a : list Z) (cmp_counter : Z),
  (length a <= n)%nat ->
  fst (Epi.quicksort3_with_counts a cmp_counter) = quicksort_3way a rng /\
  cmp_counter <= snd (Epi.quicksort3_with_counts a cmp_counter) /\
  snd (Epi.quicksort3_with_counts a cmp_counter) <=
    cmp_counter + Z.of_nat (length a) * Z.of_nat (length a) + Z.of_nat (length a) /\
  ((2 <= length a)%nat ->
   cmp_counter + Z.of_nat (length a) + 1 <=
     snd (Epi.quicksort3_with_counts a cmp_counter)).
Proof.
  induction n as [|n IH]; intros a c Hn;
    rewrite quicksort3_with_counts_step, quicksort_3way_step.
  - destruct (le_dec (length a) 1); [|lia]. cbn [fst snd].
    split; [reflexivity|]. nia.
  - destruct (le_dec (length a) 1) as [Hle|Hgt].
    { cbn [fst snd]. split; [reflexivity|]. nia. }
    cbv zeta. set (p := item a (length a / 2)).
    assert (Hin : In p a) by (apply pivot_in; lia).
    destruct (Epi.partition3_lists p a c) as (Elt & Eeq & Egt).
    pose proof (partition3_counts p a
                  {| Epi.p_lt := []; Epi.p_eq := []; Epi.p_gt := [];
                     Epi.p_count := c |}) as Ecount.
    fold (Epi.partition3 p a c) in Ecount. cbn [Epi.p_count] in Ecount.
    set (parts := Epi.partition3 p a c) in *.
    rewrite Elt, Eeq, Egt.
    pose proof (Permutation_length (three_way_split p a)) as Hlen.
    rewrite !length_app in Hlen.
    assert (Heq1 : (1 <= length (List.filter (fun x => (x =? p)%Z) a))%nat).
    { assert (Hp : In p (List.filter (fun x => x =? p) a))
        by (apply filter_In; split; [exact Hin | apply Z.eqb_refl]).
      destruct (List.filter (fun x => x =? p) a); [destruct Hp | simpl; lia]. }
    assert (Hge : (length (List.filter (fun x => negb (x <? p)%Z) a) =
                   length (List.filter (fun x => (x =? p)%Z) a) +
                   length (List.filter (fun x => (p <? x)%Z) a))%nat).
    { apply not_less_split. }
    destruct (IH (List.filter (fun x => x <? p) a) (Epi.p_count parts) ltac:(lia))
      as (F1 & L1 & U1 & _).
    set (l := Epi.quicksort3_with_counts (List.filter (fun x => x <? p) a)
                (Epi.p_count parts)) in *.
    destruct (IH (List.filter (fun x => p <? x) a) (snd l) ltac:(lia))
      as (F2 & L2 & U2 & _).
    set (g := Epi.quicksort3_with_counts (List.filter (fun x => p <? x) a) (snd l))
      in *.
    cbn [fst snd]. rewrite F1, F2. split; [reflexivity|].
    split; [lia|]. split; [nia | lia].
Qed.

(** X18.  [quicksort3_with_counts] returns the list that [quicksort_3way]
    returns: counting the comparisons does not change the result. *)
Theorem quicksort3_with_counts_sorts {Rng : Type} (rng : Rng)
    (a : list Z) (cmp_counter : Z) :
  fst (Epi.quicksort3_with_counts a cmp_counter) = quicksort_3way a rng.
Proof. apply (quicksort3_with_counts_spec rng (length a)), le_n. Qed.

(** X19.  The counter of [quicksort3_with_counts] never decreases.  A list of
    [n >= 2] elements costs more than [n] and at most [n * n + n]
    comparisons; [n] equal elements cost [2 * n], and a list of fewer than
    two elements costs nothing. *)
Theorem quicksort3_with_counts_comparisons (a : list Z) (cmp_counter : Z) :
  cmp_counter <= snd (Epi.quicksort3_with_counts a cmp_counter)
    <= cmp_counter + Z.of_nat (length a) * Z.of_nat (length a)
       + Z.of_nat (length a) /\
  (Z.of_nat (length a) <= 1 ->
   snd (Epi.quicksort3_with_counts a cmp_counter) = cmp_counter) /\
  (2 <= Z.of_nat (length a) ->
   cmp_counter + Z.of_nat (length a)
     < snd (Epi.quicksort3_with_counts a cmp_counter)) /\
  (2 <= Z.of_nat (length a) -> (forall x, In x a -> x = item a 0) ->
   snd (Epi.quicksort3_with_counts a cmp_counter)
     = cmp_counter + 2 * Z.of_nat (length a)).
Proof.
  destruct (quicksort3_with_counts_spec tt (length a) a cmp_counter (le_n _))
    as (_ & Hlow & Hup & Hmore).
  split; [lia|]. split; [|split].
  - intros Hn. rewrite quicksort3_with_counts_step.
    destruct (le_dec (length a) 1); [reflexivity | lia].
  - intros Hn. specialize (Hmore ltac:(lia)). lia.
  - intros Hn Hall. rewrite quicksort3_with_counts_step.
    destruct (le_dec (length a) 1); [lia|]. cbv zeta.
    set (p := item a (length a / 2)).
    assert (Hin : In p a) by (apply pivot_in; lia).
    assert (Hp : forall x, In x a -> x = p).
    { intros x Hx. rewrite (Hall x Hx), (Hall p Hin). reflexivity. }
    destruct (Epi.partition3_lists p a cmp_counter) as (Elt & _ & Egt).
    pose proof (partition3_counts p a
                  {| Epi.p_lt := []; Epi.p_eq := []; Epi.p_gt := [];
                     Epi.p_count := cmp_counter |}) as Ecount.
    fold (Epi.partition3 p a cmp_counter) in Ecount. cbn [Epi.p_count] in Ecount.
    set (parts := Epi.partition3 p a cmp_counter) in *.
    assert (Hlt : List.filter (fun x => x <? p) a = []).
    { apply filter_none, List.Forall_forall. intros x Hx.
      rewrite (Hp x Hx). apply Z.ltb_irrefl. }
    assert (Hgt : List.filter (fun x => p <? x) a = []).
    { apply filter_none, List.Forall_forall. intros x Hx.
      rewrite (Hp x Hx). apply Z.ltb_irrefl. }
    assert (Hall2 : List.filter (fun x => negb (x <? p)) a = a).
    { apply not_less_all, Hp. }
    rewrite Elt, Egt, Hlt, Hgt.
    rewrite (quicksort3_with_counts_step [] _). cbn [length fst snd].
    destruct (le_dec 0 1); [|lia].
    rewrite (quicksort3_with_counts_step [] _). cbn [length fst snd].
    destruct (le_dec 0 1); [|lia]. cbn [snd].
    rewrite Ecount, Hall2. lia.
Qed.

(** ** aletheia_epicompiler.py: falsification *)

Section FalsifyFacts.

Context {G : Type}.
Variable sort_fn : list Z -> list Z.
Variable gen : G -> list Z * G.

Local Abbreviation found t arr :=
  [("ok", VBool false); ("trial", VInt t);
   ("counterexample", Epi.ints arr); ("output", Epi.ints (sort_fn arr))].

Lemma falsify_loop_step (t : Z) (ts : list Z) (g : G) :
  Epi.falsify_loop G sort_fn gen (t :: ts) g =
    if Epi.accepted sort_fn (fst (gen g))
    then Epi.falsify_loop G sort_fn gen ts (snd (gen g))
    else (Some (found t (fst (gen g))), snd (gen g)).
Proof.
  cbn [Epi.falsify_loop]. unfold Epi.accepted.
  destruct (gen g) as [arr g']. cbn [fst snd].
  destruct (is_sorted (sort_fn arr) && is_permutation arr (sort_fn arr));
    reflexivity.
Qed.

Lemma falsify_loop_none (ts : list Z) :
  forall g : G,
  Forall (fun arr => Epi.accepted sort_fn arr = true)
    (Epi.draws gen (length ts) g) ->
  fst (Epi.falsify_loop G sort_fn gen ts g) = None.
Proof.
  induction ts as [|t ts IH]; intros g Hall; [reflexivity|].
  rewrite falsify_loop_step. cbn [length Epi.draws] in Hall.
  apply Forall_cons_1 in Hall as [Hd Hall]. rewrite Hd. apply IH, Hall.
Qed.

Lemma falsify_loop_first (ts : list Z) :
  forall (g : G) (k : nat) (t : Z) (arr : list Z),
  ts !! k = Some t ->
  Epi.draws gen (length ts) g !! k = Some arr ->
  Epi.accepted sort_fn arr = false ->
  (forall j arr', (j < k)%nat ->
     Epi.draws gen (length ts) g !! j = Some arr' ->
     Epi.accepted sort_fn arr' = true) ->
  fst (Epi.falsify_loop G sort_fn gen ts g) = Some (found t arr).
Proof.
  induction ts as [|t0 ts IH]; intros g k t arr Ht Hk Hbad Hbefore;
    [discriminate|].
  rewrite falsify_loop_step. cbn [length Epi.draws] in Hk, Hbefore.
  destruct k as [|k].
  - injection Ht as <-. injection Hk as <-. rewrite Hbad. reflexivity.
  - rewrite (Hbefore O (fst (gen g))); [|lia | reflexivity].
    apply (IH _ k); try assumption.
    intros j arr' Hj Harr. apply (Hbefore (S j)); [lia | exact Harr].
Qed.

(** X20.  When the sort handles every generated array, [falsify_sort] reports
    [ok] with the budget as the trial number; so does it for an empty or
    negative budget, where no array is generated. *)
Theorem falsify_sort_passes (trials : Z) (g : G) :
  Forall (fun arr => Epi.accepted sort_fn arr = true)
    (Epi.draws gen (Z.to_nat trials) g) ->
  fst (Epi.falsify_sort G sort_fn gen trials g) =
    [("ok", VBool true); ("trial", VInt trials)].
Proof.
  intros Hall. unfold Epi.falsify_sort.
  pose proof (falsify_loop_none (range 1 (trials + 1)) g) as Hnone.
  unfold range in Hnone at 1. rewrite length_seqZ in Hnone.
  replace (trials + 1 - 1) with trials in Hnone by lia.
  specialize (Hnone Hall).
  destruct (Epi.falsify_loop G sort_fn gen (range 1 (trials + 1)) g) as [[d|] g'];
    [discriminate | reflexivity].
Qed.

(** X21.  [falsify_sort] stops at the first generated array that the sort
    mishandles: it reports the number of this trial, counted from 1, the
    array, and what the sort returned for it. *)
Theorem falsify_sort_reports_first_counterexample
    (trials : Z) (g : G) (k : nat) (arr : list Z) :
  Epi.draws gen (Z.to_nat trials) g !! k = Some arr ->
  Epi.accepted sort_fn arr = false ->
  (forall j arr', (j < k)%nat ->
     Epi.draws gen (Z.to_nat trials) g !! j = Some arr' ->
     Epi.accepted sort_fn arr' = true) ->
  fst (Epi.falsify_sort G sort_fn gen trials g) =
    [("ok", VBool false); ("trial", VInt (Z.of_nat k + 1));
     ("counterexample", Epi.ints arr); ("output", Epi.ints (sort_fn arr))].
Proof.
  intros Hk Hbad Hbefore. unfold Epi.falsify_sort.
  assert (Hlen : length (range 1 (trials + 1)) = Z.to_nat trials).
  { unfold range. rewrite length_seqZ. f_equal. lia. }
  assert (Hkt : (k < Z.to_nat trials)%nat).
  { apply lookup_lt_Some in Hk.
    assert (Hd : forall n g0, length (Epi.draws gen n g0) = n)
      by (induction n; intros; simpl; auto).
    rewrite Hd in Hk. exact Hk. }
  pose proof (falsify_loop_first (range 1 (trials + 1)) g k (Z.of_nat k + 1) arr)
    as Hfirst.
  rewrite Hlen in Hfirst.
  assert (Ht : range 1 (trials + 1) !! k = Some (Z.of_nat k + 1)).
  { unfold range. rewrite lookup_seqZ. split; lia. }
  specialize (Hfirst Ht Hk Hbad Hbefore).
  destruct (Epi.falsify_loop G sort_fn gen (range 1 (trials + 1)) g)
    as [[d|] g']; cbn [fst] in Hfirst; [|discriminate].
  injection Hfirst as ->. reflexivity.
Qed.

End FalsifyFacts.

(** X22.  [compare_counts] starts both counters at zero and returns the
    comparisons of the quicksort first, of the mergesort second: nothing
    for a list of fewer than two elements; otherwise more than [n] and at
    most [n * n + n] for the quicksort, and at most [n * ceil(log2 n)] for
    the mergesort. *)
Theorem compare_counts_bounds (a : list Z) :
  0 <= fst (Epi.compare_counts a)
    <= Z.of_nat (length a) * Z.of_nat (length a) + Z.of_nat (length a) /\
  0 <= snd (Epi.compare_counts a)
    <= Z.of_nat (length a) * Z.log2_up (Z.of_nat (length a)) /\
  (Z.of_nat (length a) <= 1 -> Epi.compare_counts a = (0, 0)) /\
  (2 <= Z.of_nat (length a) -> Z.of_nat (length a) < fst (Epi.compare_counts a)).
Proof.
  unfold Epi.compare_counts. cbv zeta. cbn [fst snd].
  destruct (quicksort3_with_counts_spec tt (length a) a 0 (le_n _))
    as (_ & Hq1 & Hq2 & Hq3).
  destruct (mergesort_with_counts_spec (length a) a 0 (le_n _))
    as (_ & _ & Hm1 & Hm2).
  split; [lia|]. split; [lia|]. split.
  - intros Hn. rewrite quicksort3_with_counts_step, mergesort_with_counts_step.
    destruct (le_dec (length a) 1); [reflexivity | lia].
  - intros Hn. specialize (Hq3 ltac:(lia)). lia.
Qed.

(** ** aletheia_epicompiler.py: its rule of three *)

(** X23.  The rule of three of this file has no guard on the trial count: with
    no failure and no trial it raises [ZeroDivisionError], where the one
    of core.py returns [None].  With a failure it returns a NaN, and for
    a positive count it does what the one of core.py does, the overflow
    of [float(n)] included. *)
Theorem epicompiler_rule_of_three_divides_by_zero (no_failures n : Z) :
  (no_failures = 0 -> n = 0 ->
   Epi.rule_of_three_upper_bound no_failures n = Raise ZeroDivisionError /\
   rule_of_three_upper_bound no_failures n = Ok None) /\
  (no_failures <> 0 -> Epi.rule_of_three_upper_bound no_failures n = Ok S754_nan) /\
  (no_failures = 0 -> 0 < n ->
   match rule_of_three_upper_bound no_failures n with
   | Ok (Some q) => Epi.rule_of_three_upper_bound no_failures n = Ok q
   | Ok None => False
   | Raise e => Epi.rule_of_three_upper_bound no_failures n = Raise e
   end).
Proof.
  split; [|split].
  - intros -> ->. split; reflexivity.
  - intros Hf. unfold Epi.rule_of_three_upper_bound.
    destruct (Z.eqb_spec no_failures 0); [contradiction | reflexivity].
  - intros -> Hn. rewrite rule_of_three_unfold.
    unfold Epi.rule_of_three_upper_bound. cbn [Z.eqb andb].
    destruct (Z.ltb_spec 0 n); [|lia].
    destruct (PyFloat.of_int n) as [d|e] eqn:Hd; cbn [bind]; [|reflexivity].
    destruct (of_int_positive n d Hn Hd) as (m & e & ->). reflexivity.
Qed.

(** ** core.py: early stop *)

Section EarlyStop.

Context {Rng Inp Out : Type}.
Variable Random : Z -> Rng.
Variables (gen : generator Rng Inp) (orc : oracle_fn Inp Out)
          (impl : implementation Rng Inp Out).
Variables (c : Claim) (master_seed : string).
Variables (w : World) (workers : Z).

Lemma consume_stops (futs : list (result (TrialResult Inp Out))) :
  forall (st st' : locals Inp Out) (broke : bool),
  clean st -> consume Inp Out true futs st = Ok (st', broke) ->
  if broke then stopped st' else clean st'.
Proof.
  induction futs as [|fut futs IH]; intros st st' broke Hst; simpl.
  - intros [= <- <-]. exact Hst.
  - destruct fut as [tr|e]; [|discriminate]. simpl.
    destruct Hst as (Hf & Hs & Hall).
    destruct (passed _ _ tr) eqn:Hp; simpl.
    + apply IH. split; [exact Hf|]. split; [exact Hs|].
      simpl. apply Forall_app. split; [exact Hall|].
      constructor; [exact Hp | constructor].
    + intros [= <- <-]. split; [simpl; lia|].
      exists (st_results _ _ st), tr. simpl. rewrite Hs. simpl.
      split; [reflexivity|]. split; [exact Hall|]. split; [exact Hp | reflexivity].
Qed.

Lemma batches_stops (n : nat) :
  forall (i : Z) (ran : list Z) (st st' : locals Inp Out),
  (Z.to_nat (trials c - i) <= n)%nat ->
  stop_on_first_failure c = true -> clean st ->
  snd (batches Rng Inp Out Random gen orc impl c master_seed w workers i ran st)
    = Ok st' ->
  clean st' \/ stopped st'.
Proof.
  induction n as [|n IH]; intros i ran st st' Hn Hstop Hst; rewrite batches_step.
  { destruct (Z_lt_dec i (trials c)); [lia|]. intros [= <-]. left. exact Hst. }
  destruct (Z_lt_dec i (trials c)) as [Hlt|]; [|intros [= <-]; left; exact Hst].
  cbv zeta. rewrite Hstop.
  destruct (consume _ _ _ _ st) as [[st1 broke]|e] eqn:Hc; [|discriminate].
  apply consume_stops in Hc; [|exact Hst].
  destruct broke.
  - destruct Hc as [Hone Hlast]. rewrite Hone. simpl.
    intros [= <-]. right. split; assumption.
  - destruct Hc as (Hf & Hrest). rewrite Hf. simpl.
    apply IH; [unfold batch; lia | exact Hstop | split; assumption].
Qed.

End EarlyStop.

(** X24.  With early stop, a result that counts a failure counts exactly one:
    the failing outcome is the last one counted, every outcome before it
    passed, it is the only sample, and there is no bound.  A result that
    counts no failure counts passing outcomes only. *)
Theorem early_stop_ends_at_the_first_failure {Rng Inp Out : Type}
    (Random : Z -> Rng) (r : registries Rng Inp Out) (w : World) (c : Claim)
    (impl_name master_seed : string) (max_workers : Z)
    (cr : ClaimResult Inp Out) :
  stop_on_first_failure c = true ->
  returned _ _ (parallel_trials Rng Inp Out Random r w c impl_name master_seed
                  max_workers) = Ok cr ->
  (failures _ _ cr = 0 /\ sample_failures _ _ cr = [] /\
   Forall (fun tr => passed _ _ tr = true)
     (consumed_outcomes Rng Inp Out Random r w c impl_name master_seed max_workers)) \/
  (failures _ _ cr = 1 /\ upper95_failure_prob _ _ cr = None /\
   exists pre tr,
     consumed_outcomes Rng Inp Out Random r w c impl_name master_seed max_workers
       = pre ++ [tr] /\
     Forall (fun tr' => passed _ _ tr' = true) pre /\
     passed _ _ tr = false /\ sample_failures _ _ cr = [tr]).
Proof.
  intros Hstop. unfold parallel_trials, consumed_outcomes.
  destruct (lookup_plugins _ _ _ r c impl_name) as [p|e]; [|discriminate].
  unfold trial_loop.
  destruct (batches _ _ _ _ _ _ _ _ _ _ _ _ _ _) as [ran looped] eqn:Hloop.
  destruct looped as [st|e]; simpl; [|discriminate].
  assert (Hpost : clean st \/ stopped st).
  { apply (batches_stops Random (fst (fst p)) (snd (fst p)) (snd p) c master_seed
             w (pool_size w max_workers) (Z.to_nat (trials c)) 0 []
             (no_locals Inp Out)); [lia | exact Hstop | |].
    - split; [reflexivity|]. split; [reflexivity | constructor].
    - rewrite Hloop. reflexivity. }
  destruct (rule_of_three_upper_bound _ _) as [u|e] eqn:Hu; simpl; [|discriminate].
  intros [= <-]. simpl.
  destruct Hpost as [(Hf & Hs & Hall)|(Hf & pre & tr & Hres & Hall & Hp & Hs)].
  - left. auto.
  - right. split; [exact Hf|]. split.
    + rewrite Hf in Hu. rewrite rule_of_three_unfold in Hu. simpl in Hu.
      injection Hu as <-. reflexivity.
    + exists pre, tr. auto.
Qed.

(** ** Instances *)

Lemma reversed_world_fair : fair Samples.reversed_world.
Proof. intros workers idxs. symmetry. apply Permutation_rev. Qed.

(** Seven failing trials without early stop: seven failures, five
    samples. *)
Lemma sample_failures_are_the_first_five_witness :
  match returned _ _
          (Demo.evaluate "ones" "sort_correctness" "buggy_quicksort" 7 false) with
  | Ok cr =>
      failures _ _ cr = 7 /\
      sample_failures _ _ cr =
        firstn 5 (List.filter (failing _ _)
                    (consumed_outcomes Z (list Z) (list Z) Demo.Random
                       Demo.plugins Demo.world
                       (Demo.sorting_claim "ones" "sort_correctness" 7 false)
                       "buggy_quicksort" "seed" 0)) /\
      (length (sample_failures _ _ cr) <= 5)%nat
  | Raise _ => False
  end.
Proof.
  destruct (returned _ _
              (Demo.evaluate "ones" "sort_correctness" "buggy_quicksort" 7 false))
    as [cr|e] eqn:H.
  - pose proof (sample_failures_are_the_first_five Demo.Random Demo.plugins
                  Demo.world (Demo.sorting_claim "ones" "sort_correctness" 7 false)
                  "buggy_quicksort" "seed" 0 cr H) as [H1 H2].
    split; [|split; assumption].
    vm_compute in H. injection H as <-. reflexivity.
  - vm_compute in H. discriminate.
Defined.

Lemma empty_budget_runs_nothing_witness :
  pool_ran _ _ (Demo.evaluate "ones" "sort_correctness" "quicksort3" (-3) true) = [] /\
  exists cr,
    returned _ _ (Demo.evaluate "ones" "sort_correctness" "quicksort3" (-3) true)
      = Ok cr /\
    trials_run _ _ cr = 0 /\ failures _ _ cr = 0 /\
    sample_failures _ _ cr = [] /\ upper95_failure_prob _ _ cr = None.
Proof.
  apply (empty_budget_runs_nothing Demo.Random Demo.plugins Demo.world
           (Demo.sorting_claim "ones" "sort_correctness" (-3) true) "quicksort3"
           "seed" 0
           (Demo.constant [1; 1], sort_correctness_plugin, quicksort3_plugin)).
  - reflexivity.
  - simpl. lia.
Defined.

Lemma counts_within_budget_witness :
  match returned _ _
          (Demo.evaluate "ones" "sort_correctness" "buggy_quicksort" 7 false) with
  | Ok cr =>
      0 <= failures _ _ cr <= trials_run _ _ cr /\
      trials_run _ _ cr <= 7 /\
      upper95_failure_prob _ _ cr = None
  | Raise _ => False
  end.
Proof.
  destruct (returned _ _
              (Demo.evaluate "ones" "sort_correctness" "buggy_quicksort" 7 false))
    as [cr|e] eqn:H.
  - pose proof (counts_within_budget Demo.Random Demo.plugins
                  Demo.world (Demo.sorting_claim "ones" "sort_correctness" 7 false)
                  "buggy_quicksort" "seed" 0 cr demo_world_fair H)
      as (H1 & H2 & H3 & H4).
    simpl in H3. split; [exact H1|]. split; [lia|].
    apply H4. left. vm_compute in H. injection H as <-. reflexivity.
  - vm_compute in H. discriminate.
Defined.

(** Three failing trials, completed in index order and in reverse. *)
Lemma verdict_independent_of_scheduling_witness :
  match returned _ _
          (Demo.evaluate "ones" "sort_correctness" "buggy_quicksort" 3 false) with
  | Ok cr1 =>
      exists cr2,
        returned _ _
          (parallel_trials Z (list Z) (list Z) Demo.Random Demo.plugins
             Samples.reversed_world
             (Demo.sorting_claim "ones" "sort_correctness" 3 false)
             "buggy_quicksort" "seed" 4) = Ok cr2 /\
        trials_run _ _ cr2 = trials_run _ _ cr1 /\
        failures _ _ cr2 = failures _ _ cr1 /\
        upper95_failure_prob _ _ cr2 = upper95_failure_prob _ _ cr1
  | Raise _ => False
  end.
Proof.
  destruct (returned _ _
              (Demo.evaluate "ones" "sort_correctness" "buggy_quicksort" 3 false))
    as [cr1|e] eqn:H.
  - destruct (verdict_independent_of_scheduling Demo.Random Demo.plugins
                Demo.world Samples.reversed_world
                (Demo.sorting_claim "ones" "sort_correctness" 3 false)
                "buggy_quicksort" "seed" 0 4 cr1 demo_world_fair
                reversed_world_fair eq_refl H)
      as (cr2 & H1 & H2 & H3 & H4 & _).
    exists cr2. auto.
  - vm_compute in H. discriminate.
Defined.

Lemma early_stop_ends_at_the_first_failure_witness :
  match returned _ _
          (Demo.evaluate "ones" "sort_correctness" "buggy_quicksort" 7 true) with
  | Ok cr =>
      failures _ _ cr = 1 /\ trials_run _ _ cr = 1 /\
      length (sample_failures _ _ cr) = 1%nat /\
      upper95_failure_prob _ _ cr = None
  | Raise _ => False
  end.
Proof.
  destruct (returned _ _
              (Demo.evaluate "ones" "sort_correctness" "buggy_quicksort" 7 true))
    as [cr|e] eqn:H.
  - destruct (early_stop_ends_at_the_first_failure Demo.Random Demo.plugins
                Demo.world (Demo.sorting_claim "ones" "sort_correctness" 7 true)
                "buggy_quicksort" "seed" 0 cr eq_refl H)
      as [(Hf & _)|(Hf & Hu & pre & tr & _ & _ & _ & Hs)].
    + vm_compute in H. injection H as <-. discriminate Hf.
    + split; [exact Hf|]. split; [|split; [rewrite Hs; reflexivity | exact Hu]].
      vm_compute in H. injection H as <-. reflexivity.
  - vm_compute in H. discriminate.
Defined.

Lemma two_distinct_keys (k1 k2 : string) : k1 <> k2 -> NoDup [k1; k2].
Proof.
  intros Hne. constructor; [|constructor; [|constructor]].
  - intros Hin. apply list_elem_of_singleton in Hin. contradiction.
  - apply not_elem_of_nil.
Qed.

Lemma make_certificate_contents_witness :
  length (cert_claims
            (make_certificate PyFloat.one "0xabc" "host"
               [Samples.result_over [("nmin", VInt 0); ("nmax", VInt 12)];
                Samples.result_over []])) = 2%nat /\
  length (cert_proofs
            (make_certificate PyFloat.one "0xabc" "host"
               [Samples.result_over [("nmin", VInt 0); ("nmax", VInt 12)];
                Samples.result_over []])) = 2%nat /\
  certificate_keys_distinct
    (make_certificate PyFloat.one "0xabc" "host"
       [Samples.result_over [("nmin", VInt 0); ("nmax", VInt 12)];
        Samples.result_over []]).
Proof.
  destruct (make_certificate_contents PyFloat.one "0xabc" "host"
              [Samples.result_over [("nmin", VInt 0); ("nmax", VInt 12)];
               Samples.result_over []])
    as (_ & _ & H1 & H2 & H3).
  - constructor; [|constructor; [|constructor]].
    + simpl. split; [apply two_distinct_keys; discriminate | tauto].
    + simpl. split; [constructor | exact I].
  - split; [exact H1|]. split; [rewrite H2; reflexivity | exact H3].
Defined.

(** The parameters [nmin] and [nmax], written in the two orders. *)
Lemma made_certificate_hash_ignores_params_order_witness :
  certificate_hash (fun _ => "1.0"%string)
    (make_certificate PyFloat.one "0xabc" "host"
       [Samples.result_over [("nmin", VInt 0); ("nmax", VInt 12)]]) =
  certificate_hash (fun _ => "1.0"%string)
    (make_certificate PyFloat.one "0xabc" "host"
       [Samples.result_over [("nmax", VInt 12); ("nmin", VInt 0)]]).
Proof.
  apply made_certificate_hash_ignores_params_order.
  - constructor; [|constructor].
    simpl. split; [apply two_distinct_keys; discriminate | tauto].
  - constructor; [|constructor].
    unfold same_evidence. simpl.
    repeat (split; [reflexivity|]).
    split; [|repeat (split; [reflexivity|]); reflexivity].
    eapply same_dict; [apply perm_swap|].
    constructor; [split; [reflexivity | constructor]|].
    constructor; [split; [reflexivity | constructor]|]. constructor.
Defined.

(** [quicksort_3way] passes three trials of the counting generator. *)
Lemma falsify_sort_passes_witness :
  fst (Epi.falsify_sort Z (fun a => quicksort_3way a tt) Samples.counting_gen 3 0) =
    [("ok", VBool true); ("trial", VInt 3)].
Proof.
  apply falsify_sort_passes.
  apply Forall_forall. intros arr _. unfold Epi.accepted.
  rewrite (proj2 (is_sorted_spec _)), (proj2 (is_permutation_spec _ _));
    [reflexivity | apply quicksort_3way_permutation|].
  apply StronglySorted_Sorted, quicksort_3way_sorted.
Defined.

(** [buggy_quicksort] is caught at the third trial, the first whose array
    repeats a value. *)
Lemma falsify_sort_reports_first_counterexample_witness :
  fst (Epi.falsify_sort Z (fun a => buggy_quicksort a tt) Samples.counting_gen 5 0) =
    [("ok", VBool false); ("trial", VInt 3);
     ("counterexample", Epi.ints [2; 5; 2]); ("output", Epi.ints [2; 5])].
Proof.
  apply (falsify_sort_reports_first_counterexample
           (fun a => buggy_quicksort a tt) Samples.counting_gen 5 0 2 [2; 5; 2]).
  - reflexivity.
  - vm_compute. reflexivity.
  - intros j arr' Hj. destruct j as [|[|j]]; [| |lia];
      intros [= <-]; vm_compute; reflexivity.
Defined.
